(** * Affiliate portal (Server.js): a shallow embedding and its properties

    The Express application of [Server.js] is embedded as pure functions
    over an explicit world: the three MongoDB collections and the session
    object of the requesting browser.  What the program obtains from its
    environment at run time (a freshly generated ObjectId, the bcrypt salt,
    the value of [Math.random()], the clock and the time zone, the process
    environment) is read from an explicit record that accompanies every
    request. *)

From Stdlib Require Import ZArith QArith Qround Qpower Qabs Lia Lqa List Ascii String Bool.
From Stdlib Require Import Sorted Permutation.
From stdpp Require Import base strings gmap list.
Import ListNotations.

Local Open Scope string_scope.

(** ** JavaScript values used by the program *)

Module JS.

(** *** Strings.  A string is held as its UTF-8 encoding, one [ascii] for
    each byte; the functions that work on characters read the code points
    off the bytes.  Every string a request or the database delivers is
    well-formed UTF-8. *)

Definition code (c : ascii) : Z := Z.of_N (N_of_ascii c).

Definition byte (n : Z) : ascii := ascii_of_N (Z.to_N n).

Definition continuation (b : Z) : bool := ((128 <=? b) && (b <=? 191))%Z.

(** a byte that begins no well-formed sequence, kept as it is *)
Definition stray (b : Z) : Z := (- 1 - b)%Z.

Definition two_bytes (b1 b2 : Z) : option Z :=
  if ((194 <=? b1) && (b1 <=? 223))%Z && continuation b2
  then Some ((b1 - 192) * 64 + (b2 - 128))%Z else None.

Definition three_bytes (b1 b2 b3 : Z) : option Z :=
  let cp := ((b1 - 224) * 4096 + (b2 - 128) * 64 + (b3 - 128))%Z in
  if ((224 <=? b1) && (b1 <=? 239))%Z && continuation b2 && continuation b3
     && (2048 <=? cp)%Z && negb ((55296 <=? cp) && (cp <=? 57343))%Z
  then Some cp else None.

Definition four_bytes (b1 b2 b3 b4 : Z) : option Z :=
  let cp := ((b1 - 240) * 262144 + (b2 - 128) * 4096 + (b3 - 128) * 64 + (b4 - 128))%Z in
  if ((240 <=? b1) && (b1 <=? 244))%Z && continuation b2 && continuation b3
     && continuation b4 && (65536 <=? cp)%Z && (cp <=? 1114111)%Z
  then Some cp else None.

(** the code points of a string *)
Fixpoint code_points (s : string) : list Z :=
  match s with
  | EmptyString => []
  | String c1 r1 =>
      let b1 := code c1 in
      if (b1 <? 128)%Z then b1 :: code_points r1
      else
        match r1 with
        | String c2 r2 =>
            match two_bytes b1 (code c2) with
            | Some cp => cp :: code_points r2
            | None =>
                match r2 with
                | String c3 r3 =>
                    match three_bytes b1 (code c2) (code c3) with
                    | Some cp => cp :: code_points r3
                    | None =>
                        match r3 with
                        | String c4 r4 =>
                            match four_bytes b1 (code c2) (code c3) (code c4) with
                            | Some cp => cp :: code_points r4
                            | None => stray b1 :: code_points r1
                            end
                        | EmptyString => stray b1 :: code_points r1
                        end
                    end
                | EmptyString => stray b1 :: code_points r1
                end
            end
        | EmptyString => [stray b1]
        end
  end.

(** the bytes of one code point *)
Definition utf8 (cp : Z) : list ascii :=
  if (cp <? 0)%Z then [byte (- 1 - cp)]
  else if (cp <? 128)%Z then [byte cp]
  else if (cp <? 2048)%Z then [byte (192 + cp / 64); byte (128 + cp mod 64)]
  else if (cp <? 65536)%Z then
    [byte (224 + cp / 4096); byte (128 + cp / 64 mod 64); byte (128 + cp mod 64)]
  else
    [byte (240 + cp / 262144); byte (128 + cp / 4096 mod 64); byte (128 + cp / 64 mod 64);
     byte (128 + cp mod 64)].

Definition of_code_points (l : list Z) : string :=
  string_of_list_ascii (List.flat_map utf8 l).

(** *** Case.  Lower case mapping of Unicode 14.0 (UnicodeData.txt): a row
    [(first, last, step, delta)] maps every [step]-th code point from
    [first] to [last] to itself plus [delta]; rows are in ascending order.
    U+0130 and U+03A3 are the two code points of SpecialCasing.txt that
    lower-casing without a locale treats apart. *)

Definition lower_case_mapping : list (Z * Z * Z * Z) :=
  [
   (65, 90, 1, 32); (192, 214, 1, 32); (216, 222, 1, 32); (256, 302, 2, 1); (306, 310, 2, 1);
   (313, 327, 2, 1); (330, 374, 2, 1); (376, 376, 1, -121); (377, 381, 2, 1);
   (385, 385, 1, 210); (386, 388, 2, 1); (390, 390, 1, 206); (391, 391, 1, 1);
   (393, 394, 1, 205); (395, 395, 1, 1); (398, 398, 1, 79); (399, 399, 1, 202);
   (400, 400, 1, 203); (401, 401, 1, 1); (403, 403, 1, 205); (404, 404, 1, 207);
   (406, 406, 1, 211); (407, 407, 1, 209); (408, 408, 1, 1); (412, 412, 1, 211);
   (413, 413, 1, 213); (415, 415, 1, 214); (416, 420, 2, 1); (422, 422, 1, 218);
   (423, 423, 1, 1); (425, 425, 1, 218); (428, 428, 1, 1); (430, 430, 1, 218);
   (431, 431, 1, 1); (433, 434, 1, 217); (435, 437, 2, 1); (439, 439, 1, 219);
   (440, 440, 1, 1); (444, 444, 1, 1); (452, 452, 1, 2); (453, 453, 1, 1); (455, 455, 1, 2);
   (456, 456, 1, 1); (458, 458, 1, 2); (459, 475, 2, 1); (478, 494, 2, 1); (497, 497, 1, 2);
   (498, 500, 2, 1); (502, 502, 1, -97); (503, 503, 1, -56); (504, 542, 2, 1);
   (544, 544, 1, -130); (546, 562, 2, 1); (570, 570, 1, 10795); (571, 571, 1, 1);
   (573, 573, 1, -163); (574, 574, 1, 10792); (577, 577, 1, 1); (579, 579, 1, -195);
   (580, 580, 1, 69); (581, 581, 1, 71); (582, 590, 2, 1); (880, 882, 2, 1); (886, 886, 1, 1);
   (895, 895, 1, 116); (902, 902, 1, 38); (904, 906, 1, 37); (908, 908, 1, 64);
   (910, 911, 1, 63); (913, 929, 1, 32); (931, 939, 1, 32); (975, 975, 1, 8);
   (984, 1006, 2, 1); (1012, 1012, 1, -60); (1015, 1015, 1, 1); (1017, 1017, 1, -7);
   (1018, 1018, 1, 1); (1021, 1023, 1, -130); (1024, 1039, 1, 80); (1040, 1071, 1, 32);
   (1120, 1152, 2, 1); (1162, 1214, 2, 1); (1216, 1216, 1, 15); (1217, 1229, 2, 1);
   (1232, 1326, 2, 1); (1329, 1366, 1, 48); (4256, 4293, 1, 7264); (4295, 4295, 1, 7264);
   (4301, 4301, 1, 7264); (5024, 5103, 1, 38864); (5104, 5109, 1, 8); (7312, 7354, 1, -3008);
   (7357, 7359, 1, -3008); (7680, 7828, 2, 1); (7838, 7838, 1, -7615); (7840, 7934, 2, 1);
   (7944, 7951, 1, -8); (7960, 7965, 1, -8); (7976, 7983, 1, -8); (7992, 7999, 1, -8);
   (8008, 8013, 1, -8); (8025, 8031, 2, -8); (8040, 8047, 1, -8); (8072, 8079, 1, -8);
   (8088, 8095, 1, -8); (8104, 8111, 1, -8); (8120, 8121, 1, -8); (8122, 8123, 1, -74);
   (8124, 8124, 1, -9); (8136, 8139, 1, -86); (8140, 8140, 1, -9); (8152, 8153, 1, -8);
   (8154, 8155, 1, -100); (8168, 8169, 1, -8); (8170, 8171, 1, -112); (8172, 8172, 1, -7);
   (8184, 8185, 1, -128); (8186, 8187, 1, -126); (8188, 8188, 1, -9); (8486, 8486, 1, -7517);
   (8490, 8490, 1, -8383); (8491, 8491, 1, -8262); (8498, 8498, 1, 28); (8544, 8559, 1, 16);
   (8579, 8579, 1, 1); (9398, 9423, 1, 26); (11264, 11311, 1, 48); (11360, 11360, 1, 1);
   (11362, 11362, 1, -10743); (11363, 11363, 1, -3814); (11364, 11364, 1, -10727);
   (11367, 11371, 2, 1); (11373, 11373, 1, -10780); (11374, 11374, 1, -10749);
   (11375, 11375, 1, -10783); (11376, 11376, 1, -10782); (11378, 11378, 1, 1);
   (11381, 11381, 1, 1); (11390, 11391, 1, -10815); (11392, 11490, 2, 1); (11499, 11501, 2, 1);
   (11506, 11506, 1, 1); (42560, 42604, 2, 1); (42624, 42650, 2, 1); (42786, 42798, 2, 1);
   (42802, 42862, 2, 1); (42873, 42875, 2, 1); (42877, 42877, 1, -35332); (42878, 42886, 2, 1);
   (42891, 42891, 1, 1); (42893, 42893, 1, -42280); (42896, 42898, 2, 1); (42902, 42920, 2, 1);
   (42922, 42922, 1, -42308); (42923, 42923, 1, -42319); (42924, 42924, 1, -42315);
   (42925, 42925, 1, -42305); (42926, 42926, 1, -42308); (42928, 42928, 1, -42258);
   (42929, 42929, 1, -42282); (42930, 42930, 1, -42261); (42931, 42931, 1, 928);
   (42932, 42946, 2, 1); (42948, 42948, 1, -48); (42949, 42949, 1, -42307);
   (42950, 42950, 1, -35384); (42951, 42953, 2, 1); (42960, 42960, 1, 1); (42966, 42968, 2, 1);
   (42997, 42997, 1, 1); (65313, 65338, 1, 32); (66560, 66599, 1, 40); (66736, 66771, 1, 40);
   (66928, 66938, 1, 39); (66940, 66954, 1, 39); (66956, 66962, 1, 39); (66964, 66965, 1, 39);
   (68736, 68786, 1, 64); (71840, 71871, 1, 32); (93760, 93791, 1, 32);
   (125184, 125217, 1, 34)
  ]%Z.

(** Case_Ignorable of DerivedCoreProperties.txt, as ranges in ascending
    order. *)

Definition case_ignorable_ranges : list (Z * Z) :=
  [
   (39, 39); (46, 46); (58, 58); (94, 94); (96, 96); (168, 168); (173, 173); (175, 175);
   (180, 180); (183, 184); (688, 879); (884, 885); (890, 890); (900, 901); (903, 903);
   (1155, 1161); (1369, 1369); (1375, 1375); (1425, 1469); (1471, 1471); (1473, 1474);
   (1476, 1477); (1479, 1479); (1524, 1524); (1536, 1541); (1552, 1562); (1564, 1564);
   (1600, 1600); (1611, 1631); (1648, 1648); (1750, 1757); (1759, 1768); (1770, 1773);
   (1807, 1807); (1809, 1809); (1840, 1866); (1958, 1968); (2027, 2037); (2042, 2042);
   (2045, 2045); (2070, 2093); (2137, 2139); (2184, 2184); (2192, 2193); (2200, 2207);
   (2249, 2306); (2362, 2362); (2364, 2364); (2369, 2376); (2381, 2381); (2385, 2391);
   (2402, 2403); (2417, 2417); (2433, 2433); (2492, 2492); (2497, 2500); (2509, 2509);
   (2530, 2531); (2558, 2558); (2561, 2562); (2620, 2620); (2625, 2626); (2631, 2632);
   (2635, 2637); (2641, 2641); (2672, 2673); (2677, 2677); (2689, 2690); (2748, 2748);
   (2753, 2757); (2759, 2760); (2765, 2765); (2786, 2787); (2810, 2815); (2817, 2817);
   (2876, 2876); (2879, 2879); (2881, 2884); (2893, 2893); (2901, 2902); (2914, 2915);
   (2946, 2946); (3008, 3008); (3021, 3021); (3072, 3072); (3076, 3076); (3132, 3132);
   (3134, 3136); (3142, 3144); (3146, 3149); (3157, 3158); (3170, 3171); (3201, 3201);
   (3260, 3260); (3263, 3263); (3270, 3270); (3276, 3277); (3298, 3299); (3328, 3329);
   (3387, 3388); (3393, 3396); (3405, 3405); (3426, 3427); (3457, 3457); (3530, 3530);
   (3538, 3540); (3542, 3542); (3633, 3633); (3636, 3642); (3654, 3662); (3761, 3761);
   (3764, 3772); (3782, 3782); (3784, 3789); (3864, 3865); (3893, 3893); (3895, 3895);
   (3897, 3897); (3953, 3966); (3968, 3972); (3974, 3975); (3981, 3991); (3993, 4028);
   (4038, 4038); (4141, 4144); (4146, 4151); (4153, 4154); (4157, 4158); (4184, 4185);
   (4190, 4192); (4209, 4212); (4226, 4226); (4229, 4230); (4237, 4237); (4253, 4253);
   (4348, 4348); (4957, 4959); (5906, 5908); (5938, 5939); (5970, 5971); (6002, 6003);
   (6068, 6069); (6071, 6077); (6086, 6086); (6089, 6099); (6103, 6103); (6109, 6109);
   (6155, 6159); (6211, 6211); (6277, 6278); (6313, 6313); (6432, 6434); (6439, 6440);
   (6450, 6450); (6457, 6459); (6679, 6680); (6683, 6683); (6742, 6742); (6744, 6750);
   (6752, 6752); (6754, 6754); (6757, 6764); (6771, 6780); (6783, 6783); (6823, 6823);
   (6832, 6862); (6912, 6915); (6964, 6964); (6966, 6970); (6972, 6972); (6978, 6978);
   (7019, 7027); (7040, 7041); (7074, 7077); (7080, 7081); (7083, 7085); (7142, 7142);
   (7144, 7145); (7149, 7149); (7151, 7153); (7212, 7219); (7222, 7223); (7288, 7293);
   (7376, 7378); (7380, 7392); (7394, 7400); (7405, 7405); (7412, 7412); (7416, 7417);
   (7468, 7530); (7544, 7544); (7579, 7679); (8125, 8125); (8127, 8129); (8141, 8143);
   (8157, 8159); (8173, 8175); (8189, 8190); (8203, 8207); (8216, 8217); (8228, 8228);
   (8231, 8231); (8234, 8238); (8288, 8292); (8294, 8303); (8305, 8305); (8319, 8319);
   (8336, 8348); (8400, 8432); (11388, 11389); (11503, 11505); (11631, 11631); (11647, 11647);
   (11744, 11775); (11823, 11823); (12293, 12293); (12330, 12333); (12337, 12341);
   (12347, 12347); (12441, 12446); (12540, 12542); (40981, 40981); (42232, 42237);
   (42508, 42508); (42607, 42610); (42612, 42621); (42623, 42623); (42652, 42655);
   (42736, 42737); (42752, 42785); (42864, 42864); (42888, 42890); (42994, 42996);
   (43000, 43001); (43010, 43010); (43014, 43014); (43019, 43019); (43045, 43046);
   (43052, 43052); (43204, 43205); (43232, 43249); (43263, 43263); (43302, 43309);
   (43335, 43345); (43392, 43394); (43443, 43443); (43446, 43449); (43452, 43453);
   (43471, 43471); (43493, 43494); (43561, 43566); (43569, 43570); (43573, 43574);
   (43587, 43587); (43596, 43596); (43632, 43632); (43644, 43644); (43696, 43696);
   (43698, 43700); (43703, 43704); (43710, 43711); (43713, 43713); (43741, 43741);
   (43756, 43757); (43763, 43764); (43766, 43766); (43867, 43871); (43881, 43883);
   (44005, 44005); (44008, 44008); (44013, 44013); (64286, 64286); (64434, 64450);
   (65024, 65039); (65043, 65043); (65056, 65071); (65106, 65106); (65109, 65109);
   (65279, 65279); (65287, 65287); (65294, 65294); (65306, 65306); (65342, 65342);
   (65344, 65344); (65392, 65392); (65438, 65439); (65507, 65507); (65529, 65531);
   (66045, 66045); (66272, 66272); (66422, 66426); (67456, 67461); (67463, 67504);
   (67506, 67514); (68097, 68099); (68101, 68102); (68108, 68111); (68152, 68154);
   (68159, 68159); (68325, 68326); (68900, 68903); (69291, 69292); (69446, 69456);
   (69506, 69509); (69633, 69633); (69688, 69702); (69744, 69744); (69747, 69748);
   (69759, 69761); (69811, 69814); (69817, 69818); (69821, 69821); (69826, 69826);
   (69837, 69837); (69888, 69890); (69927, 69931); (69933, 69940); (70003, 70003);
   (70016, 70017); (70070, 70078); (70089, 70092); (70095, 70095); (70191, 70193);
   (70196, 70196); (70198, 70199); (70206, 70206); (70367, 70367); (70371, 70378);
   (70400, 70401); (70459, 70460); (70464, 70464); (70502, 70508); (70512, 70516);
   (70712, 70719); (70722, 70724); (70726, 70726); (70750, 70750); (70835, 70840);
   (70842, 70842); (70847, 70848); (70850, 70851); (71090, 71093); (71100, 71101);
   (71103, 71104); (71132, 71133); (71219, 71226); (71229, 71229); (71231, 71232);
   (71339, 71339); (71341, 71341); (71344, 71349); (71351, 71351); (71453, 71455);
   (71458, 71461); (71463, 71467); (71727, 71735); (71737, 71738); (71995, 71996);
   (71998, 71998); (72003, 72003); (72148, 72151); (72154, 72155); (72160, 72160);
   (72193, 72202); (72243, 72248); (72251, 72254); (72263, 72263); (72273, 72278);
   (72281, 72283); (72330, 72342); (72344, 72345); (72752, 72758); (72760, 72765);
   (72767, 72767); (72850, 72871); (72874, 72880); (72882, 72883); (72885, 72886);
   (73009, 73014); (73018, 73018); (73020, 73021); (73023, 73029); (73031, 73031);
   (73104, 73105); (73109, 73109); (73111, 73111); (73459, 73460); (78896, 78904);
   (92912, 92916); (92976, 92982); (92992, 92995); (94031, 94031); (94095, 94111);
   (94176, 94177); (94179, 94180); (110576, 110579); (110581, 110587); (110589, 110590);
   (113821, 113822); (113824, 113827); (118528, 118573); (118576, 118598); (119143, 119145);
   (119155, 119170); (119173, 119179); (119210, 119213); (119362, 119364); (121344, 121398);
   (121403, 121452); (121461, 121461); (121476, 121476); (121499, 121503); (121505, 121519);
   (122880, 122886); (122888, 122904); (122907, 122913); (122915, 122916); (122918, 122922);
   (123184, 123197); (123566, 123566); (123628, 123631); (125136, 125142); (125252, 125259);
   (127995, 127999); (917505, 917505); (917536, 917631); (917760, 917999)
  ]%Z.

(** Cased of DerivedCoreProperties.txt without the code points that are also
    Case_Ignorable, as ranges in ascending order. *)

Definition cased_ranges : list (Z * Z) :=
  [
   (65, 90); (97, 122); (170, 170); (181, 181); (186, 186); (192, 214); (216, 246); (248, 442);
   (444, 447); (452, 659); (661, 687); (880, 883); (886, 887); (891, 893); (895, 895);
   (902, 902); (904, 906); (908, 908); (910, 929); (931, 1013); (1015, 1153); (1162, 1327);
   (1329, 1366); (1376, 1416); (4256, 4293); (4295, 4295); (4301, 4301); (4304, 4346);
   (4349, 4351); (5024, 5109); (5112, 5117); (7296, 7304); (7312, 7354); (7357, 7359);
   (7424, 7467); (7531, 7543); (7545, 7578); (7680, 7957); (7960, 7965); (7968, 8005);
   (8008, 8013); (8016, 8023); (8025, 8025); (8027, 8027); (8029, 8029); (8031, 8061);
   (8064, 8116); (8118, 8124); (8126, 8126); (8130, 8132); (8134, 8140); (8144, 8147);
   (8150, 8155); (8160, 8172); (8178, 8180); (8182, 8188); (8450, 8450); (8455, 8455);
   (8458, 8467); (8469, 8469); (8473, 8477); (8484, 8484); (8486, 8486); (8488, 8488);
   (8490, 8493); (8495, 8500); (8505, 8505); (8508, 8511); (8517, 8521); (8526, 8526);
   (8544, 8575); (8579, 8580); (9398, 9449); (11264, 11387); (11390, 11492); (11499, 11502);
   (11506, 11507); (11520, 11557); (11559, 11559); (11565, 11565); (42560, 42605);
   (42624, 42651); (42786, 42863); (42865, 42887); (42891, 42894); (42896, 42954);
   (42960, 42961); (42963, 42963); (42965, 42969); (42997, 42998); (43002, 43002);
   (43824, 43866); (43872, 43880); (43888, 43967); (64256, 64262); (64275, 64279);
   (65313, 65338); (65345, 65370); (66560, 66639); (66736, 66771); (66776, 66811);
   (66928, 66938); (66940, 66954); (66956, 66962); (66964, 66965); (66967, 66977);
   (66979, 66993); (66995, 67001); (67003, 67004); (68736, 68786); (68800, 68850);
   (71840, 71903); (93760, 93823); (119808, 119892); (119894, 119964); (119966, 119967);
   (119970, 119970); (119973, 119974); (119977, 119980); (119982, 119993); (119995, 119995);
   (119997, 120003); (120005, 120069); (120071, 120074); (120077, 120084); (120086, 120092);
   (120094, 120121); (120123, 120126); (120128, 120132); (120134, 120134); (120138, 120144);
   (120146, 120485); (120488, 120512); (120514, 120538); (120540, 120570); (120572, 120596);
   (120598, 120628); (120630, 120654); (120656, 120686); (120688, 120712); (120714, 120744);
   (120746, 120770); (120772, 120779); (122624, 122633); (122635, 122654); (125184, 125251);
   (127280, 127305); (127312, 127337); (127344, 127369)
  ]%Z.

Fixpoint mapped (t : list (Z * Z * Z * Z)) (cp : Z) : Z :=
  match t with
  | [] => cp
  | (first, last, step, delta) :: r =>
      if (cp <? first)%Z then cp
      else if ((cp <=? last) && ((cp - first) mod step =? 0))%Z then (cp + delta)%Z
      else mapped r cp
  end.

Fixpoint within (t : list (Z * Z)) (cp : Z) : bool :=
  match t with
  | [] => false
  | (first, last) :: r =>
      if (cp <? first)%Z then false
      else if (cp <=? last)%Z then true
      else within r cp
  end.

(** the first code point of [l] that is not case-ignorable is cased *)
Fixpoint cased_next (l : list Z) : bool :=
  match l with
  | [] => false
  | cp :: r => if within case_ignorable_ranges cp then cased_next r else within cased_ranges cp
  end.

(** Final_Sigma: a cased letter before (case-ignorable code points
    between), none after; [before] is the text before, nearest first *)
Definition final_sigma (before after : list Z) : bool :=
  cased_next before && negb (cased_next after).

Fixpoint lower_text (before : list Z) (l : list Z) : list Z :=
  match l with
  | [] => []
  | cp :: r =>
      (if (cp =? 931)%Z then [if final_sigma before r then 962%Z else 963%Z]
       else if (cp =? 304)%Z then [105%Z; 775%Z]
       else [mapped lower_case_mapping cp])
      ++ lower_text (cp :: before) r
  end.

(** [String.prototype.toLowerCase] *)
Definition toLowerCase (s : string) : string :=
  of_code_points (lower_text [] (code_points s)).

(** a to z for A to Z, any other byte as it is *)
Definition lower_char (c : ascii) : ascii :=
  if ((65 <=? code c) && (code c <=? 90))%Z
  then ascii_of_N (N_of_ascii c + 32) else c.

(** the letters A to Z of a string replaced by a to z *)
Fixpoint lower_letters (s : string) : string :=
  match s with
  | EmptyString => EmptyString
  | String c r => String (lower_char c) (lower_letters r)
  end.

(** [s.split(sep)[0]] for a one-character separator: the part of [s] before
    the first occurrence of [sep], all of [s] when there is none. *)
Fixpoint split_head (sep : ascii) (s : string) : string :=
  match s with
  | EmptyString => EmptyString
  | String c r => if Ascii.eqb c sep then EmptyString else String c (split_head sep r)
  end.

(** [s.slice(-n)]: the last [n] characters, all of [s] when it is shorter. *)
Definition slice_last (n : nat) (s : string) : string :=
  let len := String.length s in
  substring (len - n) (Nat.min n len) s.

(** Truthiness of a value that is either [undefined] or a string. *)
Definition truthy (v : option string) : bool :=
  match v with
  | Some (String _ _) => true
  | _ => false
  end.

(** [a || b] on such values. *)
Definition or_else (a b : option string) : option string :=
  if truthy a then a else b.

(** *** Numbers.  A Number is NaN, an infinity or a finite binary64 value,
    held as the rational it denotes (the two zeros are not told apart). *)

Inductive Num : Type :=
| NaN
| Infinity (negative : bool)
| Finite (q : Q).

Definition pow2 (e : Z) : Q := Qpower 2%Q e.

(** floor (log2 q) for [0 < q] *)
Definition ilog2 (q : Q) : Z :=
  let e0 := (Z.log2 (Qnum q) - Z.log2 (Zpos (Qden q)))%Z in
  if Qle_bool (pow2 e0) q then e0 else (e0 - 1)%Z.

(** nearest integer, ties to even *)
Definition rne (x : Q) : Z :=
  let f := Qfloor x in
  match Qcompare (x - inject_Z f)%Q (1 # 2)%Q with
  | Lt => f
  | Gt => (f + 1)%Z
  | Eq => if Z.even f then f else (f + 1)%Z
  end.

(** The unit in the last place of the binade of [q]: 53 significant bits,
    gradual underflow below 2^-1022. *)
Definition ulp (q : Q) : Q := pow2 (Z.max (ilog2 q) (-1022) - 52).

(** Round to nearest binary64, ties to even, before the overflow test. *)
Definition round64 (q : Q) : Q :=
  match Qnum q with
  | Z0 => 0%Q
  | Zpos _ => Qred (inject_Z (rne (q / ulp q)) * ulp q)%Q
  | Zneg _ => Qred (- (inject_Z (rne ((- q) / ulp (- q))) * ulp (- q)))%Q
  end.

(** The Number for a real value: [round64], with overflow to an infinity. *)
Definition to_Num (q : Q) : Num :=
  let r := round64 q in
  if Qle_bool (pow2 1024) (Qabs r) then Infinity (Qle_bool r 0%Q) else Finite r.

(** Floating-point product and sum of finite Numbers that stay finite. *)
Definition fmul (a b : Q) : Q := round64 (a * b)%Q.
Definition fadd (a b : Q) : Q := round64 (a + b)%Q.

(** [Math.floor] of a finite Number *)
Definition Math_floor (x : Q) : Z := Qfloor x.

(** [x <= 0] *)
Definition le0 (x : Num) : bool :=
  match x with
  | NaN => false
  | Infinity negative => negative
  | Finite q => Qle_bool q 0%Q
  end.

Definition isNaN_Num (x : Num) : bool :=
  match x with NaN => true | _ => false end.

(** *** String to Number ([Number(s)], also the coercion inside [isNaN]) *)

(** WhiteSpace and LineTerminator: the code points that [Number] strips
    from both ends *)
Definition isStrWhiteSpaceChar (cp : Z) : bool :=
  (((9 <=? cp) && (cp <=? 13)) || (cp =? 32) || (cp =? 160) || (cp =? 5760)
   || ((8192 <=? cp) && (cp <=? 8202)) || (cp =? 8232) || (cp =? 8233) || (cp =? 8239)
   || (cp =? 8287) || (cp =? 12288) || (cp =? 65279))%Z.

Fixpoint drop_ws (l : list Z) : list Z :=
  match l with
  | cp :: r => if isStrWhiteSpaceChar cp then drop_ws r else l
  | [] => []
  end.

Definition trim (l : list Z) : list Z :=
  rev (drop_ws (rev (drop_ws l))).

Definition digit_val (c : ascii) : option Z :=
  let n := code c in
  if ((48 <=? n) && (n <=? 57))%Z then Some (n - 48)%Z
  else if ((97 <=? n) && (n <=? 102))%Z then Some (n - 87)%Z
  else if ((65 <=? n) && (n <=? 70))%Z then Some (n - 55)%Z
  else None.

(** the value of a run of digits in [base], [None] if a character is not a
    digit of that base; the empty run has value 0 *)
Fixpoint digits_val (base : Z) (acc : Z) (l : list ascii) : option Z :=
  match l with
  | [] => Some acc
  | c :: r =>
      match digit_val c with
      | Some d => if (d <? base)%Z then digits_val base (acc * base + d)%Z r else None
      | None => None
      end
  end.

Definition nonempty_digits (base : Z) (l : list ascii) : option Z :=
  match l with
  | [] => None
  | _ => digits_val base 0 l
  end.

(** split at the first character satisfying [p] *)
Fixpoint break_at (p : ascii -> bool) (l : list ascii) : list ascii * option (list ascii) :=
  match l with
  | [] => ([], None)
  | c :: r =>
      if p c then ([], Some r)
      else let '(a, b) := break_at p r in (c :: a, b)
  end.

Definition is_char (x : string) (c : ascii) : bool :=
  match x with
  | String a EmptyString => Ascii.eqb a c
  | _ => false
  end.

Definition strip_sign (l : list ascii) : bool * list ascii :=
  match l with
  | c :: r =>
      if is_char "-" c then (true, r)
      else if is_char "+" c then (false, r)
      else (false, l)
  | [] => (false, [])
  end.

Definition pow10 (e : Z) : Q := Qpower 10%Q e.

(** the mathematical value of an unsigned decimal literal
    [digits . digits e±digits] *)
Definition decimal_value (l : list ascii) : option Q :=
  let '(mant, ex) := break_at (fun c => is_char "e" c || is_char "E" c) l in
  let '(ip, fp) := break_at (is_char ".") mant in
  let mantissa : option Q :=
    match fp with
    | None => inject_Z <$> nonempty_digits 10 ip
    | Some f =>
        match ip, f with
        | [], [] => None
        | _, _ =>
            i ← digits_val 10 0 ip;
            d ← digits_val 10 0 f;
            Some (inject_Z i + inject_Z d * pow10 (- Z.of_nat (List.length f)))%Q
        end
    end in
  let exponent : option Z :=
    match ex with
    | None => Some 0%Z
    | Some x =>
        let '(neg, ds) := strip_sign x in
        e ← nonempty_digits 10 ds;
        Some (if neg then (- e)%Z else e)
    end in
  m ← mantissa; e ← exponent; Some (m * pow10 e)%Q.

Definition radix_prefix (l : list ascii) : option (Z * list ascii) :=
  match l with
  | z :: x :: r =>
      if is_char "0" z then
        if is_char "x" x || is_char "X" x then Some (16%Z, r)
        else if is_char "o" x || is_char "O" x then Some (8%Z, r)
        else if is_char "b" x || is_char "B" x then Some (2%Z, r)
        else None
      else None
  | _ => None
  end.

Definition StringToNumber (s : string) : Num :=
  let l := List.flat_map utf8 (trim (code_points s)) in
  match l with
  | [] => Finite 0%Q
  | _ =>
      match radix_prefix l with
      | Some (base, ds) =>
          match nonempty_digits base ds with
          | Some n => to_Num (inject_Z n)
          | None => NaN
          end
      | None =>
          let '(neg, u) := strip_sign l in
          if String.eqb (string_of_list_ascii u) "Infinity" then Infinity neg
          else match decimal_value u with
               | Some v => to_Num (if neg then (- v)%Q else v)
               | None => NaN
               end
      end
  end.

(** *** Number to String for an integer below 10^21: its decimal digits. *)

Definition digit_char (d : Z) : ascii := ascii_of_N (Z.to_N (48 + d)).

Fixpoint decimal_digits (fuel : nat) (n : Z) (acc : string) : string :=
  let acc' := String (digit_char (n mod 10)) acc in
  match fuel with
  | O => acc'
  | S f => if (n <? 10)%Z then acc' else decimal_digits f (n / 10)%Z acc'
  end.

Definition Z_toString (n : Z) : string :=
  if (n <? 0)%Z
  then String "-" (decimal_digits (Z.to_nat (Z.log2 (- n))) (- n) "")
  else decimal_digits (Z.to_nat (Z.log2 n)) n "".

End JS.

(** ** The collections (userSchema, clickSchema, payoutSchema) *)

Inductive Role : Type := affiliate | admin.

Inductive Status : Type := pending | approved | rejected.

#[global] Instance Role_eq_dec : EqDecision Role.
Proof. solve_decision. Defined.

#[global] Instance Status_eq_dec : EqDecision Status.
Proof. solve_decision. Defined.

(** An ObjectId is held as its 24-digit hexadecimal string; a date as the
    number of milliseconds since the epoch. *)
Abbreviation ObjectId := string (only parsing).
Abbreviation Date := Z (only parsing).

Record User : Type := mkUser {
  user_id : ObjectId;
  user_name : string;
  user_email : string;
  user_passwordHash : string;
  user_referralCode : string;
  user_role : Role;
  user_createdAt : Date;
  user_updatedAt : Date
}.

Record Click : Type := mkClick {
  click_id : ObjectId;
  click_affiliate : ObjectId;
  click_ip : option string;
  click_userAgent : option string;
  click_createdAt : Date
}.

Record PayoutRequest : Type := mkPayoutRequest {
  payout_id : ObjectId;
  payout_affiliate : option ObjectId;
  payout_amount : JS.Num;
  payout_status : Status;
  payout_createdAt : Date;
  payout_processedAt : option Date
}.

(** A value kept in the session object: [null] or a string. *)
Inductive SVal : Type := Null | Str (s : string).

(** The world one request runs in: the three collections, each in
    insertion order, and the session object ([req.session]) of the browser
    that sends the request. *)
Record World : Type := mkWorld {
  users : list User;
  clicks : list Click;
  payouts : list PayoutRequest;
  session : gmap string SVal
}.

Definition with_users (w : World) (us : list User) : World :=
  mkWorld us (clicks w) (payouts w) (session w).
Definition with_clicks (w : World) (cs : list Click) : World :=
  mkWorld (users w) cs (payouts w) (session w).
Definition with_payouts (w : World) (ps : list PayoutRequest) : World :=
  mkWorld (users w) (clicks w) ps (session w).
Definition with_session (w : World) (s : gmap string SVal) : World :=
  mkWorld (users w) (clicks w) (payouts w) s.

(** ** What the environment supplies *)

(** [process.env] *)
Record ProcessEnv : Type := mkProcessEnv {
  ADMIN_EMAIL : option string;
  ADMIN_PASSWORD : option string;
  BASE_URL : option string
}.

(** A result of [Math.random()]: a binary64 value in [0, 1), that is
    m * 2^-s with 0 <= m < 2^53 and 53 <= s <= 1074. *)
Record UnitDouble : Type := mkUnitDouble { mant : Z; scale : Z }.

Definition unit_value (r : UnitDouble) : Q :=
  (inject_Z (mant r mod 2 ^ 53) * JS.pow2 (- (53 + scale r mod 1022)))%Q.

(** What one request (or the start-up hook) reads from outside the program. *)
Record Ambient : Type := mkAmbient {
  env : ProcessEnv;
  objectId : ObjectId;      (* the id mongoose generates for a new document *)
  salt : string;            (* the salt bcrypt generates *)
  random : UnitDouble;      (* Math.random() *)
  now : Date;               (* new Date(), Date.now() *)
  LocalTime : Date -> Z;    (* the local time of an instant in the host's time zone *)
  UTC : Z -> Date           (* the instant of a local time in the host's time zone *)
}.

(** bcryptjs *)
Class Bcrypt : Type := {
  bcrypt_hash : string -> nat -> string -> string;   (* password, rounds, salt *)
  bcrypt_compare : string -> string -> bool          (* password, digest *)
}.

(** ** Handlers as computations: state and exceptions

    An awaited call may throw; what was written before the throw stays
    written. *)

Inductive Exn : Type :=
| DuplicateKey (index : string)
| DocumentNotFound
| CastError (kind value path : string)
| TypeError (message : string)
| Error (message : string).

Definition M (A : Type) : Type := World -> World * (Exn + A).

#[global] Instance M_ret : MRet M := fun A x w => (w, inr x).
#[global] Instance M_bind : MBind M := fun A B f m w =>
  match m w with
  | (w', inr x) => f x w'
  | (w', inl e) => (w', inl e)
  end.

Definition throw {A : Type} (e : Exn) : M A := fun w => (w, inl e).

(** [try { body } catch (err) { handler }] *)
Definition try_catch {A : Type} (body : M A) (handler : Exn -> M A) : M A :=
  fun w =>
    match body w with
    | (w', inr x) => (w', inr x)
    | (w', inl e) => handler e w'
    end.

Definition get : M World := fun w => (w, inr w).
Definition put (w : World) : M unit := fun _ => (w, inr tt).

(** ** Mongoose model operations *)

(** the unique indexes of userSchema: email and referralCode *)
Definition violated_index (doc : User) (others : list User) : option string :=
  if existsb (fun u => String.eqb (user_email u) (user_email doc)) others
  then Some "email"
  else if existsb (fun u => String.eqb (user_referralCode u) (user_referralCode doc)) others
  then Some "referralCode"
  else None.

Definition User_findOne (p : User -> bool) : M (option User) :=
  w ← get; mret (List.find p (users w)).

Definition User_findById (id : ObjectId) : M (option User) :=
  User_findOne (fun u => String.eqb (user_id u) id).

Definition User_find (p : User -> bool) : M (list User) :=
  w ← get; mret (List.filter p (users w)).

Definition User_countDocuments (p : User -> bool) : M nat :=
  w ← get; mret (length (List.filter p (users w))).

Definition User_create (a : Ambient) (name email passwordHash referralCode : string)
    (role : Role) : M User :=
  w ← get;
  let doc := mkUser (objectId a) name email passwordHash referralCode role (now a) (now a) in
  match violated_index doc (users w) with
  | Some ix => throw (DuplicateKey ix)
  | None => put (with_users w (users w ++ [doc]));; mret doc
  end.

(** the documents other than the first one whose id is [id] *)
Fixpoint without_id (id : ObjectId) (us : list User) : list User :=
  match us with
  | [] => []
  | u :: r => if String.eqb (user_id u) id then r else u :: without_id id r
  end.

Fixpoint replace_id (doc : User) (us : list User) : list User :=
  match us with
  | [] => []
  | u :: r => if String.eqb (user_id u) (user_id doc) then doc :: r else u :: replace_id doc r
  end.

(** [user.save()] of a document read from the collection *)
Definition User_save (a : Ambient) (doc : User) : M unit :=
  w ← get;
  if existsb (fun u => String.eqb (user_id u) (user_id doc)) (users w) then
    let doc' := mkUser (user_id doc) (user_name doc) (user_email doc) (user_passwordHash doc)
                  (user_referralCode doc) (user_role doc) (user_createdAt doc) (now a) in
    match violated_index doc' (without_id (user_id doc) (users w)) with
    | Some ix => throw (DuplicateKey ix)
    | None => put (with_users w (replace_id doc' (users w)))
    end
  else throw DocumentNotFound.

Definition Click_create (a : Ambient) (aff : ObjectId) (ip userAgent : option string) : M Click :=
  w ← get;
  let doc := mkClick (objectId a) aff ip userAgent (now a) in
  put (with_clicks w (clicks w ++ [doc]));; mret doc.

Definition Click_countDocuments (p : Click -> bool) : M nat :=
  w ← get; mret (length (List.filter p (clicks w))).

Definition PayoutRequest_create (a : Ambient) (aff : option ObjectId) (amount : JS.Num)
    (st : Status) : M PayoutRequest :=
  w ← get;
  let doc := mkPayoutRequest (objectId a) aff amount st (now a) None in
  put (with_payouts w (payouts w ++ [doc]));; mret doc.

Definition PayoutRequest_countDocuments (p : PayoutRequest -> bool) : M nat :=
  w ← get; mret (length (List.filter p (payouts w))).

Fixpoint update_first (id : ObjectId) (f : PayoutRequest -> PayoutRequest)
    (ps : list PayoutRequest) : list PayoutRequest :=
  match ps with
  | [] => []
  | p :: r => if String.eqb (payout_id p) id then f p :: r else p :: update_first id f r
  end.

(** the update [{ status: st, processedAt: t }] applied to one document *)
Definition adjudicated (st : Status) (t : Date) (p : PayoutRequest) : PayoutRequest :=
  mkPayoutRequest (payout_id p) (payout_affiliate p) (payout_amount p) st
    (payout_createdAt p) (Some t).

(** The digits of a hexadecimal string in lower case, [None] when a
    character is no hexadecimal digit. *)
Fixpoint hex_lower (s : string) : option string :=
  match s with
  | EmptyString => Some EmptyString
  | String c r =>
      match JS.digit_val c, hex_lower r with
      | Some _, Some r' => Some (String (JS.lower_char c) r')
      | _, _ => None
      end
  end.

(** The cast of a string to an ObjectId ([new ObjectId(s)] of bson 6, which
    mongoose applies to the id of a query): a string of 24 hexadecimal
    digits, in either case, is the id with those digits; no other string
    is an id.  (Before bson 6 a string of 12 characters was an id as well,
    read as its 12 bytes; the statements on ids that do not cast leave
    strings of that length out.) *)
Definition castObjectId (s : string) : option ObjectId :=
  if (String.length s =? 24)%nat then hex_lower s else None.

(** [findByIdAndUpdate(id, { status, processedAt })] for an id given as a
    string: the id is cast first, and a string that does not cast rejects
    the call with a CastError before the database is asked. *)
Definition PayoutRequest_findByIdAndUpdate (id : string) (st : Status) (at_ : Date) : M unit :=
  match castObjectId id with
  | None => throw (CastError "ObjectId" id "_id")
  | Some oid =>
      w ← get;
      put (with_payouts w (update_first oid (adjudicated st at_) (payouts w)))
  end.

Fixpoint insert_desc {A : Type} (key : A -> Z) (x : A) (l : list A) : list A :=
  match l with
  | [] => [x]
  | y :: r => if (key y <? key x)%Z then x :: l else y :: insert_desc key x r
  end.

(** [.sort({ createdAt: -1 })]: latest first.  MongoDB leaves the order of
    documents of equal date open; here they come in the reverse of their
    order in the collection. *)
Definition sort_desc {A : Type} (key : A -> Z) (l : list A) : list A :=
  fold_right (insert_desc key) [] l.

(** [.populate("affiliate")] *)
Definition populate (w : World) (id : option ObjectId) : option User :=
  match id with
  | Some i => List.find (fun u => String.eqb (user_id u) i) (users w)
  | None => None
  end.

(** ** The session object *)

(** [req.session[k]] read as a string, [None] for [undefined] and [null] *)
Definition slot (w : World) (k : string) : option string :=
  match session w !! k with
  | Some (Str s) => Some s
  | _ => None
  end.

(** [req.session[k] = v] *)
Definition session_set (k : string) (v : SVal) : M unit :=
  w ← get; put (with_session w (<[k := v]> (session w))).

(** a form field or header that is known to be present, as a string *)
Definition str (v : option string) : string := default "" v.

Definition opt_eqb (v : option string) (s : string) : bool :=
  match v with
  | Some x => String.eqb x s
  | None => false
  end.

Definition is_role (r : Role) (u : User) : bool := bool_decide (user_role u = r).

(** ** Responses *)

Inductive Locals : Type :=
| LError (error : option string)
| LDashboard (referralLink : string) (totalClicks todayClicks : nat)
    (payouts : list PayoutRequest)
| LAdminDashboard (totalAffiliates totalClicks pendingPayouts : nat)
| LAffiliates (affiliates : list User)
| LClicks (clicks : list (Click * option User))
| LPayouts (payouts : list (PayoutRequest * option User)).

Inductive Response : Type :=
| Render (view : string) (data : Locals)
| Redirect (path : string)
| Send (status : Z) (body : string).

(** [res.locals] *)
Record ResLocals : Type := mkResLocals {
  currentUser : option User;
  adminUser : option User
}.

(** ** Server.js *)

Section Server.

Context `{Bcrypt}.

(** *** Helpers *)

Definition generateReferralCode (name : option string) (id : ObjectId) (rnd : UnitDouble)
    : string :=
  let base := JS.toLowerCase (JS.split_head " " (str (JS.or_else name (Some "user")))) in
  base ++ JS.slice_last 4 id
       ++ JS.Z_toString (JS.Math_floor (JS.fadd 100 (JS.fmul (unit_value rnd) 900))).

(** The value is the line written to the console. *)
Definition ensureAdminUser (a : Ambient) : M string :=
  let email := ADMIN_EMAIL (env a) in
  let password := ADMIN_PASSWORD (env a) in
  if negb (JS.truthy email) || negb (JS.truthy password) then
    mret "Set ADMIN_EMAIL and ADMIN_PASSWORD in env."
  else
    admin_ ← User_findOne (fun u => String.eqb (user_email u) (str email) && is_role admin u);
    match admin_ with
    | None =>
        let passwordHash := bcrypt_hash (str password) 10 (salt a) in
        User_create a "Super Admin" (str email) passwordHash "admin" admin;;
        mret ("Admin created: " ++ str email)
    | Some _ => mret ("Admin already exists: " ++ str email)
    end.

(** [mongoose.connect(...).then(...).catch(...)]: a rejection is logged. *)
Definition startup (a : Ambient) : M string :=
  try_catch (ensureAdminUser a) (fun _ => mret "MongoDB error:").

(** *** Middlewares *)

Definition loadSessionData : M ResLocals :=
  w ← get;
  cu ← (if JS.truthy (slot w "userId") then User_findById (str (slot w "userId"))
        else mret None);
  au ← (if JS.truthy (slot w "adminId") then User_findById (str (slot w "adminId"))
        else mret None);
  mret (mkResLocals cu au).

Definition requireAffiliate (next : M Response) : M Response :=
  w ← get;
  if negb (JS.truthy (slot w "userId")) then mret (Redirect "/login") else next.

Definition requireAdmin (next : M Response) : M Response :=
  w ← get;
  if negb (JS.truthy (slot w "adminId")) then mret (Redirect "/admin/login") else next.

(** *** General routes *)

Definition get_root : M Response :=
  w ← get;
  if JS.truthy (slot w "userId") then mret (Redirect "/dashboard")
  else if JS.truthy (slot w "adminId") then mret (Redirect "/admin")
  else mret (Redirect "/login").

(** *** Affiliate auth *)

Definition get_register : M Response := mret (Render "register" (LError None)).

Definition post_register (a : Ambient) (name email password : option string) : M Response :=
  if negb (JS.truthy name) || negb (JS.truthy email) || negb (JS.truthy password) then
    mret (Render "register" (LError (Some "Sab field bhar do.")))
  else
    try_catch
      (existing ← User_findOne (fun u => String.eqb (user_email u) (str email));
       match existing with
       | Some _ => mret (Render "register" (LError (Some "Ye email already registered hai.")))
       | None =>
           let passwordHash := bcrypt_hash (str password) 10 (salt a) in
           user ← User_create a (str name) (str email) passwordHash "temp" affiliate;
           let user' :=
             mkUser (user_id user) (user_name user) (user_email user) (user_passwordHash user)
               (generateReferralCode (Some (user_name user)) (user_id user) (random a))
               (user_role user) (user_createdAt user) (user_updatedAt user) in
           User_save a user';;
           session_set "userId" (Str (user_id user'));;
           mret (Redirect "/dashboard")
       end)
      (fun err => mret (Render "register" (LError (Some "Error aaya.")))).

Definition get_login : M Response := mret (Render "login" (LError None)).

Definition post_login (email password : option string) : M Response :=
  if negb (JS.truthy email) || negb (JS.truthy password) then
    mret (Render "login" (LError (Some "Email aur password dalo.")))
  else
    try_catch
      (user ← User_findOne
                (fun u => String.eqb (user_email u) (str email) && is_role affiliate u);
       match user with
       | None => mret (Render "login" (LError (Some "Galat email ya password.")))
       | Some user =>
           let ok := bcrypt_compare (str password) (user_passwordHash user) in
           if negb ok then mret (Render "login" (LError (Some "Galat email ya password.")))
           else
             session_set "userId" (Str (user_id user));;
             mret (Redirect "/dashboard")
       end)
      (fun err => mret (Render "login" (LError (Some "Kuch galat ho gaya.")))).

Definition get_logout : M Response :=
  session_set "userId" Null;;
  mret (Redirect "/login").

(** *** Affiliate dashboard and payout *)

(** [d.setHours(0, 0, 0, 0)] for a date at the instant [t]: the instant of
    the local time 00:00:00.000 on the local day of [t], that is
    UTC(MakeDate(Day(LocalTime(t)), 0)) with the two time zone operations of
    the host; the offset in force at that midnight need not be the one in
    force at [t]. *)
Definition setHours0 (a : Ambient) (t : Date) : Date :=
  UTC a (86400000 * (LocalTime a t / 86400000))%Z.

Definition totalClicks_query (uid : ObjectId) (c : Click) : bool :=
  String.eqb (click_affiliate c) uid.

Definition todayClicks_query (uid : ObjectId) (todayStart : Date) (c : Click) : bool :=
  String.eqb (click_affiliate c) uid && (todayStart <=? click_createdAt c)%Z.

Definition get_dashboard (a : Ambient) (locals : ResLocals) : M Response :=
  requireAffiliate
    (match currentUser locals with
     | None => throw (TypeError "Cannot read properties of null (reading 'referralCode')")
     | Some user =>
         let baseUrl := str (JS.or_else (BASE_URL (env a)) (Some "http://localhost:3000")) in
         let referralLink := baseUrl ++ "/r/" ++ user_referralCode user in
         totalClicks ← Click_countDocuments (totalClicks_query (user_id user));
         let todayStart := setHours0 a (now a) in
         todayClicks ← Click_countDocuments (todayClicks_query (user_id user) todayStart);
         w ← get;
         let payouts :=
           sort_desc payout_createdAt
             (List.filter (fun p => opt_eqb (payout_affiliate p) (user_id user)) (payouts w)) in
         mret (Render "dashboard" (LDashboard referralLink totalClicks todayClicks payouts))
     end).

Definition post_payout_request (a : Ambient) (amount : option string) : M Response :=
  requireAffiliate
    (if negb (JS.truthy amount)
        || JS.isNaN_Num (JS.StringToNumber (str amount))
        || JS.le0 (JS.StringToNumber (str amount))
     then mret (Redirect "/dashboard")
     else
       w ← get;
       PayoutRequest_create a (slot w "userId") (JS.StringToNumber (str amount)) pending;;
       mret (Redirect "/dashboard")).

(** *** Referral link click tracking *)

Definition get_r (a : Ambient) (code : string)
    (x_forwarded_for remoteAddress user_agent : option string) : M Response :=
  user ← User_findOne (fun u => String.eqb (user_referralCode u) code && is_role affiliate u);
  match user with
  | None => mret (Send 404 "Invalid referral link")
  | Some user =>
      Click_create a (user_id user) (JS.or_else x_forwarded_for remoteAddress) user_agent;;
      mret (Send 200 ("You clicked referral of " ++ user_name user ++ "."))
  end.

(** *** Admin auth *)

Definition get_admin_login : M Response := mret (Render "admin-login" (LError None)).

(** An email that is missing from the body matches no account ([undefined]
    in a filter is sent as null, and no account is without an email); a
    password that is missing makes [bcrypt.compare] throw. *)
Definition post_admin_login (email password : option string) : M Response :=
  admin_ ← User_findOne (fun u => opt_eqb email (user_email u) && is_role admin u);
  match admin_ with
  | None => mret (Render "admin-login" (LError (Some "Admin not found")))
  | Some admin_ =>
      match password with
      | None => throw (Error "Illegal arguments: undefined, string")
      | Some password =>
          let ok := bcrypt_compare password (user_passwordHash admin_) in
          if negb ok then mret (Render "admin-login" (LError (Some "Wrong password")))
          else
            session_set "adminId" (Str (user_id admin_));;
            mret (Redirect "/admin")
      end
  end.

Definition get_admin_logout : M Response :=
  session_set "adminId" Null;;
  mret (Redirect "/admin/login").

(** *** Admin dashboard *)

Definition get_admin : M Response :=
  requireAdmin
    (totalAffiliates ← User_countDocuments (is_role affiliate);
     totalClicks ← Click_countDocuments (fun _ => true);
     pendingPayouts ← PayoutRequest_countDocuments
                        (fun p => bool_decide (payout_status p = pending));
     mret (Render "admin-dashboard"
             (LAdminDashboard totalAffiliates totalClicks pendingPayouts))).

Definition get_admin_affiliates : M Response :=
  requireAdmin
    (affiliates ← User_find (is_role affiliate);
     mret (Render "admin-affiliates" (LAffiliates affiliates))).

Definition get_admin_clicks : M Response :=
  requireAdmin
    (w ← get;
     let clicks :=
       List.map (fun c => (c, populate w (Some (click_affiliate c))))
         (take 100 (sort_desc click_createdAt (clicks w))) in
     mret (Render "admin-clicks" (LClicks clicks))).

Definition get_admin_payouts : M Response :=
  requireAdmin
    (w ← get;
     let payouts := List.map (fun p => (p, populate w (payout_affiliate p))) (payouts w) in
     mret (Render "admin-payouts" (LPayouts payouts))).

Definition post_admin_payouts_approve (a : Ambient) (id : string) : M Response :=
  requireAdmin
    (PayoutRequest_findByIdAndUpdate id approved (now a);;
     mret (Redirect "/admin/payouts")).

Definition post_admin_payouts_reject (a : Ambient) (id : string) : M Response :=
  requireAdmin
    (PayoutRequest_findByIdAndUpdate id rejected (now a);;
     mret (Redirect "/admin/payouts")).

(** *** The application: [loadSessionData], then the route *)

(** A request of each route with what the handler reads from it.  A field of
    [req.body] or a header is [None] when the request does not carry it and
    a string otherwise; a route parameter is a string.  The body parser
    ([extended: true]) also builds arrays and objects out of bracketed field
    names; such bodies are not among these requests, whose body fields are
    strings, and every statement on a route that reads the body is about a
    body of strings. *)
Inductive Request : Type :=
| GET_root
| GET_register
| POST_register (name email password : option string)
| GET_login
| POST_login (email password : option string)
| GET_logout
| GET_dashboard
| POST_payout_request (amount : option string)
| GET_r (code : string) (x_forwarded_for remoteAddress user_agent : option string)
| GET_admin_login
| POST_admin_login (email password : option string)
| GET_admin_logout
| GET_admin
| GET_admin_affiliates
| GET_admin_clicks
| GET_admin_payouts
| POST_admin_payouts_approve (id : string)
| POST_admin_payouts_reject (id : string).

Definition app (a : Ambient) (req : Request) : M Response :=
  locals ← loadSessionData;
  match req with
  | GET_root => get_root
  | GET_register => get_register
  | POST_register name email password => post_register a name email password
  | GET_login => get_login
  | POST_login email password => post_login email password
  | GET_logout => get_logout
  | GET_dashboard => get_dashboard a locals
  | POST_payout_request amount => post_payout_request a amount
  | GET_r code xff ra ua => get_r a code xff ra ua
  | GET_admin_login => get_admin_login
  | POST_admin_login email password => post_admin_login email password
  | GET_admin_logout => get_admin_logout
  | GET_admin => get_admin
  | GET_admin_affiliates => get_admin_affiliates
  | GET_admin_clicks => get_admin_clicks
  | GET_admin_payouts => get_admin_payouts
  | POST_admin_payouts_approve id => post_admin_payouts_approve a id
  | POST_admin_payouts_reject id => post_admin_payouts_reject a id
  end.

(** *** The running server: one database, one session object per browser *)

Record Server : Type := mkServer {
  db_users : list User;
  db_clicks : list Click;
  db_payouts : list PayoutRequest;
  sessions : gmap string (gmap string SVal)
}.

Definition boot : Server := mkServer [] [] [] ∅.

(** the world of a request that carries the session cookie [sid] *)
Definition enter (sv : Server) (sid : string) : World :=
  mkWorld (db_users sv) (db_clicks sv) (db_payouts sv) (default ∅ (sessions sv !! sid)).

Definition leave (sv : Server) (sid : string) (w : World) : Server :=
  mkServer (users w) (clicks w) (payouts w) (<[sid := session w]> (sessions sv)).

Inductive Event : Type :=
| Startup (a : Ambient)                              (* the database connects *)
| Incoming (a : Ambient) (sid : string) (req : Request).

Definition step (sv : Server) (e : Event) : Server :=
  match e with
  | Startup a =>
      let w := fst (startup a (mkWorld (db_users sv) (db_clicks sv) (db_payouts sv) ∅)) in
      mkServer (users w) (clicks w) (payouts w) (sessions sv)
  | Incoming a sid req => leave sv sid (fst (app a req (enter sv sid)))
  end.

Definition run (sv : Server) (es : list Event) : Server := fold_left step es sv.

Definition reachable (sv : Server) : Prop := exists es, sv = run boot es.

End Server.

(** ** The vocabulary of the statements *)

(** what the dashboard counts *)

Definition totalClicks (w : World) (uid : ObjectId) : nat :=
  length (List.filter (totalClicks_query uid) (clicks w)).

Definition todayClicks (w : World) (uid : ObjectId) (todayStart : Date) : nat :=
  length (List.filter (todayClicks_query uid todayStart) (clicks w)).

(** A guard admits a request when it hands over to the route's handler. *)
Definition admits (guard : M Response -> M Response) (w : World) : Prop :=
  forall next : M Response, guard next w = next w.

(** A form field is blank when it is missing or the empty string. *)
Definition blank (v : option string) : Prop := v = None \/ v = Some "".

(** A Number that is neither NaN nor [<= 0]. *)
Definition above_zero (x : JS.Num) : Prop :=
  match x with
  | JS.NaN => False
  | JS.Infinity negative => negative = false
  | JS.Finite q => (0 < q)%Q
  end.

(** A computation relates the world it starts in to the world it leaves. *)
Definition preserves (R : World -> World -> Prop) {A : Type} (m : M A) : Prop :=
  forall w, R w (fst (m w)).

(** [ps'] has every request of [ps] at its place, with the same id, and none
    of them is pending in [ps'] unless it was pending in [ps]. *)
Definition payouts_evolve (ps ps' : list PayoutRequest) : Prop :=
  forall (i : nat) (p : PayoutRequest), ps !! i = Some p ->
    exists p', ps' !! i = Some p' /\ payout_id p' = payout_id p
               /\ (payout_status p' = pending -> payout_status p = pending).

Definition world_payouts_evolve (w w' : World) : Prop :=
  payouts_evolve (payouts w) (payouts w').

(** [i] is the place of the first request of [ps] whose id is [oid] *)
Definition first_with_id (ps : list PayoutRequest) (oid : ObjectId) (i : nat) : Prop :=
  (exists p, ps !! i = Some p /\ payout_id p = oid)
  /\ forall j q, (j < i)%nat -> ps !! j = Some q -> payout_id q <> oid.

(** What an adjudication route does with the decision it stands for when
    the session has an admin.  An id that is no ObjectId (and not of 12
    characters) makes the update throw a CastError: no response, the world
    as before.  For an id that casts, the answer is the redirect to
    /admin/payouts; accounts, clicks and the session are as before; the
    first request with that id (if any)
    has the decision as status and the time of the request as processing
    date, whatever its status was, and its other fields as before; every
    other request is as before. *)
Definition adjudicates (route : Ambient -> string -> M Response) (decision : Status) : Prop :=
  forall (a : Ambient) (id : string) (w : World),
    JS.truthy (slot w "adminId") = true ->
    (castObjectId id = None -> String.length id <> 12%nat ->
     route a id w = (w, inl (CastError "ObjectId" id "_id")))
    /\ (forall oid, castObjectId id = Some oid ->
          snd (route a id w) = inr (Redirect "/admin/payouts")
          /\ users (fst (route a id w)) = users w
          /\ clicks (fst (route a id w)) = clicks w
          /\ session (fst (route a id w)) = session w
          /\ length (payouts (fst (route a id w))) = length (payouts w)
          /\ forall i p, payouts w !! i = Some p ->
               (first_with_id (payouts w) oid i ->
                  payouts (fst (route a id w)) !! i
                    = Some (mkPayoutRequest (payout_id p) (payout_affiliate p)
                              (payout_amount p) decision (payout_createdAt p)
                              (Some (now a))))
               /\ (~ first_with_id (payouts w) oid i ->
                   payouts (fst (route a id w)) !! i = Some p)).

(** No two accounts have the same email. *)
Definition emails_unique (us : list User) : Prop := NoDup (List.map user_email us).

Definition world_keeps_emails_unique (w w' : World) : Prop :=
  emails_unique (users w) -> emails_unique (users w').

(** the query [{ email, role: "admin" }] of [ensureAdminUser] *)
Definition admin_with_email (e : string) (u : User) : bool :=
  String.eqb (user_email u) e && is_role admin u.

(** what the login form shows for a miss and for a mismatch *)
Definition invalid_credentials : Response :=
  Render "login" (LError (Some "Galat email ya password.")).

(** the decimal digits of a number of three digits *)
Definition three_digits (n : Z) : string :=
  String (JS.digit_char (n / 100))
    (String (JS.digit_char (n / 10 mod 10)) (String (JS.digit_char (n mod 10)) "")).

(** *** The referral code in the words of the specification: the
    lowercased first whitespace-delimited token of the name (a fixed default
    word when the name is empty), the last 4 characters of the id, a suffix
    of three digits. *)

Fixpoint until_whitespace (l : list Z) : list Z :=
  match l with
  | [] => []
  | cp :: r => if JS.isStrWhiteSpaceChar cp then [] else cp :: until_whitespace r
  end.

Fixpoint first_token (l : list Z) : list Z :=
  match l with
  | [] => []
  | cp :: r => if JS.isStrWhiteSpaceChar cp then first_token r else cp :: until_whitespace r
  end.

Definition spec_first_token (s : string) : string :=
  JS.of_code_points (first_token (JS.code_points s)).

Definition spec_referral_code (name : option string) (id : ObjectId) (n : Z) : string :=
  JS.toLowerCase (spec_first_token (if JS.truthy name then str name else "user"))
    ++ JS.slice_last 4 id ++ three_digits n.

(** ** A small history of the portal, for the examples *)

Module Demo.

(** A stand-in for bcryptjs that keeps the password readable: the digest
    is the password, a separator and the salt. *)
Definition plain : Bcrypt := {|
  bcrypt_hash := fun password _ salt => password ++ "$" ++ salt;
  bcrypt_compare := fun password digest => String.prefix (password ++ "$") digest
|}.

Definition env0 : ProcessEnv :=
  mkProcessEnv (Some "root@example.com") (Some "s3cret") None.

(** the same deployment after the admin email was changed *)
Definition env1 : ProcessEnv :=
  mkProcessEnv (Some "ops@example.com") (Some "s3cret") None.

Definition zero : UnitDouble := mkUnitDouble 0 0.

(** the host keeps UTC: local time and instant are the same number *)
Definition ambient (id : ObjectId) (t : Date) : Ambient :=
  mkAmbient env0 id "salt" zero t (fun t => t) (fun t => t).

Definition root_id : ObjectId := "65a000000000000000000001".
Definition asha_id : ObjectId := "65a00000000000000000a001".
Definition nair_id : ObjectId := "65b00000000000000000a001".
Definition payout1 : ObjectId := "65a00000000000000000c001".
Definition click1 : ObjectId := "65a00000000000000000d001".

Definition connect : Event := Startup (ambient root_id 1000%Z).

Definition asha_registers : Event :=
  Incoming (ambient asha_id 2000%Z) "asha"
    (POST_register (Some "Asha Rao") (Some "asha@example.com") (Some "pw")).

Definition asha_requests_50 : Event :=
  Incoming (ambient payout1 3000%Z) "asha" (POST_payout_request (Some "50")).

Definition root_logs_in : Event :=
  Incoming (ambient "" 4000%Z) "root"
    (POST_admin_login (Some "root@example.com") (Some "s3cret")).

Definition root_approves : Event :=
  Incoming (ambient "" 5000%Z) "root" (POST_admin_payouts_approve payout1).

Definition root_rejects : Event :=
  Incoming (ambient "" 6000%Z) "root" (POST_admin_payouts_reject payout1).

(** the portal once the admin exists and Asha has registered *)
Definition opened : Server := run (H := plain) boot [connect; asha_registers].

(** the portal with Asha's request pending and the admin logged in *)
Definition with_request : Server :=
  run (H := plain) opened [asha_requests_50; root_logs_in].

(** a name with a tab between its two words *)
Definition mary_ann : string := "Mary" ++ String "009" "Ann".

(** the two accounts of [opened] *)
Definition root : User :=
  mkUser root_id "Super Admin" "root@example.com" "s3cret$salt" "admin" admin 1000 1000.
Definition asha : User :=
  mkUser asha_id "Asha Rao" "asha@example.com" "pw$salt" "ashaa001100" affiliate 2000 2000.

(** the request of [with_request], once approved at time 5000 *)
Definition approved_request : PayoutRequest :=
  mkPayoutRequest payout1 (Some asha_id) (JS.Finite 50) approved 3000 (Some 5000%Z).

(** the database connects again under the changed configuration *)
Definition reconnect : Ambient :=
  mkAmbient env1 "65c000000000000000000001" "salt" zero 9000 (fun t => t) (fun t => t).

(** a browser without a session that visits [opened] *)
Definition visitor : World := enter opened "visitor".

(** a browser whose session names an account that is not in the database *)
Definition stale : World :=
  mkWorld [] [] [] {[ "userId" := Str "65a00000000000000000dead" ]}.

(** somebody follows Asha's referral link *)
Definition asha_link_clicked : Event :=
  Incoming (ambient click1 3500%Z) "visitor"
    (GET_r "ashaa001100" None (Some "203.0.113.7") (Some "curl")).

(** the events so far, in order *)
Definition history : list Event :=
  [connect; asha_registers; asha_requests_50; root_logs_in; asha_link_clicked].

(** the portal after [history] *)
Definition clicked : Server := run (H := plain) boot history.

(** [opened] after a registration that stopped between its two writes *)
Definition half_done : World :=
  fst (post_register (H := plain) (ambient nair_id 7000%Z)
         (Some "Asha Nair") (Some "nair@example.com") (Some "pw2") visitor).

End Demo.

(** *** Routes by guard and by what they may write *)

(** the session slot that the guard of a route tests, if the route has one *)
Definition guarded_by (req : Request) : option string :=
  match req with
  | GET_dashboard | POST_payout_request _ => Some "userId"
  | GET_admin | GET_admin_affiliates | GET_admin_clicks | GET_admin_payouts
  | POST_admin_payouts_approve _ | POST_admin_payouts_reject _ => Some "adminId"
  | _ => None
  end.

(** where a guard sends a request it does not admit *)
Definition login_page (slot_name : string) : string :=
  if String.eqb slot_name "userId" then "/login" else "/admin/login".

Definition is_register (req : Request) : bool :=
  match req with POST_register _ _ _ => true | _ => false end.

Definition is_click (req : Request) : bool :=
  match req with GET_r _ _ _ _ => true | _ => false end.

Definition is_payout_write (req : Request) : bool :=
  match req with
  | POST_payout_request _ | POST_admin_payouts_approve _ | POST_admin_payouts_reject _ => true
  | _ => false
  end.

Definition is_session_write (req : Request) : bool :=
  match req with
  | POST_register _ _ _ | POST_login _ _ | GET_logout
  | POST_admin_login _ _ | GET_admin_logout => true
  | _ => false
  end.

Definition same_users (w w' : World) : Prop := users w' = users w.
Definition same_clicks (w w' : World) : Prop := clicks w' = clicks w.
Definition same_payouts (w w' : World) : Prop := payouts w' = payouts w.
Definition same_session (w w' : World) : Prop := session w' = session w.

(** *** Invariants of the collections *)

(** A payout request as the portal stores it: pending exactly while it has
    no processing date, with an amount above zero and an affiliate. *)
Definition payout_ok (p : PayoutRequest) : Prop :=
  (payout_status p = pending <-> payout_processedAt p = None)
  /\ above_zero (payout_amount p)
  /\ JS.truthy (payout_affiliate p) = true.

Definition world_keeps_payouts_ok (w w' : World) : Prop :=
  Forall payout_ok (payouts w) -> Forall payout_ok (payouts w').

(** [ps'] has every request of [ps] at its place with the fields that are
    written once: id, affiliate, amount and creation date. *)
Definition payouts_keep (ps ps' : list PayoutRequest) : Prop :=
  forall (i : nat) (p : PayoutRequest), ps !! i = Some p ->
    exists p', ps' !! i = Some p'
               /\ payout_id p' = payout_id p
               /\ payout_affiliate p' = payout_affiliate p
               /\ payout_amount p' = payout_amount p
               /\ payout_createdAt p' = payout_createdAt p.

Definition world_payouts_keep (w w' : World) : Prop :=
  payouts_keep (payouts w) (payouts w').

(** No two accounts have the same referral code. *)
Definition codes_unique (us : list User) : Prop := NoDup (List.map user_referralCode us).

Definition world_keeps_codes_unique (w w' : World) : Prop :=
  codes_unique (users w) -> codes_unique (users w').

(** The clicks of [w] are the first clicks of [w'], unchanged. *)
Definition clicks_extend (w w' : World) : Prop :=
  exists new, clicks w' = (clicks w ++ new)%list.

(** *** Listings *)

(** newest first: no element is newer than one that stands before it *)
Definition newest_first {A : Type} (key : A -> Z) (l : list A) : Prop :=
  StronglySorted (fun x y => (key y <= key x)%Z) l.

(** *** Histories with fresh ids *)

Definition ambient_of (e : Event) : Ambient :=
  match e with
  | Startup a => a
  | Incoming a _ _ => a
  end.

(** the id generated for the event is the id of no stored account *)
Definition fresh_id (us : list User) (a : Ambient) : Prop :=
  forall u, In u us -> user_id u <> objectId a.

Section Histories.

Context `{Bcrypt}.

(** every event of the history comes with a fresh id, as ObjectIds do *)
Fixpoint fresh_history (sv : Server) (es : list Event) : Prop :=
  match es with
  | [] => True
  | e :: r => fresh_id (db_users sv) (ambient_of e) /\ fresh_history (step sv e) r
  end.

End Histories.

(** the ids in the two slots of a session are ids of accounts of the role *)
Definition session_valid (us : list User) (s : gmap string SVal) : Prop :=
  (forall id, s !! "userId" = Some (Str id) ->
     exists u, In u us /\ user_id u = id /\ user_role u = affiliate)
  /\ (forall id, s !! "adminId" = Some (Str id) ->
        exists u, In u us /\ user_id u = id /\ user_role u = admin).

(** every admin account carries the referral code "admin" *)
Definition admins_coded (us : list User) : Prop :=
  forall u, In u us -> user_role u = admin -> user_referralCode u = "admin".

(** what a fresh history keeps true of the server *)
Definition server_ok (sv : Server) : Prop :=
  admins_coded (db_users sv)
  /\ forall sid s, sessions sv !! sid = Some s -> session_valid (db_users sv) s.




(** *** Records and their accounts *)

(** No two accounts have the same id. *)
Definition ids_unique (us : list User) : Prop := NoDup (List.map user_id us).

(** [id] is the id of an account, and the account found under it is an
    affiliate *)
Definition affiliate_account (us : list User) (id : ObjectId) : Prop :=
  exists u, List.find (fun x => String.eqb (user_id x) id) us = Some u
            /\ user_role u = affiliate.

(** every click and every payout request belongs to an affiliate account *)
Definition references_ok (us : list User) (cs : list Click) (ps : list PayoutRequest) : Prop :=
  Forall (fun c => affiliate_account us (click_affiliate c)) cs
  /\ Forall (fun p => exists id, payout_affiliate p = Some id /\ affiliate_account us id) ps.

(** *** Decimal digit strings *)

Definition is_digit (d : Z) : Prop := (0 <= d <= 9)%Z.

(** the characters of a list of digits *)
Definition digit_chars (ds : list Z) : list ascii := List.map JS.digit_char ds.

(** their code points *)
Definition digit_points (ds : list Z) : list Z := List.map (fun d => (48 + d)%Z) ds.

(** the number a list of decimal digits denotes, most significant first *)
Definition digits_value (ds : list Z) (acc : Z) : Z :=
  fold_left (fun v d => (v * 10 + d)%Z) ds acc.

(** the digits [JS.decimal_digits] produces *)
Fixpoint digits_of (fuel : nat) (n : Z) : list Z :=
  match fuel with
  | O => [(n mod 10)%Z]
  | S f => if (n <? 10)%Z then [(n mod 10)%Z]
           else (digits_of f (n / 10)%Z ++ [(n mod 10)%Z])%list
  end.

(** ** Properties *)

Ltac run_handler :=
  unfold mbind, M_bind, mret, M_ret, get, put, throw, try_catch in *; cbn in *.

Lemma truthy_blank (v : option string) : JS.truthy v = false <-> blank v.
Proof.
  unfold blank. destruct v as [[|c s]|]; cbn; split; intros; try tauto; try discriminate.
  - destruct H as [H|H]; discriminate.
Qed.

Section Guards.

(** C8. Logout is slot-local: [GET /logout] assigns [null] to the
    [userId] slot of the session and nothing else (the [adminId] slot, every
    other key of the session and the three collections are as before);
    [GET /admin/logout] does the same with [adminId], leaving [userId]. *)
Theorem logout_clears_only_its_slot (w : World) :
  (get_logout w = (with_session w (<["userId" := Null]> (session w)), inr (Redirect "/login"))
   /\ slot (fst (get_logout w)) "userId" = None
   /\ slot (fst (get_logout w)) "adminId" = slot w "adminId"
   /\ delete "userId" (session (fst (get_logout w))) = delete "userId" (session w)
   /\ users (fst (get_logout w)) = users w
   /\ clicks (fst (get_logout w)) = clicks w
   /\ payouts (fst (get_logout w)) = payouts w)
  /\
  (get_admin_logout w
     = (with_session w (<["adminId" := Null]> (session w)), inr (Redirect "/admin/login"))
   /\ slot (fst (get_admin_logout w)) "adminId" = None
   /\ slot (fst (get_admin_logout w)) "userId" = slot w "userId"
   /\ delete "adminId" (session (fst (get_admin_logout w))) = delete "adminId" (session w)
   /\ users (fst (get_admin_logout w)) = users w
   /\ clicks (fst (get_admin_logout w)) = clicks w
   /\ payouts (fst (get_admin_logout w)) = payouts w).
Proof.
  split.
  - unfold get_logout, session_set, slot. run_handler.
    rewrite lookup_insert_eq, lookup_insert_ne by discriminate.
    rewrite delete_insert_eq. auto 10.
  - unfold get_admin_logout, session_set, slot. run_handler.
    rewrite lookup_insert_eq, lookup_insert_ne by discriminate.
    rewrite delete_insert_eq. auto 10.
Qed.

Lemma requireAffiliate_cases (next : M Response) (w : World) :
  requireAffiliate next w
    = if JS.truthy (slot w "userId") then next w else (w, inr (Redirect "/login")).
Proof. unfold requireAffiliate. run_handler. destruct (JS.truthy _); reflexivity. Qed.

Lemma requireAdmin_cases (next : M Response) (w : World) :
  requireAdmin next w
    = if JS.truthy (slot w "adminId") then next w else (w, inr (Redirect "/admin/login")).
Proof. unfold requireAdmin. run_handler. destruct (JS.truthy _); reflexivity. Qed.

(** C10. The route guards look at the session slot only.
    [requireAffiliate] admits a request exactly when [session.userId] is set
    (truthy) and answers with a redirect to /login otherwise; [requireAdmin]
    does the same with [session.adminId] and /admin/login.  When the id in
    the slot resolves to no account, [loadSessionData] leaves the current
    user [null] and the guard admits the request all the same. *)
Theorem guards_test_slot_presence (w : World) :
  (admits requireAffiliate w <-> JS.truthy (slot w "userId") = true)
  /\ (JS.truthy (slot w "userId") = false ->
      forall next, requireAffiliate next w = (w, inr (Redirect "/login")))
  /\ (admits requireAdmin w <-> JS.truthy (slot w "adminId") = true)
  /\ (JS.truthy (slot w "adminId") = false ->
      forall next, requireAdmin next w = (w, inr (Redirect "/admin/login")))
  /\ (forall id, slot w "userId" = Some id -> id <> "" ->
      List.find (fun u => String.eqb (user_id u) id) (users w) = None ->
      (exists au, loadSessionData w = (w, inr (mkResLocals None au)))
      /\ admits requireAffiliate w)
  /\ (forall id, slot w "adminId" = Some id -> id <> "" ->
      List.find (fun u => String.eqb (user_id u) id) (users w) = None ->
      (exists cu, loadSessionData w = (w, inr (mkResLocals cu None)))
      /\ admits requireAdmin w).
Proof.
  assert (Hprobe : forall (w0 : World) (r : Response),
             (w0, @inr Exn Response (Send 200 "")) = (w0, inr r) -> r = Send 200 "")
    by (intros ? ? E; inversion E; reflexivity).
  repeat split.
  - intros Ha. specialize (Ha (mret (Send 200 ""))).
    rewrite requireAffiliate_cases in Ha.
    destruct (JS.truthy (slot w "userId")); [reflexivity|].
    unfold mret, M_ret in Ha. symmetry in Ha. apply Hprobe in Ha. discriminate.
  - intros Ht next. rewrite requireAffiliate_cases, Ht. reflexivity.
  - intros Ht next. rewrite requireAffiliate_cases, Ht. reflexivity.
  - intros Ha. specialize (Ha (mret (Send 200 ""))).
    rewrite requireAdmin_cases in Ha.
    destruct (JS.truthy (slot w "adminId")); [reflexivity|].
    unfold mret, M_ret in Ha. symmetry in Ha. apply Hprobe in Ha. discriminate.
  - intros Ht next. rewrite requireAdmin_cases, Ht. reflexivity.
  - intros Ht next. rewrite requireAdmin_cases, Ht. reflexivity.
  - unfold loadSessionData, User_findById, User_findOne. run_handler.
    rewrite H. destruct id as [|c s]; [congruence|]. cbn.
    destruct (JS.truthy (slot w "adminId")); eexists; rewrite H1; reflexivity.
  - intros next. rewrite requireAffiliate_cases, H.
    destruct id; [congruence | reflexivity].
  - unfold loadSessionData, User_findById, User_findOne. run_handler.
    rewrite H. destruct id as [|c s]; [congruence|]. cbn.
    destruct (JS.truthy (slot w "userId")); cbn; eexists; rewrite ?H1; reflexivity.
  - intros next. rewrite requireAdmin_cases, H.
    destruct id; [congruence | reflexivity].
Qed.

End Guards.

Section Referral.

Lemma is_role_true (r : Role) (u : User) : is_role r u = true <-> user_role u = r.
Proof. unfold is_role. apply bool_decide_eq_true. Qed.

Lemma count_snoc {A : Type} (p : A -> bool) (l : list A) (x : A) :
  length (List.filter p (l ++ [x]))
    = (length (List.filter p l) + (if p x then 1 else 0))%nat.
Proof.
  rewrite List.filter_app, length_app. cbn. destruct (p x); reflexivity.
Qed.

(** C2. [GET /r/:code].  When no affiliate-role account has the referral
    code, the answer is 404 and the world (so the collection of clicks) is
    unchanged.  When one has it, exactly one click referencing that account
    is appended, the account's name is sent back, the account's total click
    count grows by one, and so does its count since any start of day that is
    not later than the click (it is unchanged for a later one). *)
Theorem resolveAndRecordClick_spec (a : Ambient) (code : string)
    (x_forwarded_for remoteAddress user_agent : option string) (w : World) :
  ((forall u, In u (users w) -> user_role u = affiliate -> user_referralCode u <> code) ->
   get_r a code x_forwarded_for remoteAddress user_agent w
     = (w, inr (Send 404 "Invalid referral link")))
  /\
  ((exists u, In u (users w) /\ user_role u = affiliate /\ user_referralCode u = code) ->
   exists u, In u (users w) /\ user_role u = affiliate /\ user_referralCode u = code /\
     let c := mkClick (objectId a) (user_id u)
                (JS.or_else x_forwarded_for remoteAddress) user_agent (now a) in
     let w' := with_clicks w (clicks w ++ [c]) in
     get_r a code x_forwarded_for remoteAddress user_agent w
       = (w', inr (Send 200 ("You clicked referral of " ++ user_name u ++ ".")))
     /\ totalClicks w' (user_id u) = S (totalClicks w (user_id u))
     /\ (forall todayStart, (todayStart <= now a)%Z ->
         todayClicks w' (user_id u) todayStart = S (todayClicks w (user_id u) todayStart))
     /\ (forall todayStart, (now a < todayStart)%Z ->
         todayClicks w' (user_id u) todayStart = todayClicks w (user_id u) todayStart)).
Proof.
  split.
  - intros Hmiss. unfold get_r, User_findOne. run_handler.
    destruct (List.find _ (users w)) as [u|] eqn:E; [|reflexivity].
    apply find_some in E as [Hin Hp]. apply andb_true_iff in Hp as [Hc Hr].
    apply String.eqb_eq in Hc. apply is_role_true in Hr.
    exfalso. exact (Hmiss u Hin Hr Hc).
  - intros (u0 & Hin0 & Hr0 & Hc0). unfold get_r, User_findOne, Click_create. run_handler.
    destruct (List.find _ (users w)) as [u|] eqn:E.
    + apply find_some in E as [Hin Hp]. apply andb_true_iff in Hp as [Hc Hr].
      apply String.eqb_eq in Hc. apply is_role_true in Hr.
      exists u. repeat split; try assumption.
      * unfold totalClicks, with_clicks; cbn. rewrite count_snoc.
        unfold totalClicks_query at 2; cbn. rewrite String.eqb_refl. lia.
      * intros t Ht. unfold todayClicks, with_clicks; cbn. rewrite count_snoc.
        unfold todayClicks_query at 2; cbn. rewrite String.eqb_refl.
        apply Z.leb_le in Ht. rewrite Ht. cbn. lia.
      * intros t Ht. unfold todayClicks, with_clicks; cbn. rewrite count_snoc.
        unfold todayClicks_query at 2; cbn. rewrite String.eqb_refl.
        apply Z.leb_gt in Ht. rewrite Ht. cbn. lia.
    + exfalso. pose proof (find_none _ _ E u0 Hin0) as Hp. cbn in Hp.
      apply andb_false_iff in Hp as [Hp|Hp].
      * apply String.eqb_neq in Hp. congruence.
      * apply not_true_iff_false in Hp. apply Hp, is_role_true, Hr0.
Qed.


Lemma above_zero_accepted (x : JS.Num) :
  above_zero x -> JS.isNaN_Num x = false /\ JS.le0 x = false.
Proof.
  destruct x as [|n|q]; cbn; intros Hp; [tauto | subst; auto |].
  split; [reflexivity|]. apply not_true_iff_false. rewrite Qle_bool_iff.
  apply Qlt_not_le, Hp.
Qed.

(** C6. [POST /payout-request] for a browser whose [userId] slot is set.
    An amount that is missing, that is not a number (its Number is NaN) or
    that is [<= 0] creates nothing: the world is unchanged and the answer is
    the plain redirect to /dashboard.  An amount whose Number is above zero
    redirects to /dashboard and leaves a world whose payout requests are
    those of before followed by exactly one new request, with that Number as
    amount, the affiliate of the session, status pending and no processing
    date, and whose accounts, clicks and session are those of before.
    Every amount is of one of the two kinds. *)
Theorem requestPayout_spec (a : Ambient) (amount : option string) (w : World) :
  JS.truthy (slot w "userId") = true ->
  ((amount = None \/ JS.StringToNumber (str amount) = JS.NaN
    \/ JS.le0 (JS.StringToNumber (str amount)) = true) ->
   post_payout_request a amount w = (w, inr (Redirect "/dashboard")))
  /\
  (forall s, amount = Some s -> above_zero (JS.StringToNumber s) ->
   post_payout_request a amount w
     = (mkWorld (users w) (clicks w)
          (payouts w ++ [mkPayoutRequest (objectId a) (slot w "userId")
                           (JS.StringToNumber s) pending (now a) None])
          (session w),
        inr (Redirect "/dashboard")))
  /\
  ((amount = None \/ JS.StringToNumber (str amount) = JS.NaN
    \/ JS.le0 (JS.StringToNumber (str amount)) = true)
   \/ exists s, amount = Some s /\ above_zero (JS.StringToNumber s)).
Proof.
  intros Hs. unfold post_payout_request. rewrite requireAffiliate_cases, Hs.
  repeat split.
  - intros [Hn | [Hn | Hn]].
    + subst. reflexivity.
    + rewrite Hn. cbn. rewrite orb_true_r. reflexivity.
    + rewrite Hn. rewrite orb_true_r. reflexivity.
  - intros s -> Hp. destruct (above_zero_accepted _ Hp) as [Hn Hl].
    change (str (Some s)) with s. rewrite Hn, Hl.
    destruct s as [|c s].
    + exfalso. revert Hl. vm_compute. discriminate.
    + unfold PayoutRequest_create. run_handler. reflexivity.
  - destruct amount as [s|]; [|auto]. change (str (Some s)) with s.
    destruct (JS.StringToNumber s) as [|n|q] eqn:E; [auto | destruct n | ].
    + left. right. right. reflexivity.
    + right. exists s. rewrite E. split; reflexivity.
    + destruct (Qle_bool q 0) eqn:Hq.
      * left. right. right. cbn. exact Hq.
      * right. exists s. rewrite E. split; [reflexivity|]. cbn.
        apply Qnot_le_lt. rewrite <- Qle_bool_iff, Hq. discriminate.
Qed.

End Referral.

(** *** Queries over lists *)

Lemma find_none_intro {A : Type} (p : A -> bool) (l : list A) :
  (forall x, In x l -> p x = false) -> List.find p l = None.
Proof.
  induction l as [|y l IH]; cbn; intros Hall; [reflexivity|].
  rewrite (Hall y) by auto. apply IH. auto.
Qed.

Lemma find_is_some {A : Type} (p : A -> bool) (l : list A) (x : A) :
  In x l -> p x = true -> exists y, List.find p l = Some y.
Proof.
  intros Hin Hp. destruct (List.find p l) as [y|] eqn:E; [eauto|].
  rewrite (find_none _ _ E x Hin) in Hp. discriminate.
Qed.

Lemma find_snoc {A : Type} (p : A -> bool) (l : list A) (x : A) :
  List.find p (l ++ [x])
    = match List.find p l with
      | Some y => Some y
      | None => if p x then Some x else None
      end.
Proof.
  induction l as [|y l IH]; cbn; [reflexivity|].
  destruct (p y); [reflexivity | exact IH].
Qed.

Lemma existsb_false_intro {A : Type} (p : A -> bool) (l : list A) :
  (forall x, In x l -> p x = false) -> existsb p l = false.
Proof.
  intros Hall. apply not_true_iff_false. intros E.
  apply existsb_exists in E as (x & Hin & Hp). rewrite (Hall x Hin) in Hp. discriminate.
Qed.

Lemma violated_index_none (doc : User) (others : list User) :
  violated_index doc others = None <->
  (forall u, In u others ->
     user_email u <> user_email doc /\ user_referralCode u <> user_referralCode doc).
Proof.
  unfold violated_index. split.
  - destruct (existsb _ others) eqn:E1; [discriminate|].
    destruct (existsb _ others) eqn:E2 in |- *; [discriminate|].
    intros _ u Hin. split; intros Heq.
    + apply not_true_iff_false in E1. apply E1, existsb_exists.
      exists u. split; [assumption|]. apply String.eqb_eq, Heq.
    + apply not_true_iff_false in E2. apply E2, existsb_exists.
      exists u. split; [assumption|]. apply String.eqb_eq, Heq.
  - intros Hall.
    rewrite !existsb_false_intro; [reflexivity | |];
      intros u Hin; apply String.eqb_neq; apply (Hall u Hin).
Qed.

Lemma violated_index_some (doc : User) (others : list User) (u : User) :
  In u others ->
  user_email u = user_email doc \/ user_referralCode u = user_referralCode doc ->
  exists ix, violated_index doc others = Some ix.
Proof.
  intros Hin Hor. destruct (violated_index doc others) as [ix|] eqn:E; [eauto|].
  destruct (proj1 (violated_index_none _ _) E u Hin). tauto.
Qed.

Lemma violated_index_ext (d d' : User) (others : list User) :
  user_email d = user_email d' -> user_referralCode d = user_referralCode d' ->
  violated_index d others = violated_index d' others.
Proof. intros He Hc. unfold violated_index. rewrite He, Hc. reflexivity. Qed.

Lemma without_id_snoc (l : list User) (d : User) :
  without_id (user_id d) (l ++ [d])
    = if existsb (fun u => String.eqb (user_id u) (user_id d)) l
      then (without_id (user_id d) l ++ [d])%list else l.
Proof.
  induction l as [|u l IH]; cbn.
  - rewrite String.eqb_refl. reflexivity.
  - destruct (String.eqb (user_id u) (user_id d)); cbn; [reflexivity|].
    rewrite IH. destruct (existsb _ l); reflexivity.
Qed.

Section Accounts.

Context `{Bcrypt}.

(** C3.  [POST /register] checks the fields first and the email next.  With
    a blank field (missing or empty) it answers with the validation message
    and leaves the world as it is: nothing is written.  With three
    non-blank fields and an email that some account already has, of either
    role, it answers with the duplicate-email message and leaves the world
    as it is: the set of accounts is unchanged. *)
Theorem register_rejects_blank_then_duplicate (a : Ambient)
    (name email password : option string) (w : World) :
  ((blank name \/ blank email \/ blank password) ->
   post_register a name email password w
     = (w, inr (Render "register" (LError (Some "Sab field bhar do.")))))
  /\
  (~ blank name -> ~ blank email -> ~ blank password ->
   (exists u, In u (users w) /\ user_email u = str email) ->
   post_register a name email password w
     = (w, inr (Render "register" (LError (Some "Ye email already registered hai."))))).
Proof.
  split.
  - intros Hb. unfold post_register.
    assert (negb (JS.truthy name) || negb (JS.truthy email) || negb (JS.truthy password) = true)
      as ->; [|reflexivity].
    rewrite !orb_true_iff, !negb_true_iff, !truthy_blank. tauto.
  - intros Hn He Hp (u & Hin & Hu). unfold post_register.
    rewrite <- truthy_blank in Hn, He, Hp.
    apply not_false_iff_true in Hn, He, Hp. rewrite Hn, He, Hp. cbn [negb orb].
    unfold User_findOne. run_handler.
    destruct (find_is_some (fun u0 => String.eqb (user_email u0) (str email)) _ u Hin)
      as [y ->]; [apply String.eqb_eq, Hu | reflexivity].
Qed.

(** C9. Registration is not atomic.  When the three fields are filled, no
    account has the email or the placeholder code "temp" (so the first write
    succeeds), and some account already has the referral code generated for
    the new account (so the second write is refused by the unique index),
    the handler answers with the generic error, the session is as before,
    and the account written first stays in the collection with referral
    code "temp". *)
Theorem register_failure_keeps_placeholder (a : Ambient)
    (name email password : option string) (w : World) :
  JS.truthy name = true -> JS.truthy email = true -> JS.truthy password = true ->
  (forall u, In u (users w) -> user_email u <> str email) ->
  (forall u, In u (users w) -> user_referralCode u <> "temp") ->
  (exists u, In u (users w) /\
     user_referralCode u = generateReferralCode (Some (str name)) (objectId a) (random a)) ->
  let placeholder :=
    mkUser (objectId a) (str name) (str email) (bcrypt_hash (str password) 10 (salt a))
      "temp" affiliate (now a) (now a) in
  post_register a name email password w
    = (with_users w (users w ++ [placeholder]),
       inr (Render "register" (LError (Some "Error aaya."))))
  /\ session (fst (post_register a name email password w)) = session w
  /\ In placeholder (users (fst (post_register a name email password w))).
Proof.
  intros Hn He Hp Hemail Htemp (u & Hin & Hcode) placeholder.
  assert (E : post_register a name email password w
              = (with_users w (users w ++ [placeholder]),
                 inr (Render "register" (LError (Some "Error aaya."))))).
  { unfold post_register. rewrite Hn, He, Hp. cbn [negb orb].
    unfold User_findOne, User_create, User_save. run_handler.
    rewrite find_none_intro
      by (intros x Hx; apply String.eqb_neq, Hemail, Hx).
    cbn.
    rewrite (proj2 (violated_index_none _ _))
      by (intros x Hx; cbn; split; [apply Hemail | apply Htemp]; exact Hx).
    cbn. rewrite existsb_app. cbn. rewrite String.eqb_refl, orb_true_r. cbn.
    fold placeholder.
    change (without_id (objectId a) (users w ++ [placeholder]))
      with (without_id (user_id placeholder) (users w ++ [placeholder])).
    rewrite without_id_snoc.
    match goal with
    | |- context [violated_index ?d ?l] =>
        assert (Hv : exists ix, violated_index d l = Some ix)
    end.
    { destruct (existsb _ (users w)).
      - apply (violated_index_some _ _ placeholder);
          [apply in_or_app; right; left; reflexivity | left; reflexivity].
      - apply (violated_index_some _ _ u); [exact Hin | right; exact Hcode]. }
    destruct Hv as [ix ->]. reflexivity. }
  rewrite E. cbn. repeat split. apply in_or_app. right. left. reflexivity.
Qed.

End Accounts.

Section Bootstrap.

Context `{Bcrypt}.

Lemma ensureAdminUser_configured (a : Ambient) (w : World) :
  JS.truthy (ADMIN_EMAIL (env a)) = true -> JS.truthy (ADMIN_PASSWORD (env a)) = true ->
  ensureAdminUser a w
    = match List.find (admin_with_email (str (ADMIN_EMAIL (env a)))) (users w) with
      | Some _ => (w, inr ("Admin already exists: " ++ str (ADMIN_EMAIL (env a))))
      | None =>
          let doc := mkUser (objectId a) "Super Admin" (str (ADMIN_EMAIL (env a)))
                       (bcrypt_hash (str (ADMIN_PASSWORD (env a))) 10 (salt a))
                       "admin" admin (now a) (now a) in
          match violated_index doc (users w) with
          | Some ix => (w, inl (DuplicateKey ix))
          | None => (with_users w (users w ++ [doc]),
                     inr ("Admin created: " ++ str (ADMIN_EMAIL (env a))))
          end
      end.
Proof.
  intros He Hp. unfold ensureAdminUser, User_findOne, User_create. rewrite He, Hp.
  cbn [negb orb]. run_handler. fold (admin_with_email (str (ADMIN_EMAIL (env a)))).
  destruct (List.find _ (users w)); [reflexivity|].
  destruct (violated_index _ (users w)); reflexivity.
Qed.

(** C7 (as the code has it).  [ensureAdminUser]: with a configuration value
    missing it only writes the diagnostic; with an admin account of the
    configured email present it changes nothing; with none, and no account
    holding the email or the referral code "admin", it appends exactly one
    account, of role admin and referral code "admin"; with none, but an
    account holding the email or the code "admin", the write is refused by
    the unique index and the collection is unchanged.  In every case a
    second run under the same configuration leaves the world of the first
    run as it is. *)
Theorem bootstrapAdmin_spec (a a' : Ambient) (w : World) :
  let email := ADMIN_EMAIL (env a) in
  let password := ADMIN_PASSWORD (env a) in
  let no_admin := forall u, In u (users w) ->
                    ~ (user_email u = str email /\ user_role u = admin) in
  ((blank email \/ blank password) ->
   ensureAdminUser a w = (w, inr "Set ADMIN_EMAIL and ADMIN_PASSWORD in env."))
  /\
  (~ blank email -> ~ blank password ->
   (exists u, In u (users w) /\ user_email u = str email /\ user_role u = admin) ->
   ensureAdminUser a w = (w, inr ("Admin already exists: " ++ str email)))
  /\
  (~ blank email -> ~ blank password -> no_admin ->
   (forall u, In u (users w) ->
      user_email u <> str email /\ user_referralCode u <> "admin") ->
   ensureAdminUser a w
     = (with_users w
          (users w ++ [mkUser (objectId a) "Super Admin" (str email)
                         (bcrypt_hash (str password) 10 (salt a))
                         "admin" admin (now a) (now a)]),
        inr ("Admin created: " ++ str email)))
  /\
  (~ blank email -> ~ blank password -> no_admin ->
   (exists u, In u (users w) /\
      (user_email u = str email \/ user_referralCode u = "admin")) ->
   exists ix, ensureAdminUser a w = (w, inl (DuplicateKey ix)))
  /\
  (env a' = env a ->
   fst (ensureAdminUser a' (fst (ensureAdminUser a w))) = fst (ensureAdminUser a w)).
Proof.
  intros email password no_admin.
  assert (Hfind_none : no_admin ->
            List.find (admin_with_email (str email)) (users w) = None).
  { intros Hno. apply find_none_intro. intros u Hin. unfold admin_with_email.
    apply not_true_iff_false. rewrite andb_true_iff, String.eqb_eq, is_role_true.
    apply Hno, Hin. }
  repeat split.
  - intros Hb. unfold ensureAdminUser.
    assert (negb (JS.truthy email) || negb (JS.truthy password) = true) as Hor.
    { rewrite orb_true_iff, !negb_true_iff, !truthy_blank. exact Hb. }
    fold email password. rewrite Hor. reflexivity.
  - intros He Hp (u & Hin & Hu & Hr).
    rewrite <- truthy_blank in He, Hp. apply not_false_iff_true in He, Hp.
    rewrite ensureAdminUser_configured by assumption. fold email.
    destruct (find_is_some (admin_with_email (str email)) _ u Hin) as [y ->];
      [|reflexivity].
    unfold admin_with_email. rewrite andb_true_iff, String.eqb_eq, is_role_true. auto.
  - intros He Hp Hno Hfree.
    rewrite <- truthy_blank in He, Hp. apply not_false_iff_true in He, Hp.
    rewrite ensureAdminUser_configured by assumption. fold email password.
    rewrite (Hfind_none Hno). cbn zeta.
    rewrite (proj2 (violated_index_none _ _)) by exact Hfree. reflexivity.
  - intros He Hp Hno (u & Hin & Hu).
    rewrite <- truthy_blank in He, Hp. apply not_false_iff_true in He, Hp.
    rewrite ensureAdminUser_configured by assumption. fold email password.
    rewrite (Hfind_none Hno). cbn zeta.
    destruct (violated_index_some
                (mkUser (objectId a) "Super Admin" (str email)
                   (bcrypt_hash (str password) 10 (salt a)) "admin" admin (now a) (now a))
                (users w) u Hin Hu) as [ix ->].
    eauto.
  - intros Henv.
    destruct (JS.truthy email && JS.truthy password) eqn:Hcfg.
    + apply andb_true_iff in Hcfg as [He Hp].
      rewrite (ensureAdminUser_configured a w) by assumption.
      fold email password.
      destruct (List.find _ (users w)) as [u|] eqn:Ef.
      * cbn [fst]. rewrite ensureAdminUser_configured by (rewrite Henv; assumption).
        rewrite Henv. fold email. rewrite Ef. reflexivity.
      * cbn zeta. destruct (violated_index _ (users w)) as [ix|] eqn:Ev.
        -- cbn [fst]. rewrite ensureAdminUser_configured by (rewrite Henv; assumption).
           rewrite Henv. fold email password. rewrite Ef. cbn zeta.
           erewrite violated_index_ext; [rewrite Ev; reflexivity | reflexivity ..].
        -- cbn [fst]. rewrite ensureAdminUser_configured by (rewrite Henv; assumption).
           rewrite Henv. fold email. cbn [users with_users].
           rewrite find_snoc, Ef. unfold admin_with_email at 1. cbn.
           rewrite String.eqb_refl. reflexivity.
    + assert (Hor : negb (JS.truthy email) || negb (JS.truthy password) = true).
      { apply andb_false_iff in Hcfg as [-> | ->]; cbn; auto using orb_true_r. }
      unfold ensureAdminUser. rewrite Henv. fold email password. rewrite !Hor.
      reflexivity.
Qed.

End Bootstrap.

(** *** Relating the world before and after a computation *)

Section Preserves.

Variable R : World -> World -> Prop.
Hypothesis R_refl : forall w, R w w.
Hypothesis R_trans : forall w1 w2 w3, R w1 w2 -> R w2 w3 -> R w1 w3.

Lemma preserves_ret {A : Type} (x : A) : preserves R (mret x).
Proof. intros w. apply R_refl. Qed.

Lemma preserves_throw {A : Type} (e : Exn) : preserves R (@throw A e).
Proof. intros w. apply R_refl. Qed.

Lemma preserves_get : preserves R get.
Proof. intros w. apply R_refl. Qed.

Lemma preserves_bind {A B : Type} (m : M A) (k : A -> M B) :
  preserves R m -> (forall x, preserves R (k x)) -> preserves R (m ≫= k).
Proof.
  intros Hm Hk w. unfold mbind, M_bind. specialize (Hm w).
  destruct (m w) as [w1 [e|x]]; cbn in *; [exact Hm|].
  eapply R_trans; [exact Hm | apply Hk].
Qed.

Lemma preserves_try_catch {A : Type} (body : M A) (handler : Exn -> M A) :
  preserves R body -> (forall e, preserves R (handler e)) ->
  preserves R (try_catch body handler).
Proof.
  intros Hm Hk w. unfold try_catch. specialize (Hm w).
  destruct (body w) as [w1 [e|x]]; cbn in *; [|exact Hm].
  eapply R_trans; [exact Hm | apply Hk].
Qed.

End Preserves.

Ltac preserve_tac prim :=
  repeat first
    [ prim
    | apply preserves_ret; assumption
    | apply preserves_throw; assumption
    | apply preserves_get; assumption
    | apply preserves_bind; try assumption;
      try match goal with |- forall _, preserves _ _ => intros ? end
    | apply preserves_try_catch; try assumption;
      try match goal with |- forall _, preserves _ _ => intros ? end
    | match goal with
      | |- preserves _ (if ?b then _ else _) => destruct b
      | |- preserves _ (match ?x with _ => _ end) => destruct x
      end
    | progress cbv zeta ].

Ltac unfold_routes :=
  unfold app, startup, ensureAdminUser, loadSessionData, get_root, get_register, post_register,
    get_login, post_login, get_logout, get_dashboard, post_payout_request, get_r,
    get_admin_login, post_admin_login, get_admin_logout, get_admin, get_admin_affiliates,
    get_admin_clicks, get_admin_payouts, post_admin_payouts_approve,
    post_admin_payouts_reject, requireAffiliate, requireAdmin,
    User_findById, User_findOne, User_find, User_countDocuments, Click_countDocuments,
    PayoutRequest_countDocuments.

(** *** Payout requests over time *)

Lemma payouts_evolve_refl (ps : list PayoutRequest) : payouts_evolve ps ps.
Proof. intros i p Hp. eauto. Qed.

Lemma payouts_evolve_trans (ps1 ps2 ps3 : list PayoutRequest) :
  payouts_evolve ps1 ps2 -> payouts_evolve ps2 ps3 -> payouts_evolve ps1 ps3.
Proof.
  intros H12 H23 i p Hp. destruct (H12 i p Hp) as (p2 & Hp2 & Hid2 & Hs2).
  destruct (H23 i p2 Hp2) as (p3 & Hp3 & Hid3 & Hs3).
  exists p3. repeat split; [assumption | congruence | auto].
Qed.

Lemma payouts_evolve_snoc (ps : list PayoutRequest) (p : PayoutRequest) :
  payouts_evolve ps (ps ++ [p]).
Proof.
  intros i q Hq. exists q. rewrite lookup_app_l by (eapply lookup_lt_Some; eauto). auto.
Qed.

Lemma payouts_evolve_update (id : ObjectId) (f : PayoutRequest -> PayoutRequest)
    (ps : list PayoutRequest) :
  (forall p, payout_id (f p) = payout_id p /\ payout_status (f p) <> pending) ->
  payouts_evolve ps (update_first id f ps).
Proof.
  intros Hf. induction ps as [|q ps IH]; intros i p Hp; [discriminate|].
  cbn. destruct (String.eqb (payout_id q) id).
  - destruct i as [|i]; cbn in *.
    + inversion Hp; subst. exists (f p). destruct (Hf p). repeat split; tauto.
    + eauto.
  - destruct i as [|i]; cbn in *; [eauto|]. apply IH, Hp.
Qed.

Ltac payout_prim :=
  first
    [ unfold preserves; intros ?; unfold world_payouts_evolve;
      first
        [ unfold User_create; run_handler;
          destruct (violated_index _ _); apply payouts_evolve_refl
        | unfold User_save; run_handler;
          destruct (existsb _ _); [destruct (violated_index _ _)|];
          apply payouts_evolve_refl
        | unfold session_set, Click_create; run_handler; apply payouts_evolve_refl
        | unfold PayoutRequest_create; run_handler; apply payouts_evolve_snoc
        | unfold PayoutRequest_findByIdAndUpdate; destruct (castObjectId _); run_handler;
          [ apply payouts_evolve_update; intros ?; cbn; split; [reflexivity | discriminate]
          | apply payouts_evolve_refl ] ] ].

Section Adjudication.

Context `{Bcrypt}.

Lemma app_payouts_evolve (a : Ambient) (req : Request) :
  preserves world_payouts_evolve (app a req).
Proof.
  assert (Hr : forall w, world_payouts_evolve w w)
    by (intros w; apply payouts_evolve_refl).
  assert (Ht : forall w1 w2 w3, world_payouts_evolve w1 w2 -> world_payouts_evolve w2 w3 ->
                                world_payouts_evolve w1 w3)
    by (intros w1 w2 w3; apply payouts_evolve_trans).
  destruct req; unfold_routes; preserve_tac payout_prim.
Qed.

End Adjudication.

Section Runs.

Context `{Bcrypt}.

Lemma startup_payouts_evolve (a : Ambient) :
  preserves world_payouts_evolve (startup a).
Proof.
  assert (Hr : forall w, world_payouts_evolve w w)
    by (intros w; apply payouts_evolve_refl).
  assert (Ht : forall w1 w2 w3, world_payouts_evolve w1 w2 -> world_payouts_evolve w2 w3 ->
                                world_payouts_evolve w1 w3)
    by (intros w1 w2 w3; apply payouts_evolve_trans).
  unfold_routes; preserve_tac payout_prim.
Qed.

Lemma step_payouts_evolve (sv : Server) (e : Event) :
  payouts_evolve (db_payouts sv) (db_payouts (step sv e)).
Proof.
  destruct e as [a | a sid req]; cbn.
  - apply (startup_payouts_evolve a (mkWorld _ _ _ _)).
  - apply (app_payouts_evolve a req (enter sv sid)).
Qed.

Lemma run_payouts_evolve (es : list Event) (sv : Server) :
  payouts_evolve (db_payouts sv) (db_payouts (run sv es)).
Proof.
  revert sv. induction es as [|e es IH]; intros sv; cbn.
  - apply payouts_evolve_refl.
  - eapply payouts_evolve_trans; [apply step_payouts_evolve | apply IH].
Qed.

Lemma update_first_length (oid : ObjectId) (f : PayoutRequest -> PayoutRequest)
    (ps : list PayoutRequest) :
  length (update_first oid f ps) = length ps.
Proof.
  induction ps as [|q ps IH]; cbn; [reflexivity|].
  destruct (String.eqb (payout_id q) oid); cbn; [reflexivity | rewrite IH; reflexivity].
Qed.

Lemma first_with_id_tail (q : PayoutRequest) (ps : list PayoutRequest) (oid : ObjectId)
    (i : nat) :
  payout_id q <> oid ->
  (first_with_id (q :: ps) oid (S i) <-> first_with_id ps oid i).
Proof.
  intros Hq. unfold first_with_id. split; intros [Hex Hbefore]; split.
  - exact Hex.
  - intros j x Hj Hx. apply (Hbefore (S j) x); [lia | exact Hx].
  - exact Hex.
  - intros [|j] x Hj Hx; cbn in Hx.
    + injection Hx as <-. exact Hq.
    + apply (Hbefore j x); [lia | exact Hx].
Qed.

Lemma update_first_lookup (oid : ObjectId) (f : PayoutRequest -> PayoutRequest)
    (ps : list PayoutRequest) (i : nat) (p : PayoutRequest) :
  ps !! i = Some p ->
  (first_with_id ps oid i -> update_first oid f ps !! i = Some (f p))
  /\ (~ first_with_id ps oid i -> update_first oid f ps !! i = Some p).
Proof.
  revert i. induction ps as [|q ps IH]; intros i Hp; [discriminate|].
  cbn [update_first]. destruct (String.eqb (payout_id q) oid) eqn:E.
  - apply String.eqb_eq in E. destruct i as [|i]; cbn in Hp |- *.
    + injection Hp as <-. split; [reflexivity|]. intros Hn. exfalso. apply Hn.
      split; [exists q; auto | intros j x Hj; lia].
    + split; [|intros _; exact Hp]. intros [_ Hbefore]. exfalso.
      exact (Hbefore 0%nat q ltac:(lia) eq_refl E).
  - apply String.eqb_neq in E. destruct i as [|i]; cbn in Hp |- *.
    + injection Hp as <-. split; [|reflexivity]. intros [(x & Hx & Hid) _].
      cbn in Hx. injection Hx as <-. contradiction.
    + rewrite (first_with_id_tail q ps oid i E). apply IH, Hp.
Qed.

Lemma adjudicates_update (route : Ambient -> string -> M Response) (decision : Status) :
  (forall a id, route a id
     = requireAdmin (PayoutRequest_findByIdAndUpdate id decision (now a);;
                     mret (Redirect "/admin/payouts"))) ->
  adjudicates route decision.
Proof.
  intros Hroute a id w Ha. rewrite Hroute, requireAdmin_cases, Ha. clear Hroute.
  unfold PayoutRequest_findByIdAndUpdate. split.
  - intros -> _. reflexivity.
  - intros oid ->. unfold mbind, M_bind, mret, M_ret, get, put. cbn.
    split; [reflexivity|]. split; [reflexivity|]. split; [reflexivity|].
    split; [reflexivity|]. split; [apply update_first_length|].
    intros i p Hp.
    exact (update_first_lookup oid (adjudicated decision (now a)) (payouts w) i p Hp).
Qed.

(** C1 (as the code has it).  A payout request stays in the collection at
    its place with its id, and over any sequence of start-ups and requests
    its status is never pending again once it has not been pending: pending
    is left for good.  Adjudication itself looks at no status: for an admin
    session and an id that casts to an ObjectId, approve writes approved and
    reject writes rejected, with the processing date, on the request of
    that id whatever its status was, and changes nothing else; an id that
    does not cast makes the route throw before anything is written. *)
Theorem payout_status_never_back_to_pending (sv : Server) (es : list Event) :
  (forall (i : nat) (p : PayoutRequest), db_payouts sv !! i = Some p ->
     exists p', db_payouts (run sv es) !! i = Some p'
                /\ payout_id p' = payout_id p
                /\ (payout_status p <> pending -> payout_status p' <> pending))
  /\ adjudicates post_admin_payouts_approve approved
  /\ adjudicates post_admin_payouts_reject rejected.
Proof.
  split; [|split].
  - intros i p Hp. destruct (run_payouts_evolve es sv i p Hp) as (p' & Hp' & Hid & Hs).
    exists p'. repeat split; auto.
  - apply adjudicates_update. reflexivity.
  - apply adjudicates_update. reflexivity.
Qed.

End Runs.

(** *** Emails are unique across accounts *)

Lemma NoDup_snoc_fresh {A : Type} (l : list A) (x : A) :
  NoDup l -> ~ In x l -> NoDup (l ++ [x]).
Proof.
  intros Hnd Hx. apply NoDup_app. repeat split; [exact Hnd | | apply NoDup_singleton].
  intros y Hy Hy'. apply list_elem_of_singleton in Hy'. subst y.
  apply Hx, list_elem_of_In, Hy.
Qed.

Lemma NoDup_cons_In {A : Type} (x : A) (l : list A) :
  NoDup (x :: l) <-> ~ In x l /\ NoDup l.
Proof. rewrite NoDup_cons, list_elem_of_In. reflexivity. Qed.

Lemma emails_unique_create (doc : User) (us : list User) :
  violated_index doc us = None -> emails_unique us -> emails_unique (us ++ [doc]).
Proof.
  intros Hv Hu. unfold emails_unique. rewrite List.map_app. cbn.
  apply NoDup_snoc_fresh; [exact Hu|].
  rewrite in_map_iff. intros (u & He & Hin).
  destruct (proj1 (violated_index_none _ _) Hv u Hin). tauto.
Qed.

Lemma in_replace_id (d x : User) (us : list User) :
  In x (replace_id d us) -> x = d \/ In x (without_id (user_id d) us).
Proof.
  induction us as [|u us IH]; cbn; [tauto|].
  destruct (String.eqb (user_id u) (user_id d)); cbn.
  - intros [-> | Hin]; auto.
  - intros [-> | Hin]; [auto|]. destruct (IH Hin); auto.
Qed.

Lemma in_without_id (id : ObjectId) (x : User) (us : list User) :
  In x (without_id id us) -> In x us.
Proof.
  induction us as [|u us IH]; cbn; [tauto|].
  destruct (String.eqb (user_id u) id); cbn; [auto|]. intros [-> | Hin]; auto.
Qed.

Lemma emails_unique_without (id : ObjectId) (us : list User) :
  emails_unique us -> emails_unique (without_id id us).
Proof.
  unfold emails_unique. induction us as [|u us IH]; cbn; intros Hnd; [constructor|].
  apply NoDup_cons_In in Hnd as [Hu Hl].
  destruct (String.eqb (user_id u) id); cbn; [exact Hl|].
  apply NoDup_cons_In. split; [|auto]. rewrite in_map_iff. intros (x & He & Hin).
  apply Hu, in_map_iff. exists x. split; [exact He|]. eapply in_without_id, Hin.
Qed.

Lemma emails_unique_save (d : User) (us : list User) :
  violated_index d (without_id (user_id d) us) = None ->
  emails_unique us -> emails_unique (replace_id d us).
Proof.
  intros Hv. rewrite violated_index_none in Hv.
  unfold emails_unique. induction us as [|u us IH]; cbn in *; intros Hnd; [constructor|].
  apply NoDup_cons_In in Hnd as [Hu Hl].
  destruct (String.eqb (user_id u) (user_id d)); cbn in *.
  - apply NoDup_cons_In. split; [|exact Hl]. rewrite in_map_iff. intros (x & He & Hin).
    destruct (Hv x Hin). tauto.
  - apply NoDup_cons_In. split.
    + rewrite in_map_iff. intros (x & He & Hin).
      destruct (in_replace_id _ _ _ Hin) as [-> | Hin'].
      * destruct (Hv u (or_introl eq_refl)). congruence.
      * apply Hu, in_map_iff. exists x. split; [exact He|].
        eapply in_without_id, Hin'.
    + apply IH; [|exact Hl]. intros x Hx. apply Hv. auto.
Qed.

Ltac email_prim :=
  first
    [ unfold preserves; intros ?; unfold world_keeps_emails_unique;
      first
        [ unfold User_create; run_handler;
          match goal with
          | |- context [violated_index ?d ?l] =>
              destruct (violated_index d l) eqn:?; cbn;
              [tauto | apply emails_unique_create; assumption]
          end
        | unfold User_save; run_handler;
          match goal with
          | |- context [existsb ?p ?l] => destruct (existsb p l); [|cbn; tauto]
          end;
          match goal with
          | |- context [violated_index ?d ?l] =>
              destruct (violated_index d l) eqn:?; cbn;
              [tauto | apply (emails_unique_save d); assumption]
          end
        | unfold session_set, Click_create, PayoutRequest_create,
            PayoutRequest_findByIdAndUpdate; try destruct (castObjectId _);
          run_handler; tauto ] ].

Section Login.

Context `{Bcrypt}.

Lemma world_keeps_emails_unique_preorder :
  (forall w, world_keeps_emails_unique w w)
  /\ (forall w1 w2 w3, world_keeps_emails_unique w1 w2 -> world_keeps_emails_unique w2 w3 ->
                       world_keeps_emails_unique w1 w3).
Proof. unfold world_keeps_emails_unique. split; auto. Qed.

Lemma app_keeps_emails_unique (a : Ambient) (req : Request) :
  preserves world_keeps_emails_unique (app a req).
Proof.
  destruct world_keeps_emails_unique_preorder as [Hr Ht].
  destruct req; unfold_routes; preserve_tac email_prim.
Qed.

Lemma startup_keeps_emails_unique (a : Ambient) :
  preserves world_keeps_emails_unique (startup a).
Proof.
  destruct world_keeps_emails_unique_preorder as [Hr Ht].
  unfold_routes; preserve_tac email_prim.
Qed.

Lemma step_keeps_emails_unique (sv : Server) (e : Event) :
  emails_unique (db_users sv) -> emails_unique (db_users (step sv e)).
Proof.
  destruct e as [a | a sid req]; cbn.
  - apply (startup_keeps_emails_unique a (mkWorld _ _ _ _)).
  - apply (app_keeps_emails_unique a req (enter sv sid)).
Qed.

Lemma reachable_emails_unique (sv : Server) :
  reachable sv -> emails_unique (db_users sv).
Proof.
  intros [es ->]. unfold run.
  assert (Hgen : forall sv0, emails_unique (db_users sv0) ->
                             emails_unique (db_users (fold_left step es sv0))).
  { induction es as [|e es IH]; intros sv0 H0; cbn; [exact H0|].
    apply IH, step_keeps_emails_unique, H0. }
  apply Hgen. constructor.
Qed.

End Login.

Lemma emails_unique_inj (us : list User) (x y : User) :
  emails_unique us -> In x us -> In y us -> user_email x = user_email y -> x = y.
Proof.
  unfold emails_unique. induction us as [|u us IH]; cbn; [tauto|].
  intros Hnd Hx Hy He. apply NoDup_cons_In in Hnd as [Hu Hl].
  destruct Hx as [-> | Hx], Hy as [-> | Hy]; [reflexivity | | | apply IH; assumption].
  - exfalso. apply Hu, in_map_iff. exists y. split; [symmetry|]; assumption.
  - exfalso. apply Hu, in_map_iff. exists x. split; assumption.
Qed.

Section AffiliateLogin.

Context `{Bcrypt}.

Lemma post_login_filled (email password : option string) (w : World) :
  ~ blank email -> ~ blank password ->
  post_login email password w
    = match List.find (fun u => String.eqb (user_email u) (str email) && is_role affiliate u)
              (users w) with
      | None => (w, inr invalid_credentials)
      | Some user =>
          if bcrypt_compare (str password) (user_passwordHash user)
          then (with_session w (<["userId" := Str (user_id user)]> (session w)),
                inr (Redirect "/dashboard"))
          else (w, inr invalid_credentials)
      end.
Proof.
  intros He Hp. rewrite <- truthy_blank in He, Hp. apply not_false_iff_true in He, Hp.
  unfold post_login, User_findOne, session_set. rewrite He, Hp. cbn [negb orb].
  run_handler. destruct (List.find _ (users w)) as [u|]; [|reflexivity].
  destruct (bcrypt_compare _ _); reflexivity.
Qed.

(** C5. Affiliate login looks accounts up by email and role affiliate.  On
    a server reached from boot, a login with the email of an admin-role
    account fails whatever the password: the login form is rendered again
    with an error and the world, session included, is unchanged; with both
    fields filled the error is the invalid-credentials message.  On every
    such server, with or without an admin, that same response is rendered
    when no affiliate-role account has the email and when one has it but
    the password does not match its hash; the world is unchanged. *)
Theorem affiliate_login_is_role_scoped (sv : Server) (sid : string) :
  reachable sv ->
  (forall (u : User) (password : option string),
     In u (db_users sv) -> user_role u = admin ->
     exists msg,
       post_login (Some (user_email u)) password (enter sv sid)
         = (enter sv sid, inr (Render "login" (LError (Some msg))))
       /\ (~ blank (Some (user_email u)) -> ~ blank password ->
           Render "login" (LError (Some msg)) = invalid_credentials))
  /\
  (forall (e p : option string),
     ~ blank e -> ~ blank p ->
     (forall x, In x (db_users sv) -> ~ (user_email x = str e /\ user_role x = affiliate)) ->
     post_login e p (enter sv sid) = (enter sv sid, inr invalid_credentials))
  /\
  (forall (e p : option string) (u : User),
     ~ blank e -> ~ blank p ->
     In u (db_users sv) -> user_email u = str e -> user_role u = affiliate ->
     bcrypt_compare (str p) (user_passwordHash u) = false ->
     post_login e p (enter sv sid) = (enter sv sid, inr invalid_credentials)).
Proof.
  intros Hreach. pose proof (reachable_emails_unique sv Hreach) as Huniq.
  split; [|split].
  - intros u password Hin Hrole.
    destruct (JS.truthy (Some (user_email u)) && JS.truthy password) eqn:Hf.
    + apply andb_true_iff in Hf as [He Hp].
      exists "Galat email ya password.". split; [|reflexivity].
      rewrite post_login_filled
        by (rewrite <- truthy_blank; congruence).
      rewrite find_none_intro; [reflexivity|].
      intros x Hx. apply not_true_iff_false.
      rewrite andb_true_iff, String.eqb_eq, is_role_true. intros [Hxe Hxr].
      assert (x = u) by (eapply emails_unique_inj; eauto). subst x. congruence.
    + exists "Email aur password dalo.". split.
      * unfold post_login.
        assert (negb (JS.truthy (Some (user_email u))) || negb (JS.truthy password) = true)
          as ->; [|reflexivity].
        apply andb_false_iff in Hf as [-> | ->]; cbn; auto using orb_true_r.
      * intros He Hp. rewrite <- truthy_blank in He, Hp.
        apply not_false_iff_true in He, Hp. rewrite He, Hp in Hf. discriminate.
  - intros e1 p1 He1 Hp1 Hmiss.
    rewrite post_login_filled by assumption.
    rewrite find_none_intro; [reflexivity|].
    intros x Hx. apply not_true_iff_false.
    rewrite andb_true_iff, String.eqb_eq, is_role_true. apply Hmiss, Hx.
  - intros e2 p2 u2 He2 Hp2 Hin2 Hu2 Hr2 Hcmp.
    rewrite post_login_filled by assumption.
    destruct (find_is_some
                (fun x => String.eqb (user_email x) (str e2) && is_role affiliate x)
                (users (enter sv sid)) u2 Hin2) as [y Hy].
    { rewrite andb_true_iff, String.eqb_eq, is_role_true. auto. }
    rewrite Hy. apply find_some in Hy as [Hiny Hpy].
    apply andb_true_iff in Hpy as [Hye _]. apply String.eqb_eq in Hye.
    assert (y = u2) by (eapply emails_unique_inj; eauto; congruence). subst y.
    rewrite Hcmp. reflexivity.
Qed.

End AffiliateLogin.

(** *** Binary64 rounding *)

Section Rounding.

Local Open Scope Q_scope.

Lemma pow2_pos (e : Z) : 0 < JS.pow2 e.
Proof. unfold JS.pow2. apply Qpower_0_lt. reflexivity. Qed.

Lemma pow2_add (a b : Z) : JS.pow2 (a + b) == JS.pow2 a * JS.pow2 b.
Proof. unfold JS.pow2. apply Qpower_plus. discriminate. Qed.

Lemma pow2_le (a b : Z) : (a <= b)%Z -> JS.pow2 a <= JS.pow2 b.
Proof. intros Hab. unfold JS.pow2. apply Qpower_le_compat_l; [exact Hab | discriminate]. Qed.

Lemma pow2_lt_inv (a b : Z) : JS.pow2 a < JS.pow2 b -> (a < b)%Z.
Proof.
  intros Hab. unfold JS.pow2 in *.
  eapply Qpower_lt_compat_l_inv; [exact Hab | reflexivity].
Qed.

Lemma pow2_Z (a : Z) : (0 <= a)%Z -> JS.pow2 a == inject_Z (2 ^ a).
Proof. intros Ha. unfold JS.pow2. rewrite Zpower_Qpower by exact Ha. reflexivity. Qed.

Lemma rne_bounds (x : Q) : inject_Z (JS.rne x) - (1#2) <= x /\ x <= inject_Z (JS.rne x) + (1#2).
Proof.
  unfold JS.rne. pose proof (Qfloor_le x) as Hl. pose proof (Qlt_floor x) as Hu.
  rewrite inject_Z_plus in Hu. change (inject_Z 1) with 1 in Hu.
  destruct (Qcompare_spec (x - inject_Z (Qfloor x)) (1#2)) as [E|E|E].
  - destruct (Z.even (Qfloor x));
      [|rewrite inject_Z_plus; change (inject_Z 1) with 1]; lra.
  - lra.
  - rewrite inject_Z_plus. change (inject_Z 1) with 1. lra.
Qed.

Lemma rne_mono (x y : Q) : x <= y -> (JS.rne x <= JS.rne y)%Z.
Proof.
  intros Hxy. pose proof (Qfloor_resp_le _ _ Hxy) as Hf.
  pose proof (Qfloor_le x) as Hlx. pose proof (Qlt_floor x) as Hux.
  pose proof (Qfloor_le y) as Hly. pose proof (Qlt_floor y) as Huy.
  rewrite inject_Z_plus in Hux, Huy. change (inject_Z 1) with 1 in Hux, Huy.
  unfold JS.rne.
  destruct (Z.eq_dec (Qfloor x) (Qfloor y)) as [Heq | Hne].
  - rewrite <- Heq in *.
    destruct (Qcompare_spec (x - inject_Z (Qfloor x)) (1#2)) as [E|E|E];
    destruct (Qcompare_spec (y - inject_Z (Qfloor x)) (1#2)) as [E'|E'|E'];
    try destruct (Z.even (Qfloor x)); try lia; exfalso; lra.
  - assert (Qfloor x + 1 <= Qfloor y)%Z by lia.
    destruct (Qcompare (x - inject_Z (Qfloor x)) (1#2));
    destruct (Qcompare (y - inject_Z (Qfloor y)) (1#2));
    try destruct (Z.even (Qfloor x)); try destruct (Z.even (Qfloor y)); lia.
Qed.

Lemma rne_Z (z : Z) : JS.rne (inject_Z z) = z.
Proof.
  unfold JS.rne. rewrite Qfloor_Z.
  destruct (Qcompare_spec (inject_Z z - inject_Z z) (1#2)) as [E|E|E];
    [exfalso; lra | reflexivity | exfalso; lra].
Qed.

Lemma frac_lt_pow2 (n : Z) (d : positive) (a b : Z) :
  (0 <= a)%Z -> (0 <= b)%Z -> (n * 2 ^ b < 2 ^ a * Zpos d)%Z -> n # d < JS.pow2 (a - b).
Proof.
  intros Ha Hb Hlt. apply (Qmult_lt_r _ _ (JS.pow2 b)); [apply pow2_pos|].
  rewrite <- pow2_add. replace (a - b + b)%Z with a by lia.
  rewrite (pow2_Z a), (pow2_Z b) by assumption.
  unfold Qlt, Qmult, inject_Z; cbn [Qnum Qden]. rewrite Pos.mul_1_r. lia.
Qed.

Lemma frac_ge_pow2 (n : Z) (d : positive) (a b : Z) :
  (0 <= a)%Z -> (0 <= b)%Z -> (2 ^ a * Zpos d <= n * 2 ^ b)%Z -> JS.pow2 (a - b) <= n # d.
Proof.
  intros Ha Hb Hle. apply (Qmult_le_r _ _ (JS.pow2 b)); [apply pow2_pos|].
  rewrite <- pow2_add. replace (a - b + b)%Z with a by lia.
  rewrite (pow2_Z a), (pow2_Z b) by assumption.
  unfold Qle, Qmult, inject_Z; cbn [Qnum Qden]. rewrite Pos.mul_1_r. lia.
Qed.

Lemma ilog2_spec (q : Q) : 0 < q -> JS.pow2 (JS.ilog2 q) <= q /\ q < JS.pow2 (JS.ilog2 q + 1).
Proof.
  intros Hq. destruct q as [n d]. assert (Hn : (0 < n)%Z).
  { unfold Qlt in Hq; cbn in Hq. lia. }
  unfold JS.ilog2; cbn [Qnum Qden].
  pose proof (Z.log2_spec n Hn) as [Hn1 Hn2].
  pose proof (Z.log2_spec (Zpos d) (Pos2Z.is_pos d)) as [Hd1 Hd2].
  pose proof (Z.log2_nonneg n) as Hln. pose proof (Z.log2_nonneg (Zpos d)) as Hld.
  set (ln := Z.log2 n) in *. set (ld := Z.log2 (Zpos d)) in *.
  assert (Hp1 : (0 < 2 ^ ln)%Z) by (apply Z.pow_pos_nonneg; lia).
  assert (Hp2 : (0 < 2 ^ ld)%Z) by (apply Z.pow_pos_nonneg; lia).
  rewrite Z.pow_succ_r in Hn2, Hd2 by assumption.
  destruct (Qle_bool (JS.pow2 (ln - ld)) (n # d)) eqn:E.
  - split; [apply Qle_bool_iff, E|].
    replace (ln - ld + 1)%Z with ((ln + 1) - ld)%Z by lia.
    apply frac_lt_pow2; [lia | lia |]. rewrite Z.pow_add_r by lia. nia.
  - split.
    + replace (ln - ld - 1)%Z with (ln - (ld + 1))%Z by lia.
      apply frac_ge_pow2; [lia | lia |]. rewrite Z.pow_add_r by lia. nia.
    + replace (ln - ld - 1 + 1)%Z with (ln - ld)%Z by lia.
      apply Qnot_le_lt. rewrite <- Qle_bool_iff, E. discriminate.
Qed.

Lemma ilog2_mono (x y : Q) : 0 < x -> x <= y -> (JS.ilog2 x <= JS.ilog2 y)%Z.
Proof.
  intros Hx Hxy. assert (Hy : 0 < y) by lra.
  destruct (ilog2_spec x Hx) as [Hx1 _]. destruct (ilog2_spec y Hy) as [_ Hy2].
  assert (JS.pow2 (JS.ilog2 x) < JS.pow2 (JS.ilog2 y + 1)) by lra.
  apply pow2_lt_inv in H. lia.
Qed.

Ltac lra_atoms :=
  repeat match goal with
         | |- context [JS.pow2 ?e] =>
             let t := fresh "t" in set (t := JS.pow2 e) in *; clearbody t
         | H : context [JS.pow2 ?e] |- _ =>
             let t := fresh "t" in set (t := JS.pow2 e) in *; clearbody t
         | |- context [JS.ulp ?e] =>
             let t := fresh "t" in set (t := JS.ulp e) in *; clearbody t
         | H : context [JS.ulp ?e] |- _ =>
             let t := fresh "t" in set (t := JS.ulp e) in *; clearbody t
         end;
  lra.

Lemma ulp_pos (x : Q) : 0 < JS.ulp x.
Proof. apply pow2_pos. Qed.

Lemma round64_pos_eq (x : Q) :
  0 < x -> JS.round64 x == inject_Z (JS.rne (x / JS.ulp x)) * JS.ulp x.
Proof.
  intros Hx. destruct x as [[|p|p] d]; try (exfalso; revert Hx; unfold Qlt; cbn; lia).
  unfold JS.round64. cbn [Qnum]. apply Qred_correct.
Qed.

Lemma round64_zero (x : Q) : x == 0 -> JS.round64 x = 0.
Proof.
  intros Hx. destruct x as [[|p|p] d]; [reflexivity | |];
    exfalso; revert Hx; unfold Qeq; cbn; lia.
Qed.

Lemma round64_upper (x : Q) (e : Z) :
  0 < x -> (-1022 <= e)%Z -> x <= JS.pow2 (e + 1) -> JS.round64 x <= JS.pow2 (e + 1).
Proof.
  intros Hx He Hle. rewrite round64_pos_eq by exact Hx.
  pose proof (ulp_pos x) as Hu.
  destruct (ilog2_spec x Hx) as [Hl1 Hl2].
  set (b := Z.max (JS.ilog2 x) (-1022)).
  assert (Hb : (b <= e + 1)%Z).
  { assert (JS.pow2 (JS.ilog2 x) < JS.pow2 (e + 1 + 1)).
    { eapply Qle_lt_trans; [exact Hl1|]. eapply Qle_lt_trans; [exact Hle|].
      rewrite (pow2_add (e + 1) 1). pose proof (pow2_pos (e + 1)).
      change (JS.pow2 1) with 2. lra_atoms. }
    apply pow2_lt_inv in H. unfold b. lia. }
  assert (Hq : x / JS.ulp x <= inject_Z (2 ^ (e + 53 - b))).
  { apply Qle_shift_div_r; [exact Hu|]. unfold JS.ulp. fold b.
    rewrite <- (pow2_Z (e + 53 - b)) by lia. rewrite <- pow2_add.
    replace (e + 53 - b + (b - 52))%Z with (e + 1)%Z by lia. exact Hle. }
  apply rne_mono in Hq. rewrite rne_Z in Hq.
  apply (Qle_trans _ (inject_Z (2 ^ (e + 53 - b)) * JS.ulp x)).
  - apply Qmult_le_compat_r; [|lra_atoms]. rewrite <- Zle_Qle. exact Hq.
  - unfold JS.ulp. fold b. rewrite <- (pow2_Z (e + 53 - b)) by lia. rewrite <- pow2_add.
    apply pow2_le. lia.
Qed.

Lemma round64_lower (x : Q) (e : Z) :
  0 < x -> (-1022 <= e)%Z -> JS.pow2 e <= x -> JS.pow2 e <= JS.round64 x.
Proof.
  intros Hx He Hle. rewrite round64_pos_eq by exact Hx.
  pose proof (ulp_pos x) as Hu.
  destruct (ilog2_spec x Hx) as [Hl1 Hl2].
  set (b := Z.max (JS.ilog2 x) (-1022)).
  assert (Hb : (e <= b)%Z).
  { assert (JS.pow2 e < JS.pow2 (JS.ilog2 x + 1)) by lra_atoms.
    apply pow2_lt_inv in H. unfold b. lia. }
  assert (Hbx : (-1022 <= JS.ilog2 x)%Z).
  { assert (JS.pow2 e < JS.pow2 (JS.ilog2 x + 1)) by lra_atoms.
    apply pow2_lt_inv in H. lia. }
  assert (Hbi : b = JS.ilog2 x) by (unfold b; lia).
  assert (Hq : inject_Z (2 ^ 52) <= x / JS.ulp x).
  { apply Qle_shift_div_l; [exact Hu|]. unfold JS.ulp. fold b.
    rewrite <- (pow2_Z 52) by lia. rewrite <- pow2_add.
    replace (52 + (b - 52))%Z with b by lia. rewrite Hbi. exact Hl1. }
  apply rne_mono in Hq. rewrite rne_Z in Hq.
  apply (Qle_trans _ (inject_Z (2 ^ 52) * JS.ulp x)).
  - unfold JS.ulp. fold b. rewrite <- (pow2_Z 52) by lia. rewrite <- pow2_add.
    apply pow2_le. lia.
  - apply Qmult_le_compat_r; [|lra_atoms]. rewrite <- Zle_Qle. exact Hq.
Qed.

Lemma round64_nonneg (x : Q) : 0 <= x -> 0 <= JS.round64 x.
Proof.
  intros Hx. destruct (Qlt_le_dec 0 x) as [Hpos | Hle].
  - rewrite round64_pos_eq by exact Hpos. pose proof (ulp_pos x) as Hu.
    apply Qmult_le_0_compat; [|lra_atoms].
    assert (Hq : inject_Z 0 <= x / JS.ulp x).
    { apply Qle_shift_div_l; [exact Hu|]. change (inject_Z 0) with 0. lra_atoms. }
    apply rne_mono in Hq. rewrite rne_Z in Hq.
    change 0 with (inject_Z 0). rewrite <- Zle_Qle. exact Hq.
  - rewrite round64_zero by lra_atoms. lra_atoms.
Qed.

Lemma round64_mono (x y : Q) : 0 <= x -> x <= y -> JS.round64 x <= JS.round64 y.
Proof.
  intros Hx0 Hxy. destruct (Qlt_le_dec 0 x) as [Hx | Hle].
  2:{ rewrite (round64_zero x) by lra_atoms. apply round64_nonneg. lra_atoms. }
  assert (Hy : 0 < y) by lra_atoms.
  pose proof (ilog2_mono x y Hx Hxy) as Hlog.
  destruct (ilog2_spec x Hx) as [Hx1 Hx2]. destruct (ilog2_spec y Hy) as [Hy1 Hy2].
  destruct (Z.eq_dec (Z.max (JS.ilog2 x) (-1022)) (Z.max (JS.ilog2 y) (-1022))) as [Heq | Hne].
  - rewrite !round64_pos_eq by assumption.
    assert (Hu : JS.ulp x = JS.ulp y) by (unfold JS.ulp; rewrite Heq; reflexivity).
    rewrite Hu. pose proof (ulp_pos y) as Hup.
    apply Qmult_le_compat_r; [|lra_atoms]. rewrite <- Zle_Qle. apply rne_mono.
    apply Qle_shift_div_l; [exact Hup|].
    unfold Qdiv. rewrite <- Qmult_assoc, (Qmult_comm (/ JS.ulp y)), Qmult_inv_r by lra_atoms.
    lra_atoms.
  - set (ex := Z.max (JS.ilog2 x) (-1022)) in *.
    assert (Hex : (ex + 1 <= JS.ilog2 y)%Z) by lia.
    apply (Qle_trans _ (JS.pow2 (ex + 1))).
    + apply round64_upper; [exact Hx | unfold ex; lia |].
      apply Qlt_le_weak. eapply Qlt_le_trans; [exact Hx2|]. apply pow2_le. unfold ex. lia.
    + apply (Qle_trans _ (JS.pow2 (JS.ilog2 y))); [apply pow2_le; lia|].
      apply round64_lower; [exact Hy | unfold ex in Hex; lia | exact Hy1].
Qed.

Lemma unit_value_range (rnd : UnitDouble) :
  0 <= unit_value rnd /\ unit_value rnd <= 1 - JS.pow2 (-53).
Proof.
  unfold unit_value.
  pose proof (Z.mod_pos_bound (mant rnd) (2 ^ 53) eq_refl) as [Hm0 Hm1].
  pose proof (Z.mod_pos_bound (scale rnd) 1022 eq_refl) as [Hs0 Hs1].
  set (m := (mant rnd mod 2 ^ 53)%Z) in *. set (k := (scale rnd mod 1022)%Z) in *.
  pose proof (pow2_pos (- (53 + k))) as Hp.
  assert (Hle : JS.pow2 (- (53 + k)) <= JS.pow2 (-53)) by (apply pow2_le; lia).
  assert (Hmq : 0 <= inject_Z m) by (change 0 with (inject_Z 0); rewrite <- Zle_Qle; exact Hm0).
  assert (Hmu : inject_Z m <= inject_Z (2 ^ 53 - 1)) by (rewrite <- Zle_Qle; lia).
  split.
  - apply Qmult_le_0_compat; [exact Hmq | apply Qlt_le_weak, Hp].
  - apply (Qle_trans _ (inject_Z (2 ^ 53 - 1) * JS.pow2 (-53))).
    + apply Qmult_le_compat_nonneg; split; auto using Qlt_le_weak.
    + apply Qle_bool_iff. vm_compute. reflexivity.
Qed.

Lemma random_suffix_range (rnd : UnitDouble) :
  (100 <= JS.Math_floor (JS.fadd 100 (JS.fmul (unit_value rnd) 900)) <= 999)%Z.
Proof.
  destruct (unit_value_range rnd) as [Hr0 Hr1].
  set (r := unit_value rnd) in *. unfold JS.fadd, JS.fmul, JS.Math_floor.
  assert (Hx0 : 0 <= r * 900) by (apply Qmult_le_0_compat; [exact Hr0 | discriminate]).
  assert (Hx1 : r * 900 <= (1 - JS.pow2 (-53)) * 900)
    by (apply Qmult_le_compat_r; [exact Hr1 | discriminate]).
  pose proof (round64_nonneg _ Hx0) as Hf0.
  pose proof (round64_mono _ _ Hx0 Hx1) as Hf1.
  set (f := JS.round64 (r * 900)) in *.
  assert (Hc1 : JS.round64 ((1 - JS.pow2 (-53)) * 900) <= 900 - JS.pow2 (-43))
    by (apply Qle_bool_iff; vm_compute; reflexivity).
  assert (Hy0 : 100 <= 100 + f) by lra.
  assert (Hy1 : 100 + f <= 100 + (900 - JS.pow2 (-43))) by lra.
  assert (H100 : 0 <= 100) by discriminate.
  pose proof (round64_mono _ _ H100 Hy0) as Hg0.
  assert (Hyn : 0 <= 100 + f) by lra.
  pose proof (round64_mono _ _ Hyn Hy1) as Hg1.
  assert (Hc0 : JS.round64 100 == 100) by reflexivity.
  assert (Hc2 : JS.round64 (100 + (900 - JS.pow2 (-43))) < 1000)
    by (unfold Qlt; vm_compute; reflexivity).
  set (y := JS.round64 (100 + f)) in *.
  split.
  - change 100%Z with (Qfloor 100). apply Qfloor_resp_le. lra.
  - pose proof (Qfloor_le y) as Hfl.
    assert (Hlt : inject_Z (Qfloor y) < inject_Z 1000) by (change (inject_Z 1000) with 1000; lra).
    rewrite <- Zlt_Qlt in Hlt. lia.
Qed.

End Rounding.

(** *** Strings *)

Lemma Z_toString_three_digits (n : Z) :
  (100 <= n <= 999)%Z -> JS.Z_toString n = three_digits n.
Proof.
  intros Hn. unfold JS.Z_toString, three_digits.
  assert ((n <? 0)%Z = false) as -> by lia.
  assert (Hlog : (6 <= Z.log2 n)%Z).
  { change 6%Z with (Z.log2 64). apply Z.log2_le_mono. lia. }
  destruct (Z.to_nat (Z.log2 n)) as [|[|fuel]] eqn:E; [lia | lia |].
  cbn [JS.decimal_digits].
  assert ((n <? 10)%Z = false) as -> by lia.
  assert ((n / 10 <? 10)%Z = false) as ->.
  { apply Z.ltb_ge. apply Z.div_le_lower_bound; lia. }
  rewrite Z.div_div by lia. change (10 * 10)%Z with 100%Z.
  assert (H100 : (1 <= n / 100 < 10)%Z).
  { split; [apply Z.div_le_lower_bound; lia | apply Z.div_lt_upper_bound; lia]. }
  destruct fuel; cbn [JS.decimal_digits]; rewrite (Z.mod_small (n / 100) 10) by lia;
    [reflexivity|].
  assert ((n / 100 <? 10)%Z = true) as -> by lia. reflexivity.
Qed.

Lemma split_head_spec (sep : ascii) (s : string) :
  exists rest,
    s = JS.split_head sep s ++ rest
    /\ (rest = "" \/ exists r, rest = String sep r)
    /\ ~ In sep (list_ascii_of_string (JS.split_head sep s)).
Proof.
  induction s as [|c s (rest & Hs & Hrest & Hno)]; cbn.
  - exists "". auto.
  - destruct (Ascii.eqb c sep) eqn:E.
    + apply Ascii.eqb_eq in E. subst c. exists (String sep s). cbn.
      repeat split; [right; eauto | tauto].
    + apply Ascii.eqb_neq in E. exists rest. cbn. repeat split; [| exact Hrest |].
      * change (String c s = String c (JS.split_head sep s ++ rest)). f_equal. exact Hs.
      *
intros [Hc | Hin]; [congruence | tauto].
Qed.

Lemma substring_all (s : string) : substring 0 (String.length s) s = s.
Proof. induction s as [|c s IH]; cbn; [reflexivity | rewrite IH; reflexivity]. Qed.

Lemma substring_suffix (k : nat) (s : string) :
  (k <= String.length s)%nat ->
  exists pre, s = pre ++ substring k (String.length s - k) s
              /\ String.length (substring k (String.length s - k) s) = (String.length s - k)%nat.
Proof.
  revert s. induction k as [|k IH]; intros s Hk.
  - exists "". rewrite Nat.sub_0_r, substring_all. auto.
  - destruct s as [|c s]; cbn in Hk; [lia|].
    destruct (IH s ltac:(lia)) as (pre & Hs & Hl).
    exists (String c pre). cbn [String.length substring Nat.sub].
    split; [| exact Hl].
    change (String c s = String c (pre ++ substring k (String.length s - k) s)).
    f_equal. exact Hs.
Qed.

Lemma slice_last_spec (n : nat) (s : string) :
  (exists pre, s = pre ++ JS.slice_last n s)
  /\ String.length (JS.slice_last n s) = Nat.min n (String.length s).
Proof.
  unfold JS.slice_last.
  assert (Hm : Nat.min n (String.length s) = (String.length s - (String.length s - n))%nat) by lia.
  rewrite Hm.
  destruct (substring_suffix (String.length s - n) s ltac:(lia)) as (pre & Hs & Hl).
  split; [eauto | exact Hl].
Qed.

(** *** The referral code *)

Lemma lower_char_ascii (c : ascii) :
  (JS.code c < 128)%Z ->
  (JS.code c =? 931)%Z = false
  /\ (JS.code c =? 304)%Z = false
  /\ JS.mapped JS.lower_case_mapping (JS.code c) = JS.code (JS.lower_char c)
  /\ JS.utf8 (JS.code (JS.lower_char c)) = [JS.lower_char c].
Proof.
  destruct c as [[] [] [] [] [] [] [] []]; intros Hc;
    first [ exfalso; vm_compute in Hc; discriminate Hc
          | vm_compute; repeat split ].
Qed.

Lemma code_points_ascii (c : ascii) (r : string) :
  (JS.code c < 128)%Z -> JS.code_points (String c r) = JS.code c :: JS.code_points r.
Proof.
  intros Hc. cbn [JS.code_points].
  destruct (Z.ltb_spec (JS.code c) 128); [reflexivity | lia].
Qed.

Lemma lower_text_ascii (s : string) (before : list Z) :
  Forall (fun c => (JS.code c < 128)%Z) (list_ascii_of_string s) ->
  JS.lower_text before (JS.code_points s)
    = List.map (fun c => JS.code (JS.lower_char c)) (list_ascii_of_string s).
Proof.
  revert before. induction s as [|c s IH]; intros before Hs; [reflexivity|].
  cbn [list_ascii_of_string] in Hs. apply Forall_cons in Hs as [Hc Hs].
  rewrite code_points_ascii by exact Hc.
  destruct (lower_char_ascii c Hc) as (E1 & E2 & E3 & _).
  cbn [JS.lower_text list_ascii_of_string List.map]. rewrite E1, E2, E3.
  cbn [app]. f_equal. apply IH, Hs.
Qed.

Lemma toLowerCase_ascii (s : string) :
  Forall (fun c => (JS.code c < 128)%Z) (list_ascii_of_string s) ->
  JS.toLowerCase s = JS.lower_letters s.
Proof.
  intros Hs. unfold JS.toLowerCase, JS.of_code_points. rewrite (lower_text_ascii s [] Hs).
  induction s as [|c s IH]; [reflexivity|].
  cbn [list_ascii_of_string] in Hs. apply Forall_cons in Hs as [Hc Hs].
  destruct (lower_char_ascii c Hc) as (_ & _ & _ & E).
  cbn [list_ascii_of_string List.map List.flat_map JS.lower_letters]. rewrite E.
  match goal with
  | |- string_of_list_ascii ([?x] ++ ?l) = _ =>
      change (string_of_list_ascii ([x] ++ l)) with (String x (string_of_list_ascii l))
  end.
  f_equal. apply IH, Hs.
Qed.

(** C4 (as the code has it).  For every name, id and value of
    [Math.random()], the referral code is: the lowercased part of the name
    before its first space character (all of the name when it has no space;
    of the word "user" when the name is missing or empty), then the last 4
    characters of the id (all of it when it is shorter), then the three
    decimal digits of an integer between 100 and 999.  Lowercased is
    [String.prototype.toLowerCase]; on a part within ASCII it is the part
    with a to z for A to Z. *)
Theorem generateReferralCode_shape (name : option string) (id : ObjectId)
    (rnd : UnitDouble) :
  exists (token rest : string) (n : Z),
    (if JS.truthy name then str name else "user") = token ++ rest
    /\ ~ In " "%char (list_ascii_of_string token)
    /\ (rest = "" \/ exists r, rest = String " " r)
    /\ (exists pre, id = pre ++ JS.slice_last 4 id)
    /\ String.length (JS.slice_last 4 id) = Nat.min 4 (String.length id)
    /\ (100 <= n <= 999)%Z
    /\ generateReferralCode name id rnd
         = JS.toLowerCase token ++ JS.slice_last 4 id ++ three_digits n
    /\ (Forall (fun c => (JS.code c < 128)%Z) (list_ascii_of_string token) ->
        JS.toLowerCase token = JS.lower_letters token).
Proof.
  assert (Hname : str (JS.or_else name (Some "user"))
                  = if JS.truthy name then str name else "user")
    by (destruct name as [[|c s]|]; reflexivity).
  destruct (split_head_spec " " (if JS.truthy name then str name else "user"))
    as (rest & Hsplit & Hrest & Hno).
  destruct (slice_last_spec 4 id) as [Hpre Hlen].
  pose proof (random_suffix_range rnd) as Hn.
  exists (JS.split_head " " (if JS.truthy name then str name else "user")), rest,
    (JS.Math_floor (JS.fadd 100 (JS.fmul (unit_value rnd) 900))).
  repeat split; try assumption; try lia.
  - unfold generateReferralCode. rewrite Hname, (Z_toString_three_digits _ Hn). reflexivity.
  - apply toLowerCase_ascii.
Qed.

(** The code of a name whose first letter is outside ASCII: E with acute is
    lowercased with the rest. *)
Example referral_code_of_elan_vital :
  generateReferralCode (Some (String "195" (String "137" "LAN Vital"))) Demo.asha_id Demo.zero
    = String "195" (String "169" "lan") ++ "a001" ++ "100".
Proof. vm_compute. reflexivity. Qed.

(** C4 as the specification words it fails: the code of a name with a tab
    in it keeps the tab, so it is not the lowercased first
    whitespace-delimited token followed by the rest, whatever the digits. *)
Lemma referral_code_splits_at_spaces_only :
  generateReferralCode (Some Demo.mary_ann) Demo.asha_id Demo.zero
    = "mary" ++ String "009" "ann" ++ "a001" ++ "100"
  /\ forall n : Z,
       spec_referral_code (Some Demo.mary_ann) Demo.asha_id n = "mary" ++ "a001" ++ three_digits n
       /\ generateReferralCode (Some Demo.mary_ann) Demo.asha_id Demo.zero
            <> spec_referral_code (Some Demo.mary_ann) Demo.asha_id n.
Proof.
  assert (E : generateReferralCode (Some Demo.mary_ann) Demo.asha_id Demo.zero
              = "mary" ++ String "009" "ann" ++ "a001" ++ "100")
    by (vm_compute; reflexivity).
  split; [exact E|]. intros n. split; [reflexivity|].
  rewrite E. intros Heq.
  apply (f_equal (String.get 4)) in Heq. lazy in Heq. discriminate.
Qed.

(** *** The properties on the history of [Demo] *)

Section Examples.

Import Demo.

#[local] Existing Instance plain.

(** C1 as the specification words it fails: the request Asha made is
    approved by the admin and then rejected, so approved is not final. *)
Lemma approved_request_is_rejected_later :
  payout_status <$> (db_payouts (run (H := plain) with_request [root_approves]) !! 0%nat)
    = Some approved
  /\ payout_status <$>
       (db_payouts (run (H := plain) with_request [root_approves; root_rejects]) !! 0%nat)
     = Some rejected
  /\ reachable (H := plain) (run (H := plain) with_request [root_approves; root_rejects]).
Proof.
  repeat split.
  exists [connect; asha_registers; asha_requests_50; root_logs_in; root_approves; root_rejects].
  reflexivity.
Defined.

Lemma approved_request_is_never_pending_again :
  (exists p',
     db_payouts (run (H := plain) (run (H := plain) with_request [root_approves])
                   [root_rejects; asha_requests_50; root_approves]) !! 0%nat = Some p'
     /\ payout_id p' = payout1
     /\ payout_status p' <> pending)
  /\ post_admin_payouts_approve (ambient "" 5000) "abc" (enter with_request "root")
     = (enter with_request "root", inl (CastError "ObjectId" "abc" "_id"))
  /\ payouts (fst (post_admin_payouts_reject (ambient "" 6000) "65A00000000000000000C001"
                     (enter (run (H := plain) with_request [root_approves]) "root")))
       !! 0%nat
     = Some (mkPayoutRequest payout1 (Some asha_id) (JS.Finite 50) rejected 3000
               (Some 6000%Z)).
Proof.
  destruct (payout_status_never_back_to_pending
              (run (H := plain) with_request [root_approves])
              [root_rejects; asha_requests_50; root_approves])
    as (Hkeep & Happrove & Hreject).
  split; [|split].
  - destruct (Hkeep 0%nat approved_request eq_refl) as (p' & Hp' & Hid & Hst).
    exists p'. split; [exact Hp' | split; [exact Hid | apply Hst; discriminate]].
  - apply (proj1 (Happrove (ambient "" 5000) "abc" (enter with_request "root") eq_refl));
      [reflexivity | discriminate].
  - destruct (proj2 (Hreject (ambient "" 6000) "65A00000000000000000C001"
                       (enter (run (H := plain) with_request [root_approves]) "root")
                       eq_refl) payout1 eq_refl) as (_ & _ & _ & _ & _ & Hlook).
    destruct (Hlook 0%nat approved_request eq_refl) as [Hfirst _].
    apply Hfirst. split; [exists approved_request; split; reflexivity|].
    intros j q Hj. lia.
Defined.

Lemma click_on_asha_link_is_counted :
  get_r (ambient click1 3500) "nobody" None None None visitor
    = (visitor, inr (Send 404 "Invalid referral link"))
  /\ snd (get_r (ambient click1 3500) "ashaa001100" None (Some "203.0.113.7") (Some "curl")
            visitor)
     = inr (Send 200 "You clicked referral of Asha Rao.")
  /\ totalClicks
       (fst (get_r (ambient click1 3500) "ashaa001100" None (Some "203.0.113.7")
               (Some "curl") visitor)) asha_id
     = S (totalClicks visitor asha_id).
Proof.
  pose proof (resolveAndRecordClick_spec (ambient click1 3500) "nobody" None None None visitor)
    as [Hmiss _].
  pose proof (resolveAndRecordClick_spec (ambient click1 3500) "ashaa001100" None
                (Some "203.0.113.7") (Some "curl") visitor) as [_ Hhit].
  split.
  - apply Hmiss. intros u [<- | [<- | []]] Hr; [discriminate Hr | discriminate].
  - destruct Hhit as (u & Hin & Hr & Hc & Hget & Htot & _).
    { exists asha. split; [right; left; reflexivity | split; reflexivity]. }
    destruct Hin as [<- | [<- | []]]; [discriminate Hr|].
    rewrite Hget. split; [reflexivity | exact Htot].
Defined.

Lemma register_again_with_asha_email :
  post_register (H := plain) (ambient nair_id 7000)
    (Some "Asha Again") (Some "asha@example.com") None visitor
    = (visitor, inr (Render "register" (LError (Some "Sab field bhar do."))))
  /\ post_register (H := plain) (ambient nair_id 7000)
       (Some "Asha Again") (Some "asha@example.com") (Some "pw") visitor
     = (visitor, inr (Render "register" (LError (Some "Ye email already registered hai.")))).
Proof.
  split.
  - apply (proj1 (register_rejects_blank_then_duplicate (ambient nair_id 7000)
                    (Some "Asha Again") (Some "asha@example.com") None visitor)).
    right. right. left. reflexivity.
  - apply (proj2 (register_rejects_blank_then_duplicate (ambient nair_id 7000)
                    (Some "Asha Again") (Some "asha@example.com") (Some "pw") visitor)).
    + intros [E | E]; discriminate E.
    + intros [E | E]; discriminate E.
    + intros [E | E]; discriminate E.
    + exists asha. split; [right; left; reflexivity | reflexivity].
Defined.

Lemma admin_cannot_use_affiliate_login :
  post_login (H := plain) (Some "root@example.com") (Some "s3cret") (enter opened "root")
    = (enter opened "root", inr invalid_credentials)
  /\ snd (post_admin_login (H := plain) (Some "root@example.com") (Some "s3cret")
            (enter opened "root"))
     = inr (Redirect "/admin")
  /\ post_login (H := plain) (Some "asha@example.com") (Some "guess") (enter opened "root")
     = (enter opened "root", inr invalid_credentials)
  /\ db_users boot = []
  /\ post_login (H := plain) (Some "asha@example.com") (Some "pw") (enter boot "asha")
     = (enter boot "asha", inr invalid_credentials).
Proof.
  assert (Hfilled : forall s c, ~ blank (Some (String c s)))
    by (intros s c [B | B]; discriminate B).
  destruct (affiliate_login_is_role_scoped opened "root") as (Hadmin & _ & Hwrong).
  { exists [connect; asha_registers]. reflexivity. }
  destruct (affiliate_login_is_role_scoped boot "asha") as (_ & Hmiss & _).
  { exists []. reflexivity. }
  split; [|split; [reflexivity|split; [|split; [reflexivity|]]]].
  - destruct (Hadmin root (Some "s3cret")) as (msg & E & Hmsg);
      [left; reflexivity | reflexivity |].
    change (user_email root) with "root@example.com" in E, Hmsg.
    rewrite E, Hmsg; [reflexivity | |]; apply Hfilled.
  - apply (Hwrong (Some "asha@example.com") (Some "guess") asha);
      [apply Hfilled | apply Hfilled | right; left; reflexivity | reflexivity | reflexivity
      | reflexivity].
  - apply (Hmiss (Some "asha@example.com") (Some "pw")); [apply Hfilled | apply Hfilled |].
    intros x [].
Defined.

Lemma payout_of_minus_five_is_dropped :
  post_payout_request (ambient payout1 3000) (Some "-5") (enter opened "asha")
    = (enter opened "asha", inr (Redirect "/dashboard"))
  /\ post_payout_request (ambient payout1 3000) (Some "50") (enter opened "asha")
     = (mkWorld [root; asha] []
          [mkPayoutRequest payout1 (Some asha_id) (JS.Finite 50) pending 3000 None]
          {[ "userId" := Str asha_id ]},
        inr (Redirect "/dashboard"))
  /\ payouts (fst (post_payout_request (ambient payout1 3000)
                     (Some (String "194" (String "160" "7"))) (enter opened "asha")))
     = [mkPayoutRequest payout1 (Some asha_id) (JS.Finite 7) pending 3000 None].
Proof.
  destruct (requestPayout_spec (ambient payout1 3000) (Some "-5") (enter opened "asha")
              eq_refl) as (Hdrop & _ & _).
  destruct (requestPayout_spec (ambient payout1 3000) (Some "50") (enter opened "asha")
              eq_refl) as (_ & Hmake & _).
  destruct (requestPayout_spec (ambient payout1 3000)
              (Some (String "194" (String "160" "7"))) (enter opened "asha")
              eq_refl) as (_ & Hnbsp & _).
  split; [|split].
  - apply Hdrop. right. right. reflexivity.
  - rewrite (Hmake "50" eq_refl); [reflexivity|]. vm_compute. reflexivity.
  - rewrite (Hnbsp _ eq_refl); [reflexivity|]. vm_compute. reflexivity.
Defined.

(** C7 as the specification words it fails: when the configured admin
    email changes, no admin account has the new email, and yet none is
    created, because the referral code "admin" is taken. *)
Lemma second_admin_is_never_created :
  JS.truthy (ADMIN_EMAIL (env reconnect)) = true
  /\ JS.truthy (ADMIN_PASSWORD (env reconnect)) = true
  /\ List.find (admin_with_email "ops@example.com") (users visitor) = None
  /\ ensureAdminUser (H := plain) reconnect visitor
     = (visitor, inl (DuplicateKey "referralCode")).
Proof. repeat split. Defined.

Lemma admin_is_created_once :
  ensureAdminUser (H := plain) (ambient root_id 1000) (enter boot "")
    = (with_users (enter boot "") [root], inr "Admin created: root@example.com")
  /\ ensureAdminUser (H := plain) (ambient nair_id 7000) visitor
     = (visitor, inr "Admin already exists: root@example.com")
  /\ (exists ix, ensureAdminUser (H := plain) reconnect visitor
                 = (visitor, inl (DuplicateKey ix)))
  /\ fst (ensureAdminUser (H := plain) (ambient nair_id 7000)
            (fst (ensureAdminUser (H := plain) (ambient root_id 1000) (enter boot ""))))
     = fst (ensureAdminUser (H := plain) (ambient root_id 1000) (enter boot "")).
Proof.
  assert (Hfilled : forall s c, ~ blank (Some (String c s)))
    by (intros s c [B | B]; discriminate B).
  split; [|split; [|split]].
  - destruct (bootstrapAdmin_spec (ambient root_id 1000) (ambient root_id 1000)
                (enter boot "")) as (_ & _ & Hcreate & _).
    apply Hcreate; [apply Hfilled | apply Hfilled | intros u [] | intros u []].
  - destruct (bootstrapAdmin_spec (ambient nair_id 7000) (ambient nair_id 7000) visitor)
      as (_ & Hexists & _).
    apply Hexists; [apply Hfilled | apply Hfilled |].
    exists root. split; [left; reflexivity | split; reflexivity].
  - destruct (bootstrapAdmin_spec reconnect reconnect visitor) as (_ & _ & _ & Hdup & _).
    apply Hdup; [apply Hfilled | apply Hfilled | |].
    + intros u [<- | [<- | []]] [He Hr]; discriminate.
    + exists root. split; [left; reflexivity | right; reflexivity].
  - destruct (bootstrapAdmin_spec (ambient root_id 1000) (ambient nair_id 7000)
                (enter boot "")) as (_ & _ & _ & _ & Hidem).
    apply Hidem. reflexivity.
Defined.

Lemma twin_registration_stays_half_done :
  snd (post_register (H := plain) (ambient nair_id 7000)
         (Some "Asha Nair") (Some "nair@example.com") (Some "pw2") visitor)
    = inr (Render "register" (LError (Some "Error aaya.")))
  /\ session (fst (post_register (H := plain) (ambient nair_id 7000)
                     (Some "Asha Nair") (Some "nair@example.com") (Some "pw2") visitor))
     = session visitor
  /\ List.map user_referralCode
       (users (fst (post_register (H := plain) (ambient nair_id 7000)
                      (Some "Asha Nair") (Some "nair@example.com") (Some "pw2") visitor)))
     = ["admin"; "ashaa001100"; "temp"].
Proof.
  destruct (register_failure_keeps_placeholder (ambient nair_id 7000)
              (Some "Asha Nair") (Some "nair@example.com") (Some "pw2") visitor)
    as (E & Hs & _).
  - reflexivity.
  - reflexivity.
  - reflexivity.
  - intros u [<- | [<- | []]]; discriminate.
  - intros u [<- | [<- | []]]; discriminate.
  - exists asha. split; [right; left; reflexivity | vm_compute; reflexivity].
  - split; [rewrite E; reflexivity | split; [exact Hs | rewrite E; reflexivity]].
Defined.

Lemma stale_session_passes_the_guard :
  (exists au, loadSessionData stale = (stale, inr (mkResLocals None au)))
  /\ admits requireAffiliate stale
  /\ (forall next, requireAdmin next stale = (stale, inr (Redirect "/admin/login"))).
Proof.
  destruct (guards_test_slot_presence stale) as (_ & _ & _ & Hadmin & Hstale & _).
  destruct (Hstale "65a00000000000000000dead") as [Hload Hpass];
    [reflexivity | discriminate | reflexivity |].
  split; [exact Hload | split; [exact Hpass | apply Hadmin; reflexivity]].
Defined.

End Examples.

(** ** Further properties of the routes *)

(** *** Guards and footprints *)

Ltac frame_prim :=
  unfold preserves, same_users, same_clicks, same_payouts, same_session; intros ?;
  unfold User_create, User_save, Click_create, PayoutRequest_create,
    PayoutRequest_findByIdAndUpdate, session_set;
  run_handler;
  repeat match goal with
         | |- context [match ?x with _ => _ end] => destruct x
         end;
  reflexivity.

Section Footprints.

Context `{Bcrypt}.

Lemma loadSessionData_reads (w : World) :
  exists locals, loadSessionData w = (w, inr locals).
Proof.
  unfold loadSessionData, User_findById, User_findOne. run_handler.
  destruct (JS.truthy (slot w "userId")), (JS.truthy (slot w "adminId")); cbn; eauto.
Qed.

(** X1. A request to a guarded route from a session whose slot is not set
    is answered with the redirect to the login page of that guard, and the
    world (database and session) is as before: without an admin session no
    payout is adjudicated and no admin page is rendered, without an
    affiliate session no payout is requested. *)
Theorem unauthenticated_request_is_redirected (a : Ambient) (req : Request)
    (slot_name : string) (w : World) :
  guarded_by req = Some slot_name -> JS.truthy (slot w slot_name) = false ->
  app a req w = (w, inr (Redirect (login_page slot_name))).
Proof.
  intros Hg Hs. destruct (loadSessionData_reads w) as [locals Hl].
  unfold app. unfold mbind at 1, M_bind. rewrite Hl.
  destruct req; cbn in Hg; try discriminate Hg; injection Hg as <-;
    unfold get_dashboard, post_payout_request, get_admin, get_admin_affiliates,
      get_admin_clicks, get_admin_payouts, post_admin_payouts_approve,
      post_admin_payouts_reject;
    rewrite ?requireAffiliate_cases, ?requireAdmin_cases, Hs; reflexivity.
Qed.

(** X2. What a request can write.  Accounts change only on POST /register,
    clicks only on GET /r/:code, payout requests only on POST
    /payout-request and the two adjudication routes, and the session only on
    register, the two logins and the two logouts. *)
Theorem request_footprint (a : Ambient) (req : Request) (w : World) :
  (is_register req = false -> users (fst (app a req w)) = users w)
  /\ (is_click req = false -> clicks (fst (app a req w)) = clicks w)
  /\ (is_payout_write req = false -> payouts (fst (app a req w)) = payouts w)
  /\ (is_session_write req = false -> session (fst (app a req w)) = session w).
Proof.
  repeat split; intros Hreq.
  - assert (Hr : forall w0, same_users w0 w0) by reflexivity.
    assert (Ht : forall w1 w2 w3, same_users w1 w2 -> same_users w2 w3 -> same_users w1 w3)
      by (unfold same_users; intros; congruence).
    revert w. change (preserves same_users (app a req)).
    destruct req; try discriminate Hreq; unfold_routes; preserve_tac frame_prim.
  - assert (Hr : forall w0, same_clicks w0 w0) by reflexivity.
    assert (Ht : forall w1 w2 w3, same_clicks w1 w2 -> same_clicks w2 w3 -> same_clicks w1 w3)
      by (unfold same_clicks; intros; congruence).
    revert w. change (preserves same_clicks (app a req)).
    destruct req; try discriminate Hreq; unfold_routes; preserve_tac frame_prim.
  - assert (Hr : forall w0, same_payouts w0 w0) by reflexivity.
    assert (Ht : forall w1 w2 w3, same_payouts w1 w2 -> same_payouts w2 w3 ->
                                  same_payouts w1 w3)
      by (unfold same_payouts; intros; congruence).
    revert w. change (preserves same_payouts (app a req)).
    destruct req; try discriminate Hreq; unfold_routes; preserve_tac frame_prim.
  - assert (Hr : forall w0, same_session w0 w0) by reflexivity.
    assert (Ht : forall w1 w2 w3, same_session w1 w2 -> same_session w2 w3 ->
                                  same_session w1 w3)
      by (unfold same_session; intros; congruence).
    revert w. change (preserves same_session (app a req)).
    destruct req; try discriminate Hreq; unfold_routes; preserve_tac frame_prim.
Qed.

End Footprints.

(** *** Invariants of the collections *)

Lemma payouts_keep_refl (ps : list PayoutRequest) : payouts_keep ps ps.
Proof. intros i p Hp. exists p. auto. Qed.

Lemma payouts_keep_trans (ps1 ps2 ps3 : list PayoutRequest) :
  payouts_keep ps1 ps2 -> payouts_keep ps2 ps3 -> payouts_keep ps1 ps3.
Proof.
  intros H12 H23 i p Hp. destruct (H12 i p Hp) as (p2 & Hp2 & Hi2 & Ha2 & Hm2 & Hc2).
  destruct (H23 i p2 Hp2) as (p3 & Hp3 & Hi3 & Ha3 & Hm3 & Hc3).
  exists p3. repeat split; congruence.
Qed.

Lemma payouts_keep_snoc (ps : list PayoutRequest) (p : PayoutRequest) :
  payouts_keep ps (ps ++ [p]).
Proof.
  intros i q Hq. exists q. rewrite lookup_app_l by (eapply lookup_lt_Some; eauto). auto.
Qed.

Lemma payouts_keep_update (id : ObjectId) (st : Status) (t : Date)
    (ps : list PayoutRequest) :
  payouts_keep ps (update_first id (adjudicated st t) ps).
Proof.
  induction ps as [|q ps IH]; intros i p Hp; [discriminate|].
  cbn. destruct (String.eqb (payout_id q) id).
  - destruct i as [|i]; cbn in *.
    + inversion Hp; subst. exists (adjudicated st t p). auto.
    + eauto 10.
  - destruct i as [|i]; cbn in *; [eauto 10|]. apply IH, Hp.
Qed.

Lemma payouts_ok_update (id : ObjectId) (st : Status) (t : Date)
    (ps : list PayoutRequest) :
  st <> pending -> Forall payout_ok ps ->
  Forall payout_ok (update_first id (adjudicated st t) ps).
Proof.
  intros Hst. induction 1 as [|q ps Hq Hps IH]; cbn; [constructor|].
  destruct (String.eqb (payout_id q) id); constructor; try assumption.
  destruct Hq as (_ & Ham & Haf). repeat split; cbn; try assumption;
    intros E; [contradiction | discriminate].
Qed.

Ltac payouts_keep_prim :=
  unfold preserves; intros ?; unfold world_payouts_keep;
  first
    [ unfold User_create; run_handler;
      destruct (violated_index _ _); apply payouts_keep_refl
    | unfold User_save; run_handler;
      destruct (existsb _ _); [destruct (violated_index _ _)|];
      apply payouts_keep_refl
    | unfold session_set, Click_create; run_handler; apply payouts_keep_refl
    | unfold PayoutRequest_create; run_handler; apply payouts_keep_snoc
    | unfold PayoutRequest_findByIdAndUpdate; destruct (castObjectId _); run_handler;
      [apply payouts_keep_update | apply payouts_keep_refl] ].

Ltac payouts_ok_prim :=
  unfold preserves; intros ?; unfold world_keeps_payouts_ok;
  first
    [ unfold User_create; run_handler;
      destruct (violated_index _ _); tauto
    | unfold User_save; run_handler;
      destruct (existsb _ _); [destruct (violated_index _ _)|]; tauto
    | unfold session_set, Click_create; run_handler; tauto
    | unfold PayoutRequest_findByIdAndUpdate; destruct (castObjectId _); run_handler;
      [apply payouts_ok_update; discriminate | tauto] ].

Ltac clicks_prim :=
  unfold preserves; intros ?; unfold clicks_extend;
  first
    [ unfold Click_create; run_handler; eexists; reflexivity
    | exists []; rewrite app_nil_r;
      unfold User_create, User_save, PayoutRequest_create,
        PayoutRequest_findByIdAndUpdate, session_set;
      run_handler;
      repeat match goal with
             | |- context [match ?x with _ => _ end] => destruct x
             end;
      reflexivity ].

Lemma clicks_extend_preorder :
  (forall w, clicks_extend w w)
  /\ (forall w1 w2 w3, clicks_extend w1 w2 -> clicks_extend w2 w3 -> clicks_extend w1 w3).
Proof.
  split.
  - intros w. exists []. rewrite app_nil_r. reflexivity.
  - intros w1 w2 w3 [n1 H1] [n2 H2]. exists (n1 ++ n2)%list.
    rewrite H2, H1, app_assoc. reflexivity.
Qed.

Section Collections.

Context `{Bcrypt}.

Lemma app_payouts_keep (a : Ambient) (req : Request) :
  preserves world_payouts_keep (app a req).
Proof.
  assert (Hr : forall w, world_payouts_keep w w) by (intros w; apply payouts_keep_refl).
  assert (Ht : forall w1 w2 w3, world_payouts_keep w1 w2 -> world_payouts_keep w2 w3 ->
                                world_payouts_keep w1 w3)
    by (intros w1 w2 w3; apply payouts_keep_trans).
  destruct req; unfold_routes; preserve_tac payouts_keep_prim.
Qed.

Lemma startup_payouts_same (a : Ambient) (w : World) :
  payouts (fst (startup a w)) = payouts w /\ clicks (fst (startup a w)) = clicks w.
Proof.
  assert (Hp : preserves same_payouts (startup a)).
  { assert (Hr : forall w0, same_payouts w0 w0) by reflexivity.
    assert (Ht : forall w1 w2 w3, same_payouts w1 w2 -> same_payouts w2 w3 ->
                                  same_payouts w1 w3)
      by (unfold same_payouts; intros; congruence).
    unfold_routes; preserve_tac frame_prim. }
  assert (Hc : preserves same_clicks (startup a)).
  { assert (Hr : forall w0, same_clicks w0 w0) by reflexivity.
    assert (Ht : forall w1 w2 w3, same_clicks w1 w2 -> same_clicks w2 w3 ->
                                  same_clicks w1 w3)
      by (unfold same_clicks; intros; congruence).
    unfold_routes; preserve_tac frame_prim. }
  split; [apply Hp | apply Hc].
Qed.

Lemma step_payouts_keep (sv : Server) (e : Event) :
  payouts_keep (db_payouts sv) (db_payouts (step sv e)).
Proof.
  destruct e as [a | a sid req]; cbn.
  - rewrite (proj1 (startup_payouts_same a (mkWorld _ _ _ _))). apply payouts_keep_refl.
  - apply (app_payouts_keep a req (enter sv sid)).
Qed.

(** X3. The fields of a payout request that are written at creation are
    never written again: over any sequence of start-ups and requests a
    request keeps its place, id, affiliate, amount and creation date. *)
Theorem payout_request_fields_are_fixed (sv : Server) (es : list Event) (i : nat)
    (p : PayoutRequest) :
  db_payouts sv !! i = Some p ->
  exists p', db_payouts (run sv es) !! i = Some p'
             /\ payout_id p' = payout_id p
             /\ payout_affiliate p' = payout_affiliate p
             /\ payout_amount p' = payout_amount p
             /\ payout_createdAt p' = payout_createdAt p.
Proof.
  revert sv i p. induction es as [|e es IH]; intros sv i p Hp; cbn.
  - exists p. auto.
  - destruct (step_payouts_keep sv e i p Hp) as (p1 & Hp1 & Hi1 & Ha1 & Hm1 & Hc1).
    destruct (IH (step sv e) i p1 Hp1) as (p2 & Hp2 & Hi2 & Ha2 & Hm2 & Hc2).
    exists p2. split; [exact Hp2 | repeat split; congruence].
Qed.

Lemma app_keeps_payouts_ok (a : Ambient) (req : Request) :
  preserves world_keeps_payouts_ok (app a req).
Proof.
  assert (Hr : forall w, world_keeps_payouts_ok w w) by (intros w Hw; exact Hw).
  assert (Ht : forall w1 w2 w3, world_keeps_payouts_ok w1 w2 -> world_keeps_payouts_ok w2 w3 ->
                                world_keeps_payouts_ok w1 w3)
    by (unfold world_keeps_payouts_ok; auto).
  destruct req;
    try (unfold_routes; preserve_tac payouts_ok_prim; fail).
  (* POST /payout-request: the amount that passes the test is above zero *)
  intros w Hok. destruct (loadSessionData_reads w) as [locals Hl].
  unfold app. unfold mbind at 1, M_bind. rewrite Hl.
  unfold post_payout_request. rewrite requireAffiliate_cases.
  destruct (JS.truthy (slot w "userId")) eqn:Hs; [|exact Hok].
  destruct (negb (JS.truthy amount)); [exact Hok|].
  destruct (JS.isNaN_Num (JS.StringToNumber (str amount))) eqn:Hn; [exact Hok|].
  destruct (JS.le0 (JS.StringToNumber (str amount))) eqn:Hl0; [exact Hok|].
  unfold PayoutRequest_create. run_handler.
  apply Forall_app. split; [exact Hok|]. constructor; [|constructor].
  repeat split; cbn; try tauto; try exact Hs.
  destruct (JS.StringToNumber (str amount)) as [|n|q]; cbn in *;
    [discriminate | exact Hl0 |].
  apply Qnot_le_lt. rewrite <- Qle_bool_iff, Hl0. discriminate.
Qed.

End Collections.


Lemma NoDup_map_without {K : Type} (f : User -> K) (id : ObjectId) (us : list User) :
  NoDup (List.map f us) -> NoDup (List.map f (without_id id us)).
Proof.
  induction us as [|u us IH]; cbn; intros Hnd; [constructor|].
  apply NoDup_cons_In in Hnd as [Hu Hl].
  destruct (String.eqb (user_id u) id); cbn; [exact Hl|].
  apply NoDup_cons_In. split; [|auto]. rewrite in_map_iff. intros (x & He & Hin).
  apply Hu, in_map_iff. exists x. split; [exact He|]. eapply in_without_id, Hin.
Qed.

Lemma NoDup_map_replace {K : Type} (f : User -> K) (d : User) (us : list User) :
  (forall u, In u (without_id (user_id d) us) -> f u <> f d) ->
  NoDup (List.map f us) -> NoDup (List.map f (replace_id d us)).
Proof.
  intros Hv. induction us as [|u us IH]; cbn in *; intros Hnd; [constructor|].
  apply NoDup_cons_In in Hnd as [Hu Hl].
  destruct (String.eqb (user_id u) (user_id d)); cbn in *.
  - apply NoDup_cons_In. split; [|exact Hl]. rewrite in_map_iff. intros (x & He & Hin).
    exact (Hv x Hin He).
  - apply NoDup_cons_In. split.
    + rewrite in_map_iff. intros (x & He & Hin).
      destruct (in_replace_id _ _ _ Hin) as [-> | Hin'].
      * exact (Hv u (or_introl eq_refl) (eq_sym He)).
      * apply Hu, in_map_iff. exists x. split; [exact He|].
        eapply in_without_id, Hin'.
    + apply IH; [|exact Hl]. intros x Hx. apply Hv. auto.
Qed.

Lemma codes_unique_create (doc : User) (us : list User) :
  violated_index doc us = None -> codes_unique us -> codes_unique (us ++ [doc]).
Proof.
  intros Hv Hu. unfold codes_unique. rewrite List.map_app. cbn.
  apply NoDup_snoc_fresh; [exact Hu|].
  rewrite in_map_iff. intros (u & He & Hin).
  destruct (proj1 (violated_index_none _ _) Hv u Hin). tauto.
Qed.

Lemma codes_unique_save (d : User) (us : list User) :
  violated_index d (without_id (user_id d) us) = None ->
  codes_unique us -> codes_unique (replace_id d us).
Proof.
  intros Hv. rewrite violated_index_none in Hv. apply NoDup_map_replace.
  intros u Hu. apply (Hv u Hu).
Qed.

Ltac code_prim :=
  first
    [ unfold preserves; intros ?; unfold world_keeps_codes_unique;
      first
        [ unfold User_create; run_handler;
          match goal with
          | |- context [violated_index ?d ?l] =>
              destruct (violated_index d l) eqn:?; cbn;
              [tauto | apply codes_unique_create; assumption]
          end
        | unfold User_save; run_handler;
          match goal with
          | |- context [existsb ?p ?l] => destruct (existsb p l); [|cbn; tauto]
          end;
          match goal with
          | |- context [violated_index ?d ?l] =>
              destruct (violated_index d l) eqn:?; cbn;
              [tauto | apply (codes_unique_save d); assumption]
          end
        | unfold session_set, Click_create, PayoutRequest_create,
            PayoutRequest_findByIdAndUpdate; try destruct (castObjectId _);
          run_handler; tauto ] ].

Section Reachable.

Context `{Bcrypt}.

Lemma step_keeps_codes_unique (sv : Server) (e : Event) :
  codes_unique (db_users sv) -> codes_unique (db_users (step sv e)).
Proof.
  assert (Hr : forall w, world_keeps_codes_unique w w) by (intros w Hw; exact Hw).
  assert (Ht : forall w1 w2 w3, world_keeps_codes_unique w1 w2 ->
                                world_keeps_codes_unique w2 w3 ->
                                world_keeps_codes_unique w1 w3)
    by (unfold world_keeps_codes_unique; auto).
  destruct e as [a | a sid req]; cbn.
  - assert (Hs : preserves world_keeps_codes_unique (startup a))
      by (unfold_routes; preserve_tac code_prim).
    apply (Hs (mkWorld _ _ _ _)).
  - assert (Ha : preserves world_keeps_codes_unique (app a req))
      by (destruct req; unfold_routes; preserve_tac code_prim).
    apply (Ha (enter sv sid)).
Qed.

Lemma step_keeps_payouts_ok (sv : Server) (e : Event) :
  Forall payout_ok (db_payouts sv) -> Forall payout_ok (db_payouts (step sv e)).
Proof.
  destruct e as [a | a sid req]; cbn.
  - rewrite (proj1 (startup_payouts_same a (mkWorld _ _ _ _))). auto.
  - apply (app_keeps_payouts_ok a req (enter sv sid)).
Qed.

Lemma step_clicks_extend (sv : Server) (e : Event) :
  exists new, db_clicks (step sv e) = (db_clicks sv ++ new)%list.
Proof.
  destruct clicks_extend_preorder as [Hr Ht].
  destruct e as [a | a sid req]; cbn.
  - rewrite (proj2 (startup_payouts_same a (mkWorld _ _ _ _))). cbn.
    exists []. rewrite app_nil_r. reflexivity.
  - assert (Ha : preserves clicks_extend (app a req))
      by (destruct req; unfold_routes; preserve_tac clicks_prim).
    apply (Ha (enter sv sid)).
Qed.

Lemma reachable_ind (P : Server -> Prop) :
  P boot -> (forall sv e, P sv -> P (step sv e)) -> forall sv, reachable sv -> P sv.
Proof.
  intros H0 Hstep sv [es ->]. unfold run.
  assert (Hgen : forall sv0, P sv0 -> P (fold_left step es sv0)).
  { induction es as [|e es IH]; intros sv0 Hsv0; cbn; [exact Hsv0|].
    apply IH, Hstep, Hsv0. }
  apply Hgen, H0.
Qed.

(** X4. On every server reached from boot, no two accounts have the same
    email and no two accounts have the same referral code, whatever their
    roles: the unique indexes hold across every route and the start-up. *)
Theorem accounts_are_unique (sv : Server) :
  reachable sv -> emails_unique (db_users sv) /\ codes_unique (db_users sv).
Proof.
  intros Hreach. split; [exact (reachable_emails_unique sv Hreach)|].
  revert sv Hreach. apply reachable_ind; [constructor|].
  intros sv e. apply step_keeps_codes_unique.
Qed.

(** X5. On every server reached from boot, every stored payout request is
    pending exactly while it has no processing date, its amount is a Number
    above zero (never NaN, zero or negative), and it names an affiliate. *)
Theorem payout_requests_are_well_formed (sv : Server) :
  reachable sv -> Forall payout_ok (db_payouts sv).
Proof.
  revert sv. apply reachable_ind; [constructor|].
  intros sv e. apply step_keeps_payouts_ok.
Qed.

(** X6. Clicks are only ever appended: after any sequence of start-ups and
    requests the collection of clicks starts with the clicks it had, in the
    same order and unchanged. *)
Theorem clicks_are_append_only (sv : Server) (es : list Event) :
  exists new, db_clicks (run sv es) = (db_clicks sv ++ new)%list.
Proof.
  revert sv. induction es as [|e es IH]; intros sv; cbn.
  - exists []. rewrite app_nil_r. reflexivity.
  - destruct (step_clicks_extend sv e) as [n1 H1]. destruct (IH (step sv e)) as [n2 H2].
    exists (n1 ++ n2)%list. unfold run in H2. rewrite H2, H1, app_assoc. reflexivity.
Qed.

End Reachable.

(** *** Registration and login *)

Lemma replace_id_snoc_fresh (l : list User) (d d' : User) :
  user_id d' = user_id d ->
  existsb (fun u => String.eqb (user_id u) (user_id d)) l = false ->
  replace_id d' (l ++ [d]) = (l ++ [d'])%list.
Proof.
  intros Hid. induction l as [|u l IH]; cbn; intros Hno.
  - rewrite Hid, String.eqb_refl. reflexivity.
  - apply orb_false_iff in Hno as [Hu Hl]. rewrite Hid, Hu, IH by exact Hl.
    reflexivity.
Qed.

Lemma find_unique_email (p : User -> bool) (us : list User) (u : User) :
  emails_unique us -> In u us -> p u = true ->
  (forall x, p x = true -> user_email x = user_email u) ->
  List.find p us = Some u.
Proof.
  intros Huniq Hin Hp Hemail.
  destruct (find_is_some p us u Hin Hp) as [y Hy]. rewrite Hy.
  apply find_some in Hy as [Hiny Hpy]. f_equal.
  eapply emails_unique_inj; eauto.
Qed.

Section Registration.

Context `{Bcrypt}.

Lemma post_register_goes_through (a : Ambient) (name email password : option string)
    (w : World) :
  JS.truthy name = true -> JS.truthy email = true -> JS.truthy password = true ->
  (forall u, In u (users w) -> user_email u <> str email) ->
  (forall u, In u (users w) -> user_referralCode u <> "temp") ->
  (forall u, In u (users w) ->
     user_referralCode u <> generateReferralCode (Some (str name)) (objectId a) (random a)) ->
  (forall u, In u (users w) -> user_id u <> objectId a) ->
  let account :=
    mkUser (objectId a) (str name) (str email) (bcrypt_hash (str password) 10 (salt a))
      (generateReferralCode (Some (str name)) (objectId a) (random a))
      affiliate (now a) (now a) in
  let w' := mkWorld (users w ++ [account]) (clicks w) (payouts w)
              (<["userId" := Str (objectId a)]> (session w)) in
  post_register a name email password w = (w', inr (Redirect "/dashboard"))
  /\ ((forall pw s, bcrypt_compare pw (bcrypt_hash pw 10 s) = true) ->
      forall browser : gmap string SVal,
        post_login email password (with_session w' browser)
          = (with_session w' (<["userId" := Str (objectId a)]> browser),
             inr (Redirect "/dashboard"))).
Proof.
  intros Hn He Hp Hemail Htemp Hcode Hid account w'. split.
  - unfold post_register. rewrite Hn, He, Hp. cbn [negb orb].
    unfold User_findOne, User_create, User_save, session_set. run_handler.
    rewrite find_none_intro by (intros x Hx; apply String.eqb_neq, Hemail, Hx).
    cbn.
    rewrite (proj2 (violated_index_none _ _))
      by (intros x Hx; cbn; split; [apply Hemail | apply Htemp]; exact Hx).
    cbn. rewrite existsb_app. cbn. rewrite String.eqb_refl, orb_true_r. cbn.
    set (placeholder := mkUser (objectId a) (str name) (str email)
                          (bcrypt_hash (str password) 10 (salt a)) "temp" affiliate
                          (now a) (now a)).
    assert (Hfresh : existsb (fun u => String.eqb (user_id u) (user_id placeholder))
                       (users w) = false).
    { apply existsb_false_intro. intros x Hx. apply String.eqb_neq, Hid, Hx. }
    change (without_id (objectId a) (users w ++ [placeholder]))
      with (without_id (user_id placeholder) (users w ++ [placeholder])).
    rewrite without_id_snoc, Hfresh. fold account.
    rewrite (proj2 (violated_index_none account (users w)))
      by (intros x Hx; cbn; split; [apply Hemail | apply Hcode]; exact Hx).
    cbn. rewrite (replace_id_snoc_fresh (users w) placeholder account eq_refl Hfresh).
    reflexivity.
  - intros Hlaw browser.
    assert (Hfe : ~ blank email) by (rewrite <- truthy_blank; congruence).
    assert (Hfp : ~ blank password) by (rewrite <- truthy_blank; congruence).
    rewrite post_login_filled by assumption. cbn [users with_session w'].
    rewrite find_snoc.
    rewrite find_none_intro.
    2:{ intros x Hx. apply andb_false_iff. left. apply String.eqb_neq, Hemail, Hx. }
    cbn. rewrite String.eqb_refl. cbn.
    assert (is_role affiliate account = true) as -> by (apply is_role_true; reflexivity).
    unfold account at 1. cbn [user_passwordHash]. rewrite Hlaw. reflexivity.
Qed.

(** X7. A registration that goes through.  With three non-empty strings as
    fields, an email and a generated referral code that no account has, no
    leftover account with the code "temp", and a fresh id, POST /register
    appends exactly one account (role affiliate, the generated code, the
    hash of the password), stores its id in the [userId] slot of the
    session, leaves clicks, payouts and the rest of the session alone and
    redirects to /dashboard.  If bcrypt accepts the password a hash was
    made from, a login with the same email and password then succeeds from
    any browser and stores the same id. *)
Theorem registration_creates_account (a : Ambient) (name email password : string)
    (w : World) :
  name <> "" -> email <> "" -> password <> "" ->
  (forall u, In u (users w) -> user_email u <> email) ->
  (forall u, In u (users w) -> user_referralCode u <> "temp") ->
  (forall u, In u (users w) ->
     user_referralCode u <> generateReferralCode (Some name) (objectId a) (random a)) ->
  (forall u, In u (users w) -> user_id u <> objectId a) ->
  let account :=
    mkUser (objectId a) name email (bcrypt_hash password 10 (salt a))
      (generateReferralCode (Some name) (objectId a) (random a))
      affiliate (now a) (now a) in
  post_register a (Some name) (Some email) (Some password) w
    = (mkWorld (users w ++ [account]) (clicks w) (payouts w)
         (<["userId" := Str (objectId a)]> (session w)),
       inr (Redirect "/dashboard"))
  /\ ((forall pw s, bcrypt_compare pw (bcrypt_hash pw 10 s) = true) ->
      forall browser : gmap string SVal,
        post_login (Some email) (Some password)
          (mkWorld (users w ++ [account]) (clicks w) (payouts w) browser)
          = (mkWorld (users w ++ [account]) (clicks w) (payouts w)
               (<["userId" := Str (objectId a)]> browser),
             inr (Redirect "/dashboard"))).
Proof.
  intros Hn He Hp Hemail Htemp Hcode Hid.
  assert (Hfilled : forall s : string, s <> "" -> JS.truthy (Some s) = true)
    by (intros [|c s] Hs; [contradiction | reflexivity]).
  exact (post_register_goes_through a (Some name) (Some email) (Some password) w
           (Hfilled name Hn) (Hfilled email He) (Hfilled password Hp)
           Hemail Htemp Hcode Hid).
Qed.

(** X8. A leftover account with the referral code "temp" blocks every
    later registration: with the three fields filled, the answer is the
    duplicate-email message when the email is taken and the generic error
    otherwise, and in both cases the world is unchanged (no account is
    created, no session is established). *)
Theorem placeholder_blocks_registration (a : Ambient) (name email password : option string)
    (w : World) :
  JS.truthy name = true -> JS.truthy email = true -> JS.truthy password = true ->
  (exists u, In u (users w) /\ user_referralCode u = "temp") ->
  ((exists u, In u (users w) /\ user_email u = str email) ->
   post_register a name email password w
     = (w, inr (Render "register" (LError (Some "Ye email already registered hai.")))))
  /\ ((forall u, In u (users w) -> user_email u <> str email) ->
      post_register a name email password w
        = (w, inr (Render "register" (LError (Some "Error aaya."))))).
Proof.
  intros Hn He Hp (t & Hint & Htemp). split.
  - intros (u & Hin & Hu). unfold post_register. rewrite Hn, He, Hp. cbn [negb orb].
    unfold User_findOne. run_handler.
    destruct (find_is_some (fun u0 => String.eqb (user_email u0) (str email)) _ u Hin)
      as [y ->]; [apply String.eqb_eq, Hu | reflexivity].
  - intros Hemail. unfold post_register. rewrite Hn, He, Hp. cbn [negb orb].
    unfold User_findOne, User_create. run_handler.
    rewrite find_none_intro by (intros x Hx; apply String.eqb_neq, Hemail, Hx).
    cbn.
    match goal with
    | |- context [violated_index ?d ?l] =>
        destruct (violated_index_some d l t Hint (or_intror Htemp)) as [ix ->]
    end.
    reflexivity.
Qed.

(** X9. A login writes its own slot only.  When emails are unique and an
    account of the right role has the email and bcrypt accepts the password
    against its hash, POST /login stores the id of that account in [userId]
    and POST /admin/login stores it in [adminId]; the other slot, the rest
    of the session and the database are unchanged. *)
Theorem login_establishes_its_slot (email password : string) (u : User) (w : World) :
  email <> "" -> password <> "" ->
  emails_unique (users w) -> In u (users w) -> user_email u = email ->
  bcrypt_compare password (user_passwordHash u) = true ->
  (user_role u = affiliate ->
   post_login (Some email) (Some password) w
     = (with_session w (<["userId" := Str (user_id u)]> (session w)),
        inr (Redirect "/dashboard"))
   /\ slot (fst (post_login (Some email) (Some password) w)) "adminId" = slot w "adminId")
  /\ (user_role u = admin ->
      post_admin_login (Some email) (Some password) w
        = (with_session w (<["adminId" := Str (user_id u)]> (session w)),
           inr (Redirect "/admin"))
      /\ slot (fst (post_admin_login (Some email) (Some password) w)) "userId"
         = slot w "userId").
Proof.
  intros He Hp Huniq Hin Hu Hcmp. split; intros Hrole.
  - assert (E : post_login (Some email) (Some password) w
                = (with_session w (<["userId" := Str (user_id u)]> (session w)),
                   inr (Redirect "/dashboard"))).
    { rewrite post_login_filled
        by (intros [B | B]; [discriminate B | injection B as B; contradiction]).
      rewrite (find_unique_email _ (users w) u Huniq Hin).
      - change (str (Some password)) with password. rewrite Hcmp. reflexivity.
      - change (str (Some email)) with email.
        rewrite andb_true_iff, String.eqb_eq, is_role_true. auto.
      - intros x Hx. apply andb_true_iff in Hx as [Hx _].
        apply String.eqb_eq in Hx. change (str (Some email)) with email in Hx. congruence. }
    rewrite E. split; [reflexivity|]. unfold slot. cbn.
    rewrite lookup_insert_ne by discriminate. reflexivity.
  - assert (E : post_admin_login (Some email) (Some password) w
                = (with_session w (<["adminId" := Str (user_id u)]> (session w)),
                   inr (Redirect "/admin"))).
    { unfold post_admin_login, User_findOne, session_set. run_handler.
      rewrite (find_unique_email _ (users w) u Huniq Hin).
      - rewrite Hcmp. reflexivity.
      - rewrite andb_true_iff, String.eqb_eq, is_role_true. auto.
      - intros x Hx. apply andb_true_iff in Hx as [Hx _].
        apply String.eqb_eq in Hx. congruence. }
    rewrite E. split; [reflexivity|]. unfold slot. cbn.
    rewrite lookup_insert_ne by discriminate. reflexivity.
Qed.

Lemma post_admin_login_cases (email password : option string) (u : User) (w : World) :
  ((forall x, In x (users w) -> ~ (Some (user_email x) = email /\ user_role x = admin)) ->
   post_admin_login email password w
     = (w, inr (Render "admin-login" (LError (Some "Admin not found")))))
  /\ (emails_unique (users w) -> In u (users w) -> Some (user_email u) = email ->
      user_role u = admin ->
      (forall p, password = Some p -> bcrypt_compare p (user_passwordHash u) = false ->
         post_admin_login email password w
           = (w, inr (Render "admin-login" (LError (Some "Wrong password")))))
      /\ (password = None ->
          post_admin_login email password w
            = (w, inl (Error "Illegal arguments: undefined, string")))).
Proof.
  split.
  - intros Hnone. unfold post_admin_login, User_findOne. run_handler.
    rewrite find_none_intro; [reflexivity|].
    intros x Hx. apply not_true_iff_false. rewrite andb_true_iff, is_role_true.
    intros [He Hr]. apply (Hnone x Hx). split; [|exact Hr].
    destruct email as [e|]; cbn in He; [|discriminate].
    apply String.eqb_eq in He. congruence.
  - intros Huniq Hin He Hr.
    assert (Hfind : List.find (fun x => opt_eqb email (user_email x) && is_role admin x)
                      (users w) = Some u).
    { apply (find_unique_email _ (users w) u Huniq Hin).
      - subst email. cbn. rewrite String.eqb_refl. apply is_role_true, Hr.
      - intros x Hx. apply andb_true_iff in Hx as [Hx _]. subst email. cbn in Hx.
        apply String.eqb_eq in Hx. congruence. }
    split.
    + intros p -> Hcmp. unfold post_admin_login, User_findOne. run_handler.
      rewrite Hfind, Hcmp. reflexivity.
    + intros ->. unfold post_admin_login, User_findOne. run_handler.
      rewrite Hfind. reflexivity.
Qed.

(** X10. Admin login, for an email field that is a string and a password
    field that is a string or absent, tells its failures apart and throws
    on a missing password.  When no admin-role account has the email, the
    answer is "Admin not found"; when the account of that email is an admin
    and bcrypt rejects the password it is "Wrong password"; when it is an
    admin and the password field is missing from the body [bcrypt.compare]
    throws and no response is rendered.  In all cases the world is
    unchanged. *)
Theorem admin_login_failures (email : string) (password : option string) (u : User)
    (w : World) :
  ((forall x, In x (users w) -> ~ (user_email x = email /\ user_role x = admin)) ->
   post_admin_login (Some email) password w
     = (w, inr (Render "admin-login" (LError (Some "Admin not found")))))
  /\ (emails_unique (users w) -> In u (users w) -> user_email u = email ->
      user_role u = admin ->
      (forall p : string, password = Some p ->
         bcrypt_compare p (user_passwordHash u) = false ->
         post_admin_login (Some email) password w
           = (w, inr (Render "admin-login" (LError (Some "Wrong password")))))
      /\ (password = None ->
          post_admin_login (Some email) password w
            = (w, inl (Error "Illegal arguments: undefined, string")))).
Proof.
  split.
  - intros Hnone. apply (proj1 (post_admin_login_cases (Some email) password u w)).
    intros x Hx [E Hr]. apply (Hnone x Hx). split; [congruence | exact Hr].
  - intros Huniq Hin He Hr.
    apply (proj2 (post_admin_login_cases (Some email) password u w) Huniq Hin);
      [congruence | exact Hr].
Qed.

End Registration.

(** *** Listings *)

Lemma insert_desc_perm {A : Type} (key : A -> Z) (x : A) (l : list A) :
  Permutation (insert_desc key x l) (x :: l).
Proof.
  induction l as [|y l IH]; cbn; [reflexivity|].
  destruct (key y <? key x)%Z; [reflexivity|].
  rewrite IH. apply perm_swap.
Qed.

Lemma sort_desc_perm {A : Type} (key : A -> Z) (l : list A) :
  Permutation (sort_desc key l) l.
Proof.
  unfold sort_desc. induction l as [|x l IH]; cbn; [reflexivity|].
  rewrite insert_desc_perm, IH. reflexivity.
Qed.

Lemma insert_desc_sorted {A : Type} (key : A -> Z) (x : A) (l : list A) :
  newest_first key l -> newest_first key (insert_desc key x l).
Proof.
  unfold newest_first. induction 1 as [|y l Hl IH Hy]; cbn.
  - constructor; constructor.
  - destruct (key y <? key x)%Z eqn:E.
    + apply Z.ltb_lt in E. constructor; [constructor; assumption|].
      constructor; [lia|]. eapply Forall_impl; [exact Hy|]. cbn. intros z Hz. lia.
    + apply Z.ltb_ge in E. constructor; [exact IH|].
      eapply Permutation_Forall; [symmetry; apply insert_desc_perm|].
      constructor; assumption.
Qed.

Lemma sort_desc_sorted {A : Type} (key : A -> Z) (l : list A) :
  newest_first key (sort_desc key l).
Proof.
  unfold sort_desc. induction l as [|x l IH]; cbn; [constructor|].
  apply insert_desc_sorted, IH.
Qed.

Lemma newest_first_take {A : Type} (key : A -> Z) (n : nat) (l : list A) :
  newest_first key l -> newest_first key (take n l).
Proof.
  unfold newest_first. intros Hl. revert n.
  induction Hl as [|y l Hl IH Hy]; intros [|n]; cbn; try constructor.
  - apply IH.
  - apply Forall_take, Hy.
Qed.



Section Listings.

(** X11. GET /admin/clicks for an admin session lists at most 100 clicks,
    newest first: the list is the first 100 of an ordering of the whole
    collection by creation date, latest first, each click joined with the
    account of its affiliate; the world is unchanged. *)
Theorem admin_clicks_lists_newest_hundred (w : World) :
  JS.truthy (slot w "adminId") = true ->
  exists ordered,
    Permutation ordered (clicks w)
    /\ newest_first click_createdAt ordered
    /\ get_admin_clicks w
       = (w, inr (Render "admin-clicks"
                    (LClicks (List.map (fun c => (c, populate w (Some (click_affiliate c))))
                                (take 100 ordered)))))
    /\ (length (take 100 ordered) <= 100)%nat
    /\ newest_first click_createdAt (take 100 ordered)
    /\ (forall c, In c (take 100 ordered) -> In c (clicks w)).
Proof.
  intros Ha. exists (sort_desc click_createdAt (clicks w)).
  pose proof (sort_desc_perm click_createdAt (clicks w)) as Hperm.
  pose proof (sort_desc_sorted click_createdAt (clicks w)) as Hsorted.
  repeat split; try assumption.
  - unfold get_admin_clicks. rewrite requireAdmin_cases, Ha. reflexivity.
  - rewrite length_take. lia.
  - apply newest_first_take, Hsorted.
  - intros c Hc. eapply Permutation_in; [exact Hperm|].
    apply list_elem_of_In. eapply subseteq_take. apply list_elem_of_In, Hc.
Qed.


End Listings.


(** *** Accounts and sessions over histories with fresh ids *)

Lemma string_app_assoc (s1 s2 s3 : string) : (s1 ++ s2) ++ s3 = s1 ++ s2 ++ s3.
Proof.
  induction s1 as [|c s1 IH]; [reflexivity|].
  change (String c ((s1 ++ s2) ++ s3) = String c (s1 ++ s2 ++ s3)). f_equal. exact IH.
Qed.

Lemma string_length_app (s1 s2 : string) :
  String.length (s1 ++ s2) = (String.length s1 + String.length s2)%nat.
Proof.
  induction s1 as [|c s1 IH]; [reflexivity|].
  change (S (String.length (s1 ++ s2)) = S (String.length s1 + String.length s2)).
  f_equal. exact IH.
Qed.

Lemma digit_char_is_not_n (n : Z) : JS.digit_char (n mod 10) <> "n"%char.
Proof.
  pose proof (Z.mod_pos_bound n 10 eq_refl) as Hm. unfold JS.digit_char. intros E.
  apply (f_equal N_of_ascii) in E. rewrite N_ascii_embedding in E by lia.
  cbn in E. lia.
Qed.

Lemma generated_code_is_not_admin (name : option string) (id : ObjectId)
    (rnd : UnitDouble) :
  generateReferralCode name id rnd <> "admin".
Proof.
  unfold generateReferralCode.
  rewrite (Z_toString_three_digits _ (random_suffix_range rnd)).
  set (n := JS.Math_floor _). set (base := JS.toLowerCase _).
  rewrite <- string_app_assoc. generalize (base ++ JS.slice_last 4 id). intros pre E.
  assert (Hlen : String.length pre = 2%nat).
  { apply (f_equal String.length) in E. rewrite string_length_app in E. cbn in E. lia. }
  assert (Hlast : JS.digit_char (n mod 10) = "n"%char).
  { destruct pre as [|c1 [|c2 [|c3 pre]]]; try discriminate Hlen.
    unfold three_digits in E. injection E as _ _ _ _ Hn. exact Hn. }
  exact (digit_char_is_not_n n Hlast).
Qed.

Section FreshHistories.

Context `{Bcrypt}.

Lemma app_same_users (a : Ambient) (req : Request) (w : World) :
  is_register req = false -> users (fst (app a req w)) = users w.
Proof.
  intros Hreq.
  assert (Hr : forall w0, same_users w0 w0) by reflexivity.
  assert (Ht : forall w1 w2 w3, same_users w1 w2 -> same_users w2 w3 -> same_users w1 w3)
    by (unfold same_users; intros; congruence).
  revert w. change (preserves same_users (app a req)).
  destruct req; try discriminate Hreq; unfold_routes; preserve_tac frame_prim.
Qed.

Lemma app_same_session (a : Ambient) (req : Request) (w : World) :
  is_session_write req = false -> session (fst (app a req w)) = session w.
Proof.
  intros Hreq.
  assert (Hr : forall w0, same_session w0 w0) by reflexivity.
  assert (Ht : forall w1 w2 w3, same_session w1 w2 -> same_session w2 w3 ->
                                same_session w1 w3)
    by (unfold same_session; intros; congruence).
  revert w. change (preserves same_session (app a req)).
  destruct req; try discriminate Hreq; unfold_routes; preserve_tac frame_prim.
Qed.

Lemma app_after_load (a : Ambient) (req : Request) (w : World) :
  exists locals, loadSessionData w = (w, inr locals)
  /\ app a req w
     = match req with
       | GET_root => get_root
       | GET_register => get_register
       | POST_register name email password => post_register a name email password
       | GET_login => get_login
       | POST_login email password => post_login email password
       | GET_logout => get_logout
       | GET_dashboard => get_dashboard a locals
       | POST_payout_request amount => post_payout_request a amount
       | GET_r code xff ra ua => get_r a code xff ra ua
       | GET_admin_login => get_admin_login
       | POST_admin_login email password => post_admin_login email password
       | GET_admin_logout => get_admin_logout
       | GET_admin => get_admin
       | GET_admin_affiliates => get_admin_affiliates
       | GET_admin_clicks => get_admin_clicks
       | GET_admin_payouts => get_admin_payouts
       | POST_admin_payouts_approve id => post_admin_payouts_approve a id
       | POST_admin_payouts_reject id => post_admin_payouts_reject a id
       end w.
Proof.
  destruct (loadSessionData_reads w) as [locals Hl]. exists locals. split; [exact Hl|].
  unfold app. unfold mbind at 1, M_bind. rewrite Hl. reflexivity.
Qed.

(** what a registration leaves behind when the generated id is fresh *)
Lemma post_register_shape (a : Ambient) (name email password : option string) (w : World) :
  fresh_id (users w) a ->
  let w' := fst (post_register a name email password w) in
  (users w' = users w /\ session w' = session w)
  \/ (exists u, users w' = (users w ++ [u])%list /\ user_id u = objectId a
                /\ user_role u = affiliate /\ user_referralCode u = "temp"
                /\ session w' = session w)
  \/ (exists u, users w' = (users w ++ [u])%list /\ user_id u = objectId a
                /\ user_role u = affiliate
                /\ user_referralCode u
                   = generateReferralCode (Some (str name)) (objectId a) (random a)
                /\ session w' = <["userId" := Str (objectId a)]> (session w)).
Proof.
  intros Hfresh. unfold post_register.
  destruct (negb (JS.truthy name) || negb (JS.truthy email) || negb (JS.truthy password));
    [left; split; reflexivity|].
  unfold User_findOne, User_create, User_save, session_set. run_handler.
  destruct (List.find _ (users w)); [left; split; reflexivity|]. cbn.
  set (placeholder := mkUser (objectId a) (str name) (str email)
                        (bcrypt_hash (str password) 10 (salt a)) "temp" affiliate
                        (now a) (now a)).
  destruct (violated_index placeholder (users w)); [left; split; reflexivity|].
  cbn. rewrite existsb_app. cbn. rewrite String.eqb_refl, orb_true_r. cbn.
  assert (Hno : existsb (fun u => String.eqb (user_id u) (user_id placeholder))
                  (users w) = false).
  { apply existsb_false_intro. intros x Hx. apply String.eqb_neq, Hfresh, Hx. }
  change (without_id (objectId a) (users w ++ [placeholder]))
    with (without_id (user_id placeholder) (users w ++ [placeholder])).
  rewrite without_id_snoc, Hno.
  match goal with
  | |- context [violated_index ?d (users w)] =>
      destruct (violated_index d (users w)); cbn;
      [ right; left; exists placeholder; repeat split; reflexivity
      | right; right; exists d;
        rewrite (replace_id_snoc_fresh (users w) placeholder d eq_refl Hno);
        repeat split; reflexivity ]
  end.
Qed.

Lemma post_login_shape (email password : option string) (w : World) :
  let w' := fst (post_login email password w) in
  users w' = users w
  /\ (session w' = session w
      \/ exists u, In u (users w) /\ user_role u = affiliate
                   /\ session w' = <["userId" := Str (user_id u)]> (session w)).
Proof.
  unfold post_login.
  destruct (negb (JS.truthy email) || negb (JS.truthy password)); [cbn; auto|].
  unfold User_findOne, session_set. run_handler.
  destruct (List.find _ (users w)) as [u|] eqn:E; [|cbn; auto].
  apply find_some in E as [Hin Hp]. apply andb_true_iff in Hp as [_ Hr].
  apply is_role_true in Hr.
  destruct (bcrypt_compare _ _); cbn; [|auto]. split; [reflexivity|]. right. eauto.
Qed.

Lemma post_admin_login_shape (email password : option string) (w : World) :
  let w' := fst (post_admin_login email password w) in
  users w' = users w
  /\ (session w' = session w
      \/ exists u, In u (users w) /\ user_role u = admin
                   /\ session w' = <["adminId" := Str (user_id u)]> (session w)).
Proof.
  unfold post_admin_login, User_findOne, session_set. run_handler.
  destruct (List.find _ (users w)) as [u|] eqn:E; [|cbn; auto].
  apply find_some in E as [Hin Hp]. apply andb_true_iff in Hp as [_ Hr].
  apply is_role_true in Hr.
  destruct password as [p|]; [|cbn; auto].
  destruct (bcrypt_compare _ _); cbn; [|auto]. split; [reflexivity|]. right. eauto.
Qed.

Lemma startup_shape (a : Ambient) (w : World) :
  let w' := fst (startup a w) in
  session w' = session w
  /\ (users w' = users w
      \/ exists u, users w' = (users w ++ [u])%list /\ user_id u = objectId a
                   /\ user_role u = admin /\ user_referralCode u = "admin").
Proof.
  unfold startup, ensureAdminUser.
  destruct (negb (JS.truthy (ADMIN_EMAIL (env a))) || negb (JS.truthy (ADMIN_PASSWORD (env a))));
    [cbn; auto|].
  unfold User_findOne, User_create. run_handler.
  destruct (List.find _ (users w)); [cbn; auto|]. cbn.
  destruct (violated_index _ (users w)); cbn; [auto|].
  split; [reflexivity|]. right. eexists. repeat split; reflexivity.
Qed.

Lemma session_valid_more (us new : list User) (s : gmap string SVal) :
  session_valid us s -> session_valid (us ++ new) s.
Proof.
  intros [Hu Ha]. split; intros id Hid.
  - destruct (Hu id Hid) as (u & Hin & Hrest). exists u. split; [|exact Hrest].
    apply in_or_app. auto.
  - destruct (Ha id Hid) as (u & Hin & Hrest). exists u. split; [|exact Hrest].
    apply in_or_app. auto.
Qed.

Lemma session_valid_set_user (us : list User) (s : gmap string SVal) (u : User) :
  In u us -> user_role u = affiliate -> session_valid us s ->
  session_valid us (<["userId" := Str (user_id u)]> s).
Proof.
  intros Hin Hr [Hu Ha]. split; intros id Hid.
  - rewrite lookup_insert_eq in Hid. injection Hid as <-. eauto.
  - rewrite lookup_insert_ne in Hid by discriminate. auto.
Qed.

Lemma session_valid_set_admin (us : list User) (s : gmap string SVal) (u : User) :
  In u us -> user_role u = admin -> session_valid us s ->
  session_valid us (<["adminId" := Str (user_id u)]> s).
Proof.
  intros Hin Hr [Hu Ha]. split; intros id Hid.
  - rewrite lookup_insert_ne in Hid by discriminate. auto.
  - rewrite lookup_insert_eq in Hid. injection Hid as <-. eauto.
Qed.

Lemma session_valid_clear (us : list User) (s : gmap string SVal) (k : string) :
  session_valid us s -> session_valid us (<[k := Null]> s).
Proof.
  intros [Hu Ha]. split; intros id Hid.
  - destruct (decide (k = "userId")) as [-> | Hk].
    + rewrite lookup_insert_eq in Hid. discriminate.
    + rewrite lookup_insert_ne in Hid by exact Hk. auto.
  - destruct (decide (k = "adminId")) as [-> | Hk].
    + rewrite lookup_insert_eq in Hid. discriminate.
    + rewrite lookup_insert_ne in Hid by exact Hk. auto.
Qed.

(** one request: the accounts grow at the end by at most one account, and
    the session of the request stays valid *)
Lemma app_accounts_and_session (a : Ambient) (req : Request) (w : World) :
  fresh_id (users w) a ->
  let w' := fst (app a req w) in
  (users w' = users w
   \/ exists u, users w' = (users w ++ [u])%list /\ user_id u = objectId a
                /\ user_role u = affiliate /\ user_referralCode u <> "admin")
  /\ (session_valid (users w) (session w) -> session_valid (users w') (session w')).
Proof.
  intros Hfresh. destruct (app_after_load a req w) as (locals & _ & Happ).
  destruct (is_register req) eqn:Hreg.
  - destruct req; try discriminate Hreg. cbn zeta. rewrite Happ.
    destruct (post_register_shape a name email password w Hfresh)
      as [[Hu Hs] | [(u & Hu & Hid & Hr & Hc & Hs) | (u & Hu & Hid & Hr & Hc & Hs)]].
    + rewrite Hu, Hs. auto.
    + rewrite Hu, Hs. split.
      * right. exists u. repeat split; try assumption. rewrite Hc. discriminate.
      * apply session_valid_more.
    + rewrite Hu, Hs. split.
      * right. exists u. repeat split; try assumption.
        rewrite Hc. apply generated_code_is_not_admin.
      * intros Hv. apply session_valid_more with (new := [u]) in Hv.
        replace (Str (objectId a)) with (Str (user_id u)) by (rewrite Hid; reflexivity).
        apply session_valid_set_user; [apply in_or_app; right; left; reflexivity | exact Hr
                                      | exact Hv].
  - cbn zeta. rewrite (app_same_users a req w Hreg). split; [auto|].
    destruct (is_session_write req) eqn:Hsw.
    + destruct req; try discriminate Hsw; try discriminate Hreg; rewrite Happ; intros Hv.
      * destruct (post_login_shape email password w) as [_ [Hs | (u & Hin & Hr & Hs)]];
          rewrite Hs; [exact Hv | apply session_valid_set_user; assumption].
      * unfold get_logout, session_set. run_handler. apply session_valid_clear, Hv.
      * destruct (post_admin_login_shape email password w)
          as [_ [Hs | (u & Hin & Hr & Hs)]];
          rewrite Hs; [exact Hv | apply session_valid_set_admin; assumption].
      * unfold get_admin_logout, session_set. run_handler. apply session_valid_clear, Hv.
    + rewrite (app_same_session a req w Hsw). auto.
Qed.

End FreshHistories.






Section Answers.

Context `{Bcrypt}.

Lemma step_server_ok (sv : Server) (e : Event) :
  fresh_id (db_users sv) (ambient_of e) -> server_ok sv ->
  (exists new, db_users (step sv e) = (db_users sv ++ new)%list /\ (length new <= 1)%nat)
  /\ server_ok (step sv e).
Proof.
  intros Hfresh [Hadm Hsess]. destruct e as [a | a sid req]; cbn in Hfresh |- *.
  - destruct (startup_shape a (mkWorld (db_users sv) (db_clicks sv) (db_payouts sv) ∅))
      as [_ [Hu | (u & Hu & Hid & Hr & Hc)]]; cbn in Hu; rewrite Hu.
    + split; [exists []; rewrite app_nil_r; auto|]. split; assumption.
    + split; [exists [u]; auto|]. split.
      * intros x Hx Hxr. apply in_app_or in Hx as [Hx | [<- | []]]; auto.
      * cbn. intros sid s Hs. apply session_valid_more, (Hsess sid s Hs).
  - assert (Hv : session_valid (users (enter sv sid)) (session (enter sv sid))).
    { cbn. destruct (sessions sv !! sid) as [s|] eqn:Es; cbn; [eauto|].
      split; intros id Hid; rewrite lookup_empty in Hid; discriminate. }
    destruct (app_accounts_and_session a req (enter sv sid) Hfresh) as [Hshape Hvalid].
    specialize (Hvalid Hv). cbn in Hshape.
    assert (Hext : exists new, users (fst (app a req (enter sv sid)))
                               = (db_users sv ++ new)%list
                               /\ (length new <= 1)%nat
                               /\ forall u, In u new ->
                                    user_role u = affiliate).
    { destruct Hshape as [Hu | (u & Hu & _ & Hr & _)]; rewrite Hu.
      - exists []. rewrite app_nil_r. repeat split; [cbn; lia | intros u []].
      - exists [u]. repeat split; [cbn; lia | intros x [<- | []]; exact Hr]. }
    destruct Hext as (new & Hu & Hlen & Hroles). split; [eauto|]. split; cbn.
    + rewrite Hu. intros x Hx Hxr. apply in_app_or in Hx as [Hx | Hx]; [auto|].
      rewrite (Hroles x Hx) in Hxr. discriminate.
    + intros sid' s Hs. destruct (decide (sid = sid')) as [<- | Hne].
      * rewrite lookup_insert_eq in Hs. injection Hs as <-. exact Hvalid.
      * rewrite lookup_insert_ne in Hs by exact Hne. rewrite Hu.
        apply session_valid_more, (Hsess sid' s Hs).
Qed.

Lemma run_server_ok (es : list Event) (sv : Server) :
  fresh_history sv es -> server_ok sv ->
  (exists new, db_users (run sv es) = (db_users sv ++ new)%list
               /\ (length new <= length es)%nat)
  /\ server_ok (run sv es).
Proof.
  revert sv. induction es as [|e es IH]; intros sv Hfresh Hok; cbn in *.
  - split; [exists []; rewrite app_nil_r; auto | exact Hok].
  - destruct Hfresh as [Hf Hrest].
    destruct (step_server_ok sv e Hf Hok) as [(n1 & H1 & L1) Hok1].
    destruct (IH (step sv e) Hrest Hok1) as [(n2 & H2 & L2) Hok2].
    split; [|exact Hok2]. exists (n1 ++ n2)%list. unfold run in H2.
    rewrite H2, H1, app_assoc, length_app. split; [reflexivity | lia].
Qed.

Lemma boot_ok : server_ok boot.
Proof.
  split; [intros u []|]. intros sid s Hs. cbn in Hs. rewrite lookup_empty in Hs.
  discriminate.
Qed.

(** X13. Over a history in which every generated id is fresh, accounts are
    only ever appended: the accounts a server has stay at their places with
    every field as it was (no account is deleted, no role, email or code of
    an existing account changes), and each event adds at most one. *)
Theorem accounts_are_append_only (sv : Server) (es : list Event) :
  server_ok sv -> fresh_history sv es ->
  exists new, db_users (run sv es) = (db_users sv ++ new)%list
              /\ (length new <= length es)%nat.
Proof. intros Hok Hfresh. exact (proj1 (run_server_ok es sv Hfresh Hok)). Qed.

(** X14. On a server reached from boot by a history with fresh ids there is
    at most one admin-role account: every admin carries the referral code
    "admin" and referral codes are unique. *)
Theorem at_most_one_admin (es : list Event) (u1 u2 : User) :
  fresh_history boot es ->
  In u1 (db_users (run boot es)) -> In u2 (db_users (run boot es)) ->
  user_role u1 = admin -> user_role u2 = admin -> u1 = u2.
Proof.
  intros Hfresh Hin1 Hin2 Hr1 Hr2.
  destruct (run_server_ok es boot Hfresh boot_ok) as [_ [Hadm _]].
  assert (Hcodes : codes_unique (db_users (run boot es))).
  { assert (Hreach : reachable (run boot es)) by (exists es; reflexivity).
    revert Hreach. generalize (run boot es). apply reachable_ind; [constructor|].
    intros sv e. apply step_keeps_codes_unique. }
  pose proof (Hadm u1 Hin1 Hr1) as Hc1. pose proof (Hadm u2 Hin2 Hr2) as Hc2.
  revert Hin1 Hin2 Hcodes. unfold codes_unique.
  generalize (db_users (run boot es)). intros us.
  induction us as [|u us IH]; cbn; [tauto|].
  intros Hin1 Hin2 Hnd. apply NoDup_cons_In in Hnd as [Hu Hl].
  destruct Hin1 as [-> | Hin1], Hin2 as [-> | Hin2]; [reflexivity | | | auto].
  - exfalso. apply Hu, in_map_iff. exists u2. split; [congruence | assumption].
  - exfalso. apply Hu, in_map_iff. exists u1. split; [congruence | assumption].
Qed.



End Answers.

(** *** Whole amounts *)

Ltac digit_cases d H :=
  assert (d = 0 \/ d = 1 \/ d = 2 \/ d = 3 \/ d = 4 \/ d = 5 \/ d = 6 \/ d = 7 \/ d = 8
          \/ d = 9)%Z as Hcases by (unfold is_digit in H; lia);
  repeat destruct Hcases as [-> | Hcases]; [.. | subst d].

Lemma digit_char_class (d : Z) :
  is_digit d ->
  JS.code (JS.digit_char d) = (48 + d)%Z
  /\ JS.isStrWhiteSpaceChar (48 + d) = false
  /\ JS.utf8 (48 + d) = [JS.digit_char d]
  /\ JS.digit_val (JS.digit_char d) = Some d
  /\ (forall x, In x ["-"; "+"; "e"; "E"; "."; "x"; "X"; "o"; "O"; "b"; "B"] ->
                JS.is_char x (JS.digit_char d) = false)
  /\ Ascii.eqb (JS.digit_char d) "I" = false.
Proof.
  intros Hd. digit_cases d Hd.
  all: do 4 (split; [reflexivity|]); split; [|reflexivity].
  all: intros x Hx; cbn in Hx; repeat destruct Hx as [<- | Hx]; try reflexivity; destruct Hx.
Qed.

Lemma code_points_digits (ds : list Z) :
  Forall is_digit ds ->
  JS.code_points (string_of_list_ascii (digit_chars ds)) = digit_points ds.
Proof.
  induction 1 as [|d ds Hd _ IH]; [reflexivity|].
  cbn [digit_chars digit_points List.map string_of_list_ascii].
  destruct (digit_char_class d Hd) as (Hc & _).
  rewrite code_points_ascii by (rewrite Hc; unfold is_digit in Hd; lia).
  rewrite Hc. f_equal. exact IH.
Qed.

Lemma utf8_digits (ds : list Z) :
  Forall is_digit ds -> List.flat_map JS.utf8 (digit_points ds) = digit_chars ds.
Proof.
  induction 1 as [|d ds Hd _ IH]; [reflexivity|].
  cbn [digit_chars digit_points List.map List.flat_map].
  destruct (digit_char_class d Hd) as (_ & _ & -> & _).
  cbn [app]. f_equal. exact IH.
Qed.

Lemma drop_ws_digits (ds : list Z) :
  Forall is_digit ds -> JS.drop_ws (digit_points ds) = digit_points ds.
Proof.
  intros Hds. destruct Hds as [|d ds Hd _]; [reflexivity|].
  cbn [digit_points List.map JS.drop_ws].
  destruct (digit_char_class d Hd) as (_ & Hw & _). rewrite Hw. reflexivity.
Qed.

Lemma trim_digits (ds : list Z) :
  Forall is_digit ds -> JS.trim (digit_points ds) = digit_points ds.
Proof.
  intros Hds. unfold JS.trim. rewrite (drop_ws_digits ds Hds).
  unfold digit_points at 1. rewrite <- List.map_rev.
  change (List.map (fun d => (48 + d)%Z) (rev ds)) with (digit_points (rev ds)).
  rewrite (drop_ws_digits (rev ds)) by (apply List.Forall_rev, Hds).
  unfold digit_points. rewrite List.map_rev, List.rev_involutive. reflexivity.
Qed.

Lemma digits_val_digits (ds : list Z) (acc : Z) :
  Forall is_digit ds ->
  JS.digits_val 10 acc (digit_chars ds) = Some (digits_value ds acc).
Proof.
  intros Hds. revert acc. induction Hds as [|d ds Hd _ IH]; intros acc; [reflexivity|].
  cbn. rewrite (proj1 (proj2 (proj2 (proj2 (digit_char_class d Hd))))).
  assert ((d <? 10)%Z = true) as -> by (unfold is_digit in Hd; lia).
  apply IH.
Qed.

Lemma break_at_digits (p : ascii -> bool) (ds : list Z) :
  (forall d, is_digit d -> p (JS.digit_char d) = false) ->
  Forall is_digit ds -> JS.break_at p (digit_chars ds) = (digit_chars ds, None).
Proof.
  intros Hp. induction 1 as [|d ds Hd _ IH]; [reflexivity|].
  cbn. rewrite (Hp d Hd). fold (digit_chars ds). rewrite IH. reflexivity.
Qed.

Lemma decimal_value_digits (ds : list Z) :
  Forall is_digit ds -> ds <> [] ->
  JS.decimal_value (digit_chars ds)
    = Some (inject_Z (digits_value ds 0) * JS.pow10 0)%Q.
Proof.
  intros Hds Hne. unfold JS.decimal_value.
  rewrite (break_at_digits _ ds), (break_at_digits _ ds); try assumption.
  - unfold JS.nonempty_digits. destruct ds as [|d ds]; [contradiction|].
    change (JS.digit_char d :: List.map JS.digit_char ds) with (digit_chars (d :: ds)).
    rewrite digits_val_digits by assumption. reflexivity.
  - intros d Hd. destruct (digit_char_class d Hd) as (_ & _ & _ & _ & Hc & _).
    apply Hc. cbn. tauto.
  - intros d Hd. destruct (digit_char_class d Hd) as (_ & _ & _ & _ & Hc & _).
    rewrite !Hc by (cbn; tauto). reflexivity.
Qed.

Section Integers.

Local Open Scope Q_scope.

Lemma rne_comp (x y : Q) : x == y -> JS.rne x = JS.rne y.
Proof.
  intros E. unfold JS.rne. rewrite (Qfloor_comp x y E).
  assert (x - inject_Z (Qfloor y) == y - inject_Z (Qfloor y)) as E' by (rewrite E; reflexivity).
  rewrite (Qcompare_comp _ _ E' (1#2) (1#2) (Qeq_refl _)). reflexivity.
Qed.

Lemma Qred_inject_Z (n : Z) : Qred (inject_Z n) = inject_Z n.
Proof.
  unfold Qred, inject_Z.
  pose proof (Z.ggcd_gcd n 1) as Hg. pose proof (Z.ggcd_correct_divisors n 1) as Hd.
  destruct (Z.ggcd n 1) as (g, (r1, r2)). cbn in Hg, Hd. rewrite Z.gcd_1_r in Hg.
  subst g. destruct Hd as [-> Hr2]. replace r2 with 1%Z by lia.
  f_equal. lia.
Qed.

Lemma round64_integer (n : Z) :
  (0 < n < 2 ^ 53)%Z -> JS.round64 (inject_Z n) = inject_Z n.
Proof.
  intros [Hlo Hhi].
  assert (0 < inject_Z n) as Hpos by (unfold Qlt; cbn; lia).
  destruct (ilog2_spec (inject_Z n) Hpos) as [Hle Hlt].
  set (e := JS.ilog2 (inject_Z n)) in *.
  assert (0 <= e < 53)%Z as He.
  { split.
    - assert (JS.pow2 0 < JS.pow2 (e + 1)) as H0.
      { eapply Qle_lt_trans; [|exact Hlt]. rewrite pow2_Z by lia.
        rewrite <- Zle_Qle. cbn. lia. }
      apply pow2_lt_inv in H0. lia.
    - apply pow2_lt_inv. eapply Qle_lt_trans; [exact Hle|].
      rewrite pow2_Z by lia. rewrite <- Zlt_Qlt. exact Hhi. }
  assert (JS.ulp (inject_Z n) = JS.pow2 (e - 52)) as Hulp.
  { unfold JS.ulp. fold e. rewrite Z.max_l by lia. reflexivity. }
  assert (JS.pow2 (e - 52) * JS.pow2 (52 - e) == 1) as Hinv.
  { rewrite <- pow2_add. replace (e - 52 + (52 - e))%Z with 0%Z by lia. reflexivity. }
  assert (inject_Z n / JS.pow2 (e - 52) == inject_Z (n * 2 ^ (52 - e))) as Hdiv.
  { rewrite inject_Z_mult, <- pow2_Z by lia.
    assert (inject_Z n == inject_Z n * JS.pow2 (52 - e) * JS.pow2 (e - 52)) as Hx.
    { rewrite <- Qmult_assoc, (Qmult_comm (JS.pow2 (52 - e))), Hinv. ring. }
    rewrite Hx at 1. apply Qdiv_mult_l.
    intros E0. pose proof (pow2_pos (e - 52)) as Hp. rewrite E0 in Hp. discriminate Hp. }
  destruct n as [|p|p]; try lia.
  unfold JS.round64. cbn [Qnum inject_Z].
  change (Z.pos p # 1) with (inject_Z (Z.pos p)).
  rewrite Hulp, (rne_comp _ _ Hdiv), rne_Z.
  rewrite <- (Qred_inject_Z (Z.pos p)). apply Qred_complete.
  rewrite inject_Z_mult, <- pow2_Z by lia.
  rewrite <- Qmult_assoc, (Qmult_comm (JS.pow2 (52 - e))), Hinv. ring.
Qed.

Lemma to_Num_integer (n : Z) :
  (0 < n < 2 ^ 53)%Z -> JS.to_Num (inject_Z n) = JS.Finite (inject_Z n).
Proof.
  intros Hn. unfold JS.to_Num. rewrite (round64_integer n Hn).
  destruct (Qle_bool (JS.pow2 1024) (Qabs (inject_Z n))) eqn:E; [|reflexivity].
  exfalso. apply Qle_bool_iff in E.
  rewrite Qabs_pos in E by (unfold Qle; cbn; lia).
  assert (JS.pow2 53 <= inject_Z n) as H53.
  { eapply Qle_trans; [|exact E]. apply pow2_le. lia. }
  rewrite pow2_Z in H53 by lia. rewrite <- Zle_Qle in H53. lia.
Qed.

End Integers.

Lemma radix_prefix_digits (ds : list Z) :
  Forall is_digit ds -> JS.radix_prefix (digit_chars ds) = None.
Proof.
  intros Hds. destruct Hds as [|z ? Hz [|x ? Hx _]]; try reflexivity.
  unfold JS.radix_prefix. cbn [digit_chars List.map].
  destruct (JS.is_char "0" (JS.digit_char z)); [|reflexivity].
  destruct (digit_char_class x Hx) as (_ & _ & _ & _ & Hc & _).
  rewrite !Hc by (cbn; tauto). reflexivity.
Qed.

Lemma strip_sign_digits (ds : list Z) :
  Forall is_digit ds -> JS.strip_sign (digit_chars ds) = (false, digit_chars ds).
Proof.
  intros Hds. destruct Hds as [|d ? Hd _]; [reflexivity|].
  unfold JS.strip_sign. cbn [digit_chars List.map].
  destruct (digit_char_class d Hd) as (_ & _ & _ & _ & Hc & _).
  rewrite !Hc by (cbn; tauto). reflexivity.
Qed.

Lemma StringToNumber_digits (ds : list Z) :
  Forall is_digit ds -> (0 < digits_value ds 0 < 2 ^ 53)%Z ->
  JS.StringToNumber (string_of_list_ascii (digit_chars ds))
    = JS.Finite (inject_Z (digits_value ds 0)).
Proof.
  intros Hds Hv. unfold JS.StringToNumber.
  rewrite (code_points_digits ds Hds), (trim_digits ds Hds), (utf8_digits ds Hds).
  rewrite (radix_prefix_digits ds Hds), (strip_sign_digits ds Hds).
  assert (ds <> []) as Hne by (intros ->; cbn in Hv; lia).
  rewrite (decimal_value_digits ds Hds Hne).
  destruct ds as [|d ds']; [contradiction|].
  set (v := digits_value (d :: ds') 0) in *.
  cbn [digit_chars List.map string_of_list_ascii String.eqb].
  rewrite (proj2 (proj2 (proj2 (proj2 (proj2 (digit_char_class d (Forall_inv Hds))))))).
  replace (inject_Z v * JS.pow10 0)%Q with (inject_Z v).
  - apply to_Num_integer, Hv.
  - unfold Qmult, inject_Z. cbn. rewrite Z.mul_1_r. reflexivity.
Qed.

Lemma digits_value_snoc (ds : list Z) (d acc : Z) :
  digits_value (ds ++ [d])%list acc = (digits_value ds acc * 10 + d)%Z.
Proof. unfold digits_value. rewrite fold_left_app. reflexivity. Qed.

Lemma string_of_digits_snoc (ds : list Z) (d : Z) (acc : string) :
  string_of_list_ascii (digit_chars (ds ++ [d])%list) ++ acc
    = string_of_list_ascii (digit_chars ds) ++ String (JS.digit_char d) acc.
Proof.
  induction ds as [|x ds IH]; [reflexivity|].
  change (String (JS.digit_char x) (string_of_list_ascii (digit_chars (ds ++ [d])%list) ++ acc)
          = String (JS.digit_char x)
              (string_of_list_ascii (digit_chars ds) ++ String (JS.digit_char d) acc)).
  rewrite IH. reflexivity.
Qed.

Lemma decimal_digits_spec (fuel : nat) (n : Z) (acc : string) :
  (0 <= n < 2 ^ (Z.of_nat fuel + 1))%Z ->
  Forall is_digit (digits_of fuel n)
  /\ digits_value (digits_of fuel n) 0 = n
  /\ JS.decimal_digits fuel n acc
       = string_of_list_ascii (digit_chars (digits_of fuel n)) ++ acc.
Proof.
  revert n acc. induction fuel as [|f IH]; intros n acc Hn.
  - change (2 ^ (Z.of_nat 0 + 1))%Z with 2%Z in Hn.
    cbn [digits_of JS.decimal_digits]. rewrite Z.mod_small by lia.
    split; [|split; reflexivity]. constructor; [unfold is_digit; lia | constructor].
  - cbn [digits_of JS.decimal_digits]. destruct (n <? 10)%Z eqn:E.
    + apply Z.ltb_lt in E. rewrite Z.mod_small by lia.
      split; [|split; reflexivity]. constructor; [unfold is_digit; lia | constructor].
    + apply Z.ltb_ge in E.
      assert (0 <= n / 10 < 2 ^ (Z.of_nat f + 1))%Z as Hq.
      { split; [apply Z.div_pos; lia|].
        apply Z.div_lt_upper_bound; [lia|].
        replace (Z.of_nat (S f) + 1)%Z with (Z.succ (Z.of_nat f + 1)) in Hn by lia.
        rewrite Z.pow_succ_r in Hn by lia. lia. }
      destruct (IH (n / 10)%Z (String (JS.digit_char (n mod 10)) acc) Hq) as (Hd & Hv & Hs).
      split; [|split].
      * apply Forall_app. split; [exact Hd|].
        constructor; [|constructor]. unfold is_digit.
        pose proof (Z.mod_pos_bound n 10). lia.
      * rewrite digits_value_snoc, Hv. pose proof (Z.div_mod n 10). lia.
      * rewrite Hs, string_of_digits_snoc. reflexivity.
Qed.

Lemma Z_toString_digits (n : Z) :
  (0 < n)%Z ->
  exists ds, Forall is_digit ds /\ digits_value ds 0 = n
             /\ JS.Z_toString n = string_of_list_ascii (digit_chars ds).
Proof.
  intros Hn. exists (digits_of (Z.to_nat (Z.log2 n)) n).
  assert (0 <= n < 2 ^ (Z.of_nat (Z.to_nat (Z.log2 n)) + 1))%Z as Hb.
  { rewrite Z2Nat.id by apply Z.log2_nonneg.
    pose proof (Z.log2_spec n Hn). change (Z.succ ?x) with (x + 1)%Z in *. lia. }
  destruct (decimal_digits_spec _ n "" Hb) as (Hd & Hv & Hs).
  split; [exact Hd | split; [exact Hv|]].
  unfold JS.Z_toString. assert ((n <? 0)%Z = false) as -> by lia.
  rewrite Hs. clear. induction (digit_chars _) as [|c l IH]; [reflexivity|].
  change (String c (string_of_list_ascii l ++ "") = String c (string_of_list_ascii l)).
  rewrite IH. reflexivity.
Qed.

Section Amounts.

Context `{Bcrypt}.

(** X16. [POST /payout-request] with a whole amount written in decimal.
    For every whole number [n] with [0 < n < 2^53], the field value that is
    the decimal numeral of [n] is read by [Number] as exactly [n], with no
    rounding.  For an affiliate session the answer is the redirect to
    /dashboard and the world after it has the payout requests of before
    followed by one pending request whose amount is [n], and the accounts,
    clicks and session of before. *)
Theorem whole_amount_is_stored_exactly (a : Ambient) (n : Z) (w : World) :
  JS.truthy (slot w "userId") = true ->
  (0 < n < 2 ^ 53)%Z ->
  JS.StringToNumber (JS.Z_toString n) = JS.Finite (inject_Z n)
  /\ post_payout_request a (Some (JS.Z_toString n)) w
       = (mkWorld (users w) (clicks w)
            (payouts w ++ [mkPayoutRequest (objectId a) (slot w "userId")
                             (JS.Finite (inject_Z n)) pending (now a) None])
            (session w),
          inr (Redirect "/dashboard")).
Proof.
  intros Hs Hn.
  assert (JS.StringToNumber (JS.Z_toString n) = JS.Finite (inject_Z n)) as Hnum.
  { destruct (Z_toString_digits n (proj1 Hn)) as (ds & Hd & Hv & ->).
    rewrite <- Hv in Hn |- *. apply StringToNumber_digits; assumption. }
  split; [exact Hnum|].
  unfold post_payout_request. rewrite requireAffiliate_cases, Hs.
  change (str (Some (JS.Z_toString n))) with (JS.Z_toString n). rewrite Hnum.
  assert (JS.le0 (JS.Finite (inject_Z n)) = false) as ->.
  { cbn. apply not_true_iff_false. rewrite Qle_bool_iff. unfold Qle. cbn. lia. }
  destruct (Z_toString_digits n (proj1 Hn)) as (ds & Hd & Hv & ->).
  destruct ds as [|d ds]; [cbn in Hv; lia|].
  unfold PayoutRequest_create. run_handler. reflexivity.
Qed.

End Amounts.

(** *** Clicks and payout requests belong to affiliate accounts *)

Lemma ids_unique_inj (us : list User) (x y : User) :
  ids_unique us -> In x us -> In y us -> user_id x = user_id y -> x = y.
Proof.
  unfold ids_unique. induction us as [|u us IH]; cbn; [tauto|].
  intros Hnd Hx Hy He. apply NoDup_cons_In in Hnd as [Hu Hl].
  destruct Hx as [-> | Hx], Hy as [-> | Hy]; [reflexivity | | | apply IH; assumption].
  - exfalso. apply Hu, in_map_iff. exists y. split; [symmetry|]; assumption.
  - exfalso. apply Hu, in_map_iff. exists x. split; assumption.
Qed.

Lemma affiliate_account_intro (us : list User) (u : User) :
  ids_unique us -> In u us -> user_role u = affiliate -> affiliate_account us (user_id u).
Proof.
  intros Hnd Hin Hr. exists u. split; [|exact Hr].
  destruct (find_is_some (fun x => String.eqb (user_id x) (user_id u)) us u Hin
              (String.eqb_refl _)) as [y Hy].
  rewrite Hy. apply find_some in Hy as [Hiny Hid]. apply String.eqb_eq in Hid.
  f_equal. eapply ids_unique_inj; eauto.
Qed.

Lemma affiliate_account_more (us new : list User) (id : ObjectId) :
  affiliate_account us id -> affiliate_account (us ++ new) id.
Proof.
  intros (u & Hf & Hr). exists u. split; [|exact Hr].
  induction us as [|x us IH]; [discriminate Hf|]. cbn in Hf |- *.
  destruct (String.eqb (user_id x) id); [exact Hf | exact (IH Hf)].
Qed.

Lemma references_ok_more (us new : list User) (cs : list Click) (ps : list PayoutRequest) :
  references_ok us cs ps -> references_ok (us ++ new) cs ps.
Proof.
  intros [Hc Hp]. split.
  - eapply Forall_impl; [exact Hc|]. intros c. apply affiliate_account_more.
  - eapply Forall_impl; [exact Hp|]. intros p (id & Hid & Ha).
    exists id. split; [exact Hid | apply affiliate_account_more, Ha].
Qed.

Lemma update_first_affiliates (id : ObjectId) (st : Status) (t : Z) (P : option ObjectId -> Prop)
    (ps : list PayoutRequest) :
  Forall (fun p => P (payout_affiliate p)) ps ->
  Forall (fun p => P (payout_affiliate p)) (update_first id (adjudicated st t) ps).
Proof.
  induction 1 as [|p ps Hp Hps IH]; cbn; [constructor|].
  destruct (String.eqb (payout_id p) id); constructor; first [exact Hp | assumption].
Qed.

Section References.

Context `{Bcrypt}.

Lemma app_same_clicks (a : Ambient) (req : Request) (w : World) :
  is_click req = false -> clicks (fst (app a req w)) = clicks w.
Proof.
  intros Hreq.
  assert (Hr : forall w0, same_clicks w0 w0) by reflexivity.
  assert (Ht : forall w1 w2 w3, same_clicks w1 w2 -> same_clicks w2 w3 -> same_clicks w1 w3)
    by (unfold same_clicks; intros; congruence).
  revert w. change (preserves same_clicks (app a req)).
  destruct req; try discriminate Hreq; unfold_routes; preserve_tac frame_prim.
Qed.

Lemma app_same_payouts (a : Ambient) (req : Request) (w : World) :
  is_payout_write req = false -> payouts (fst (app a req w)) = payouts w.
Proof.
  intros Hreq.
  assert (Hr : forall w0, same_payouts w0 w0) by reflexivity.
  assert (Ht : forall w1 w2 w3, same_payouts w1 w2 -> same_payouts w2 w3 ->
                                same_payouts w1 w3)
    by (unfold same_payouts; intros; congruence).
  revert w. change (preserves same_payouts (app a req)).
  destruct req; try discriminate Hreq; unfold_routes; preserve_tac frame_prim.
Qed.

Lemma app_keeps_references (a : Ambient) (req : Request) (w : World) :
  ids_unique (users w) -> session_valid (users w) (session w) ->
  references_ok (users w) (clicks w) (payouts w) ->
  let w' := fst (app a req w) in
  references_ok (users w) (clicks w') (payouts w').
Proof.
  intros Hnd Hv [Hc Hp] w'. subst w'.
  destruct (app_after_load a req w) as (locals & _ & Happ).
  destruct (is_click req) eqn:Hclick.
  - destruct req; try discriminate Hclick.
    rewrite (app_same_payouts a (GET_r code x_forwarded_for remoteAddress user_agent) w
               eq_refl).
    split; [|exact Hp].
    rewrite Happ. unfold get_r, User_findOne, Click_create. run_handler.
    destruct (List.find _ (users w)) as [u|] eqn:Ef; cbn; [|exact Hc].
    apply find_some in Ef as [Hin Hu]. apply andb_true_iff in Hu as [_ Hrole].
    apply Forall_app. split; [exact Hc|]. constructor; [|constructor]. cbn.
    apply affiliate_account_intro; [exact Hnd | exact Hin |].
    unfold is_role in Hrole. apply bool_decide_eq_true in Hrole. exact Hrole.
  - rewrite (app_same_clicks _ _ w Hclick). split; [exact Hc|].
    destruct (is_payout_write req) eqn:Hpay.
    + destruct req; try discriminate Hpay; rewrite Happ.
      * unfold post_payout_request. rewrite requireAffiliate_cases.
        destruct (JS.truthy (slot w "userId")) eqn:Hs; [|exact Hp].
        destruct (_ || _ || _); [exact Hp|].
        unfold PayoutRequest_create. run_handler. apply Forall_app. split; [exact Hp|].
        constructor; [|constructor]. cbn.
        unfold slot in *. destruct (session w !! "userId") as [[|id]|] eqn:Es;
          try discriminate Hs.
        exists id. split; [reflexivity|].
        destruct (proj1 Hv id Es) as (u & Hin & <- & Hr).
        apply affiliate_account_intro; assumption.
      * unfold post_admin_payouts_approve. rewrite requireAdmin_cases.
        destruct (JS.truthy (slot w "adminId")); [|exact Hp].
        unfold PayoutRequest_findByIdAndUpdate.
        destruct (castObjectId id) as [oid|]; run_handler; [|exact Hp].
        apply (update_first_affiliates oid approved (now a)
                 (fun o => exists i, o = Some i /\ affiliate_account (users w) i)), Hp.
      * unfold post_admin_payouts_reject. rewrite requireAdmin_cases.
        destruct (JS.truthy (slot w "adminId")); [|exact Hp].
        unfold PayoutRequest_findByIdAndUpdate.
        destruct (castObjectId id) as [oid|]; run_handler; [|exact Hp].
        apply (update_first_affiliates oid rejected (now a)
                 (fun o => exists i, o = Some i /\ affiliate_account (users w) i)), Hp.
    + rewrite (app_same_payouts _ _ w Hpay). exact Hp.
Qed.

Lemma step_keeps_references (sv : Server) (e : Event) :
  fresh_id (db_users sv) (ambient_of e) -> server_ok sv ->
  ids_unique (db_users sv) ->
  references_ok (db_users sv) (db_clicks sv) (db_payouts sv) ->
  ids_unique (db_users (step sv e))
  /\ references_ok (db_users (step sv e)) (db_clicks (step sv e)) (db_payouts (step sv e)).
Proof.
  intros Hfresh [Hadm Hsess] Hnd Href.
  assert (Hsnoc : forall u, user_id u = objectId (ambient_of e) ->
                            ids_unique (db_users sv ++ [u])).
  { intros u Hid. unfold ids_unique. rewrite List.map_app. apply NoDup_snoc_fresh; [exact Hnd|].
    cbn. rewrite Hid. intros Hin. apply in_map_iff in Hin as (x & Hx & Hin).
    exact (Hfresh x Hin Hx). }
  destruct e as [a | a sid req]; cbn in Hfresh, Hsnoc |- *.
  - set (w := mkWorld (db_users sv) (db_clicks sv) (db_payouts sv) ∅).
    destruct (startup_payouts_same a w) as [-> ->].
    destruct (startup_shape a w) as [_ [Hu | (u & Hu & Hid & _)]]; cbn in Hu; rewrite Hu.
    + split; assumption.
    + split; [exact (Hsnoc u Hid) | apply references_ok_more, Href].
  - assert (Hv : session_valid (users (enter sv sid)) (session (enter sv sid))).
    { cbn. destruct (sessions sv !! sid) as [s|] eqn:Es; cbn; [eauto|].
      split; intros id Hid; rewrite lookup_empty in Hid; discriminate. }
    pose proof (app_keeps_references a req (enter sv sid) Hnd Hv Href) as Hrefs.
    destruct (app_accounts_and_session a req (enter sv sid) Hfresh) as [Hshape _].
    cbn in Hshape, Hrefs.
    destruct Hshape as [Hu | (u & Hu & Hid & _)]; rewrite Hu.
    + split; assumption.
    + split; [exact (Hsnoc u Hid) | apply references_ok_more, Hrefs].
Qed.

Lemma run_keeps_references (es : list Event) (sv : Server) :
  fresh_history sv es -> server_ok sv -> ids_unique (db_users sv) ->
  references_ok (db_users sv) (db_clicks sv) (db_payouts sv) ->
  ids_unique (db_users (run sv es))
  /\ references_ok (db_users (run sv es)) (db_clicks (run sv es)) (db_payouts (run sv es)).
Proof.
  revert sv. induction es as [|e es IH]; intros sv Hfresh Hok Hnd Href; [auto|].
  destruct Hfresh as [Hf Hrest].
  destruct (step_keeps_references sv e Hf Hok Hnd Href) as [Hnd1 Href1].
  exact (IH (step sv e) Hrest (proj2 (step_server_ok sv e Hf Hok)) Hnd1 Href1).
Qed.

(** X17. Over a history from boot in which every generated id is fresh, no
    two accounts share an id, and every click and every payout request
    belongs to an affiliate account: [populate("affiliate")] on the admin
    pages finds, for each of them, the account with that id, and its role
    is affiliate. *)
Theorem records_belong_to_affiliates (es : list Event) (sid : string) :
  fresh_history boot es ->
  let w := enter (run boot es) sid in
  ids_unique (users w)
  /\ Forall (fun c => exists u, populate w (Some (click_affiliate c)) = Some u
                                /\ user_id u = click_affiliate c
                                /\ user_role u = affiliate) (clicks w)
  /\ Forall (fun p => exists u, populate w (payout_affiliate p) = Some u
                                /\ payout_affiliate p = Some (user_id u)
                                /\ user_role u = affiliate) (payouts w).
Proof.
  intros Hfresh w.
  assert (Hfind : forall id u,
            List.find (fun x => String.eqb (user_id x) id) (users w) = Some u ->
            user_id u = id).
  { intros id u Hf. apply find_some in Hf as [_ Hf]. apply String.eqb_eq, Hf. }
  destruct (run_keeps_references es boot Hfresh boot_ok) as [Hnd [Hc Hp]].
  - apply NoDup_nil_2.
  - split; constructor.
  - split; [exact Hnd|]. split.
    + eapply Forall_impl; [exact Hc|]. intros c (u & Hf & Hr).
      exists u. repeat split; [exact Hf | exact (Hfind _ _ Hf) | exact Hr].
    + eapply Forall_impl; [exact Hp|]. intros p (id & Hid & u & Hf & Hr).
      exists u. rewrite Hid. repeat split; [exact Hf | | exact Hr].
      rewrite (Hfind _ _ Hf). reflexivity.
Qed.

End References.

(** *** The further properties on the history of [Demo] *)

Lemma plain_accepts_own_hash (password salt : string) :
  bcrypt_compare (Bcrypt := Demo.plain) password
    (bcrypt_hash (Bcrypt := Demo.plain) password 10 salt) = true.
Proof.
  cbn. induction password as [|c password IH].
  - destruct salt; reflexivity.
  - change (String.prefix (String c (password ++ "$")) (String c (password ++ "$" ++ salt))
            = true).
    cbn. destruct (Ascii.ascii_dec c c) as [_ | Hc]; [exact IH | contradiction].
Qed.

Ltac fresh_by_computation :=
  repeat split; intros ? Hin; vm_compute in Hin;
  repeat (destruct Hin as [<- | Hin]; [discriminate|]); destruct Hin.

Section FurtherExamples.

Import Demo.

#[local] Existing Instance plain.

Lemma approve_without_admin_session_is_redirected :
  app (ambient "" 8000) (POST_admin_payouts_approve payout1) (enter clicked "asha")
    = (enter clicked "asha", inr (Redirect "/admin/login"))
  /\ app (ambient "" 8000) (POST_payout_request (Some "50")) (enter clicked "visitor")
     = (enter clicked "visitor", inr (Redirect "/login")).
Proof.
  split.
  - apply (unauthenticated_request_is_redirected (ambient "" 8000)
             (POST_admin_payouts_approve payout1) "adminId" (enter clicked "asha"));
      reflexivity.
  - apply (unauthenticated_request_is_redirected (ambient "" 8000)
             (POST_payout_request (Some "50")) "userId" (enter clicked "visitor"));
      reflexivity.
Defined.

Lemma adjudicated_request_keeps_its_amount :
  exists p',
    db_payouts (run with_request [root_approves; root_rejects]) !! 0%nat = Some p'
    /\ payout_id p' = payout1
    /\ payout_affiliate p' = Some asha_id
    /\ payout_amount p' = JS.Finite 50
    /\ payout_createdAt p' = 3000%Z.
Proof.
  apply (payout_request_fields_are_fixed with_request [root_approves; root_rejects] 0%nat
           (mkPayoutRequest payout1 (Some asha_id) (JS.Finite 50) pending 3000 None)).
  reflexivity.
Defined.

Lemma accounts_of_clicked_are_unique :
  emails_unique (db_users clicked) /\ codes_unique (db_users clicked).
Proof. apply accounts_are_unique. exists history. reflexivity. Defined.

Lemma payouts_of_clicked_are_well_formed : Forall payout_ok (db_payouts clicked).
Proof. apply payout_requests_are_well_formed. exists history. reflexivity. Defined.

Lemma nila_registers_and_logs_in :
  post_register (ambient nair_id 7000)
    (Some "Nila Nair") (Some "nila@example.com") (Some "pw2") visitor
    = (mkWorld
         [root; asha;
          mkUser nair_id "Nila Nair" "nila@example.com" "pw2$salt" "nilaa001100"
            affiliate 7000 7000]
         [] [] {[ "userId" := Str nair_id ]},
       inr (Redirect "/dashboard"))
  /\ post_login (Some "nila@example.com") (Some "pw2")
       (mkWorld
          [root; asha;
           mkUser nair_id "Nila Nair" "nila@example.com" "pw2$salt" "nilaa001100"
             affiliate 7000 7000]
          [] [] ∅)
     = (mkWorld
          [root; asha;
           mkUser nair_id "Nila Nair" "nila@example.com" "pw2$salt" "nilaa001100"
             affiliate 7000 7000]
          [] [] {[ "userId" := Str nair_id ]},
        inr (Redirect "/dashboard")).
Proof.
  pose proof (registration_creates_account (ambient nair_id 7000)
                "Nila Nair" "nila@example.com" "pw2" visitor) as Hreg.
  cbv zeta in Hreg. destruct Hreg as [E Hlogin].
  - discriminate.
  - discriminate.
  - discriminate.
  - intros u [<- | [<- | []]]; discriminate.
  - intros u [<- | [<- | []]]; discriminate.
  - intros u [<- | [<- | []]] Hc; vm_compute in Hc; discriminate Hc.
  - intros u [<- | [<- | []]]; discriminate.
  - split; [rewrite E; vm_compute; reflexivity|].
    rewrite (Hlogin plain_accepts_own_hash ∅). vm_compute. reflexivity.
Defined.

Lemma nobody_registers_after_half_done :
  post_register (ambient "65d000000000000000000001" 9000)
    (Some "Bala") (Some "bala@example.com") (Some "pw3") half_done
    = (half_done, inr (Render "register" (LError (Some "Error aaya."))))
  /\ post_register (ambient "65d000000000000000000001" 9000)
       (Some "Asha Nair") (Some "nair@example.com") (Some "pw2") half_done
     = (half_done, inr (Render "register" (LError (Some "Ye email already registered hai.")))).
Proof.
  assert (Htemp : exists u, In u (users half_done) /\ user_referralCode u = "temp").
  { exists (mkUser nair_id "Asha Nair" "nair@example.com" "pw2$salt" "temp" affiliate
              7000 7000).
    split; [vm_compute; tauto | reflexivity]. }
  split.
  - apply (proj2 (placeholder_blocks_registration (ambient "65d000000000000000000001" 9000)
                    (Some "Bala") (Some "bala@example.com") (Some "pw3") half_done
                    eq_refl eq_refl eq_refl Htemp)).
    intros u Hin; vm_compute in Hin.
    repeat (destruct Hin as [<- | Hin]; [discriminate|]). destruct Hin.
  - apply (proj1 (placeholder_blocks_registration (ambient "65d000000000000000000001" 9000)
                    (Some "Asha Nair") (Some "nair@example.com") (Some "pw2") half_done
                    eq_refl eq_refl eq_refl Htemp)).
    exists (mkUser nair_id "Asha Nair" "nair@example.com" "pw2$salt" "temp" affiliate
              7000 7000).
    split; [vm_compute; tauto | reflexivity].
Defined.

Lemma asha_and_root_log_in :
  post_login (Some "asha@example.com") (Some "pw") (enter clicked "root")
    = (with_session (enter clicked "root")
         (<["userId" := Str asha_id]> (session (enter clicked "root"))),
       inr (Redirect "/dashboard"))
  /\ slot (fst (post_login (Some "asha@example.com") (Some "pw") (enter clicked "root")))
       "adminId" = Some root_id
  /\ post_admin_login (Some "root@example.com") (Some "s3cret") visitor
     = (with_session visitor {[ "adminId" := Str root_id ]}, inr (Redirect "/admin")).
Proof.
  assert (Hu : emails_unique (db_users clicked)).
  { apply reachable_emails_unique. exists history. reflexivity. }
  destruct (login_establishes_its_slot "asha@example.com" "pw" asha (enter clicked "root"))
    as [Haff _]; [discriminate | discriminate | exact Hu | vm_compute; tauto
                  | reflexivity | vm_compute; reflexivity |].
  destruct (login_establishes_its_slot "root@example.com" "s3cret" root visitor)
    as [_ Hadm]; [discriminate | discriminate | exact Hu | vm_compute; tauto
                  | reflexivity | vm_compute; reflexivity |].
  destruct (Haff eq_refl) as [E1 S1]. destruct (Hadm eq_refl) as [E2 _].
  split; [exact E1 | split; [rewrite S1; reflexivity | exact E2]].
Defined.

Lemma admin_login_of_asha_and_of_a_wrong_password :
  post_admin_login (Some "asha@example.com") (Some "pw") visitor
    = (visitor, inr (Render "admin-login" (LError (Some "Admin not found"))))
  /\ post_admin_login (Some "root@example.com") (Some "guess") visitor
     = (visitor, inr (Render "admin-login" (LError (Some "Wrong password"))))
  /\ post_admin_login (Some "root@example.com") None visitor
     = (visitor, inl (Error "Illegal arguments: undefined, string")).
Proof.
  assert (Hu : emails_unique (users visitor)).
  { apply (reachable_emails_unique opened). exists [connect; asha_registers]. reflexivity. }
  destruct (admin_login_failures "asha@example.com" (Some "pw") root visitor)
    as (Hnone & _).
  destruct (admin_login_failures "root@example.com" (Some "guess") root visitor)
    as (_ & Hwrong).
  destruct (admin_login_failures "root@example.com" None root visitor)
    as (_ & Hthrow).
  split; [|split].
  - apply Hnone. intros x [<- | [<- | []]] [He Hr]; discriminate.
  - destruct Hwrong as [Hw _]; [exact Hu | left; reflexivity | reflexivity | reflexivity |].
    apply (Hw "guess"); reflexivity.
  - destruct Hthrow as [_ Ht]; [exact Hu | left; reflexivity | reflexivity | reflexivity |].
    apply Ht. reflexivity.
Defined.

Lemma admin_sees_the_click_on_asha_link :
  exists ordered,
    Permutation ordered (clicks (enter clicked "root"))
    /\ newest_first click_createdAt ordered
    /\ get_admin_clicks (enter clicked "root")
       = (enter clicked "root",
          inr (Render "admin-clicks"
                 (LClicks (List.map
                             (fun c => (c, populate (enter clicked "root")
                                             (Some (click_affiliate c))))
                             (take 100 ordered)))))
    /\ (length (take 100 ordered) <= 100)%nat
    /\ newest_first click_createdAt (take 100 ordered)
    /\ (forall c, In c (take 100 ordered) -> In c (clicks (enter clicked "root"))).
Proof. apply (admin_clicks_lists_newest_hundred (enter clicked "root")). reflexivity. Defined.


Lemma accounts_of_clicked_were_appended :
  exists new, db_users clicked = ([] ++ new)%list /\ (length new <= 5)%nat.
Proof.
  apply (accounts_are_append_only boot history boot_ok). fresh_by_computation.
Defined.

Lemma root_is_the_only_admin :
  In root (db_users clicked)
  /\ (forall u, In u (db_users clicked) -> user_role u = admin -> u = root).
Proof.
  assert (Hroot : In root (db_users clicked)) by (vm_compute; tauto).
  split; [exact Hroot|]. intros u Hu Hr.
  apply (at_most_one_admin history u root); [fresh_by_computation | exact Hu | exact Hroot
                                            | exact Hr | reflexivity].
Defined.


Lemma payout_of_fifty_is_stored_as_fifty :
  JS.StringToNumber "50" = JS.Finite 50
  /\ post_payout_request (ambient payout1 3000) (Some "50") (enter opened "asha")
     = (mkWorld [root; asha] []
          [mkPayoutRequest payout1 (Some asha_id) (JS.Finite 50) pending 3000 None]
          {[ "userId" := Str asha_id ]},
        inr (Redirect "/dashboard")).
Proof.
  apply (whole_amount_is_stored_exactly (ambient payout1 3000) 50%Z (enter opened "asha"));
    [reflexivity | split; reflexivity].
Defined.

Lemma records_of_clicked_belong_to_asha :
  ids_unique (users (enter clicked "root"))
  /\ Forall (fun c => exists u, populate (enter clicked "root") (Some (click_affiliate c))
                                 = Some u
                                /\ user_id u = click_affiliate c
                                /\ user_role u = affiliate) (clicks (enter clicked "root"))
  /\ Forall (fun p => exists u, populate (enter clicked "root") (payout_affiliate p) = Some u
                                /\ payout_affiliate p = Some (user_id u)
                                /\ user_role u = affiliate) (payouts (enter clicked "root")).
Proof.
  assert (Hfresh : fresh_history boot history) by fresh_by_computation.
  exact (records_belong_to_affiliates history "root" Hfresh).
Defined.

End FurtherExamples.
